(** * node-steamcommunity: session, cookie and login core of [index.js]

    A shallow embedding of the session subsystem of [index.js]
    (constructor, [login], [getClientLogonToken], [_setCookie],
    [setCookies], [getSessionID], [generateSessionID], [_myProfile]) and
    the properties of it that the design document states.

    Conventions of the embedding.
    - A JavaScript string is a [string]: the code units are restricted to
      0..255, so the only line terminators are LF and CR.
    - A JSON scalar is a [JsVal]; numbers are restricted to integers.
    - The client instance is the record [Client]; a method is a function
      in the monad [M], which threads the instance and stops at the first
      thrown exception.
    - Everything the method does to the outside (requests, callback
      invocations, emitted events) is appended to the instance's [log].
    - Asynchronous requests are sequentialised: the reply of the server is
      an argument of the method, and the timers that fall due while the
      request is in flight run before the reply's callback. *)

From Stdlib Require Import String Ascii List ZArith NArith Bool Lia.
From Stdlib Require Import DecimalString.
Import ListNotations.
Open Scope string_scope.

(** ** JavaScript values *)

Module Js.

Inductive JsVal : Type :=
| JsUndefined
| JsNull
| JsBool (b : bool)
| JsNum (z : Z)
| JsStr (s : string).

(** ToBoolean. *)
Definition truthy (v : JsVal) : bool :=
  match v with
  | JsUndefined | JsNull => false
  | JsBool b => b
  | JsNum z => negb (Z.eqb z 0)
  | JsStr s => negb (String.eqb s "")
  end.

(** ToString. *)
Definition toString (v : JsVal) : string :=
  match v with
  | JsUndefined => "undefined"
  | JsNull => "null"
  | JsBool true => "true"
  | JsBool false => "false"
  | JsNum z => NilZero.string_of_int (Z.to_int z)
  | JsStr s => s
  end.

(** [a || b]. *)
Definition or (a b : JsVal) : JsVal := if truthy a then a else b.

End Js.
Import Js.

(** An [Error] object: its constructor name, its message and the two
    properties that [login] may attach to it. *)
Module Err.

Record t : Type := mk {
  name : string;
  message : string;
  emaildomain : option JsVal;
  captchaurl : option string
}.

End Err.

Definition JsError : Type := Err.t.

(** [new Error(msg)]. *)
Definition Error (msg : string) : JsError :=
  Err.mk "Error" msg None None.

(** The exception raised by a property access on [undefined] or [null],
    or by a call of something that is not a function. *)
Definition TypeError : JsError :=
  Err.mk "TypeError" "" None None.

(** ** Strings: the primitives and the regular expressions of [index.js] *)

Module Str.

Definition is_eq (c : ascii) : bool := Ascii.eqb c "="%char.
Definition is_slash (c : ascii) : bool := Ascii.eqb c "/"%char.

(** [\d] *)
Definition is_digit (c : ascii) : bool :=
  let n := nat_of_ascii c in Nat.leb 48 n && Nat.leb n 57.

(** Line terminators (the characters [.] does not match): LF, CR. *)
Definition is_lt (c : ascii) : bool :=
  let n := nat_of_ascii c in Nat.eqb n 10 || Nat.eqb n 13.

(** White space removed by [String.prototype.trim]: TAB, LF, VT, FF, CR,
    SP, NBSP. *)
Definition is_ws (c : ascii) : bool :=
  let n := nat_of_ascii c in
  (Nat.leb 9 n && Nat.leb n 13) || Nat.eqb n 32 || Nat.eqb n 160.

Fixpoint starts_with (p s : string) : bool :=
  match p, s with
  | EmptyString, _ => true
  | String a p', String b s' => Ascii.eqb a b && starts_with p' s'
  | String _ _, EmptyString => false
  end.

Fixpoint drop_prefix (p s : string) : option string :=
  match p, s with
  | EmptyString, _ => Some s
  | String a p', String b s' =>
      if Ascii.eqb a b then drop_prefix p' s' else None
  | String _ _, EmptyString => None
  end.

Fixpoint rev_acc (s acc : string) : string :=
  match s with
  | EmptyString => acc
  | String c s' => rev_acc s' (String c acc)
  end.

Definition rev (s : string) : string := rev_acc s "".

Definition ends_with (p s : string) : bool := starts_with (rev p) (rev s).

(** [re.test(s)] for a regular expression that is a literal text. *)
Fixpoint includes (p s : string) : bool :=
  starts_with p s ||
  match s with
  | EmptyString => false
  | String _ s' => includes p s'
  end.

(** [s.split(sep)] for a non-empty separator.  [skip] counts the
    characters of a separator just recognised that are still to be
    passed over, [cur] is the piece being collected. *)
Fixpoint split_go (sep : string) (skip : nat) (cur s : string) : list string :=
  match s with
  | EmptyString => [cur]
  | String c s' =>
      match skip with
      | S k => split_go sep k cur s'
      | O =>
          if starts_with sep s
          then cur :: split_go sep (String.length sep - 1) "" s'
          else split_go sep 0 (cur ++ String c "") s'
      end
  end.

Definition split (sep s : string) : list string := split_go sep 0 "" s.

Fixpoint trim_left (s : string) : string :=
  match s with
  | EmptyString => ""
  | String c s' => if is_ws c then trim_left s' else s
  end.

Fixpoint trim_right (s : string) : string :=
  match s with
  | EmptyString => ""
  | String c s' =>
      match trim_right s' with
      | EmptyString => if is_ws c then "" else String c ""
      | t => String c t
      end
  end.

Definition trim (s : string) : string := trim_right (trim_left s).

(** [join(sep)] *)
Fixpoint join (sep : string) (l : list string) : string :=
  match l with
  | [] => ""
  | [x] => x
  | x :: l' => x ++ sep ++ join sep l'
  end.

(** Longest run of characters satisfying [p] at the head of [s]. *)
Fixpoint take_while (p : ascii -> bool) (s : string) : string :=
  match s with
  | EmptyString => ""
  | String c s' => if p c then String c (take_while p s') else ""
  end.

Fixpoint drop_while (p : ascii -> bool) (s : string) : string :=
  match s with
  | EmptyString => ""
  | String c s' => if p c then drop_while p s' else s
  end.

Definition nonempty (s : string) : bool :=
  match s with EmptyString => false | _ => true end.

(** *** [/(.+)=/], group 1

    [.] matches anything but a line terminator and [+] is greedy, so at
    a given start the group runs to the last [=] of the line.  A line
    with an [=] after its first character matches at the line's start,
    and that is the leftmost match in this line; a line without one has
    no match at any start. *)

(** The text of [s] up to the last [=] of its first line, when the line
    has an [=]. *)
Fixpoint upto_last_eq (s : string) : option string :=
  match s with
  | EmptyString => None
  | String c s' =>
      if is_lt c then None
      else match upto_last_eq s' with
           | Some p => Some (String c p)
           | None => if is_eq c then Some "" else None
           end
  end.

(** [at_line_start] is true when [s] starts a line. *)
Fixpoint name_eq_go (at_line_start : bool) (s : string) : option string :=
  match s with
  | EmptyString => None
  | String c s' =>
      if is_lt c then name_eq_go true s'
      else if at_line_start then
             match upto_last_eq s with
             | Some (String a p) => Some (String a p)
             | _ => name_eq_go false s'
             end
           else name_eq_go false s'
  end.

(** [s.match(/(.+)=/)]: [None] is [null], [Some g] is group 1. *)
Definition match_name_eq (s : string) : option string := name_eq_go true s.

(** *** [/=(\d+)/], group 1: the digits after the first [=] that is
    followed by a digit. *)
Fixpoint match_eq_digits (s : string) : option string :=
  match s with
  | EmptyString => None
  | String c s' =>
      if is_eq c
      then match take_while is_digit s' with
           | EmptyString => match_eq_digits s'
           | d => Some d
           end
      else match_eq_digits s'
  end.

(** *** [/([^=]+)=(.+)/], groups 1 and 2

    [[^=]+] also matches line terminators; from the leftmost start of a
    block of non-[=] characters it runs to the block's end, where an [=]
    must follow, and after it at least one character of the same line.
    [cur] is the block read so far. *)
Fixpoint key_value_go (cur s : string) : option (string * string) :=
  match s with
  | EmptyString => None
  | String c s' =>
      if is_eq c
      then match cur, take_while (fun x => negb (is_lt x)) s' with
           | String _ _, String a v => Some (cur, String a v)
           | _, _ => key_value_go "" s'
           end
      else key_value_go (cur ++ String c "") s'
  end.

Definition match_key_value (s : string) : option (string * string) :=
  key_value_go "" s.

(** *** [/steamcommunity\.com(\/(id|profiles)\/[^/]+)\/?/], group 1 *)
Definition profile_at (s : string) : option string :=
  match drop_prefix "steamcommunity.com" s with
  | None => None
  | Some r =>
      match drop_prefix "/id/" r with
      | Some t =>
          match take_while (fun x => negb (is_slash x)) t with
          | EmptyString => None
          | seg => Some ("/id/" ++ seg)
          end
      | None =>
          match drop_prefix "/profiles/" r with
          | Some t =>
              match take_while (fun x => negb (is_slash x)) t with
              | EmptyString => None
              | seg => Some ("/profiles/" ++ seg)
              end
          | None => None
          end
      end
  end.

Fixpoint match_profile (s : string) : option string :=
  match s with
  | EmptyString => None
  | String _ s' =>
      match profile_at s with
      | Some g => Some g
      | None => match_profile s'
      end
  end.

End Str.

(** ** Cookies and the cookie jar

    [Request.jar()] and [Request.cookie] belong to the [request] package
    and its cookie library, not to this repository.  The jar is modelled
    by what [index.js] relies on: a cookie set without a [Domain]
    attribute is bound to the host of the URL it is set under, a later
    cookie of the same host and name takes the place of the earlier one,
    and [getCookieString] lists, in order of creation, the unexpired
    cookies of the URL's host, leaving out the secure ones unless the
    URL's scheme is https. *)

Record Cookie : Type := mkCookie {
  key : string;
  value : string;
  secure : bool;
  expires : option N   (* milliseconds since the epoch; [None]: never *)
}.

Definition cookie_with_secure (c : Cookie) (s : bool) : Cookie :=
  mkCookie (key c) (value c) s (expires c).

Definition cookie_with_expires (c : Cookie) (e : option N) : Cookie :=
  mkCookie (key c) (value c) (secure c) e.

(** [cookie.clone()]: a distinct object with the same contents. *)
Definition clone (c : Cookie) : Cookie := c.

Module Jar.

Record Entry : Type := mkEntry { domain : string; cookie : Cookie }.

Definition t : Type := list Entry.

Definition is_delim (c : ascii) : bool :=
  Ascii.eqb c "/"%char || Ascii.eqb c ":"%char ||
  Ascii.eqb c "?"%char || Ascii.eqb c "#"%char.

(** Scheme and host of an absolute URL [scheme://host...]. *)
Definition url_scheme (url : string) : string :=
  match Str.split "://" url with
  | s :: _ :: _ => s
  | _ => ""
  end.

Definition url_host (url : string) : string :=
  match Str.split "://" url with
  | _ :: rest :: _ => Str.take_while (fun c => negb (is_delim c)) rest
  | _ => ""
  end.

Definition same_slot (d k : string) (e : Entry) : bool :=
  String.eqb (domain e) d && String.eqb (key (cookie e)) k.

Fixpoint put (e : Entry) (j : t) : t :=
  match j with
  | [] => [e]
  | x :: j' =>
      if same_slot (domain e) (key (cookie e)) x then e :: j'
      else x :: put e j'
  end.

(** [jar.setCookie(cookie, url)] *)
Definition setCookie (c : Cookie) (url : string) (j : t) : t :=
  put (mkEntry (url_host url) c) j.

Definition expired (now : N) (c : Cookie) : bool :=
  match expires c with
  | None => false
  | Some e => N.leb e now
  end.

Definition visible (now : N) (url : string) (e : Entry) : bool :=
  String.eqb (domain e) (url_host url)
  && negb (expired now (cookie e))
  && (negb (secure (cookie e)) || String.eqb (url_scheme url) "https").

Definition cookie_string (c : Cookie) : string := key c ++ "=" ++ value c.

(** [jar.getCookieString(url)] *)
Definition getCookieString (now : N) (url : string) (j : t) : string :=
  Str.join "; " (map (fun e => cookie_string (cookie e)) (filter (visible now url) j)).

End Jar.

(** ** The client instance, its log, and the method monad *)

(** One argument of a callback invocation. *)
Inductive CbArg : Type :=
| ArgError (e : JsError)
| ArgVal (v : JsVal)
| ArgList (l : list string)
| ArgObject (fields : list (string * JsVal)).

Inductive Event : Type :=
| EvJarSet (c : Cookie) (url : string)
| EvRequest (method uri : string) (form headers : list (string * JsVal))
| EvCallback (args : list CbArg)
| EvEmit (event : string) (e : JsError).

Record Client : Type := mkClient {
  _jar : Jar.t;
  _captchaGid : JsVal;
  _mobileUserAgent : JsVal;        (* [this._options.mobileUserAgent] *)
  steamID : option string;         (* the SteamID, by its 64-bit rendering *)
  oAuthToken : JsVal;
  _profileURL : option string;     (* [None]: the property is absent *)
  timers : list N;                 (* due times of the pending cache-expiry timeouts *)
  now : N;                         (* [Date.now()] *)
  entropy : nat -> Byte.byte;      (* the bytes [crypto.randomBytes] will deliver *)
  entropy_pos : nat;
  log : list Event
}.

Inductive Res (A : Type) : Type :=
| Ok (a : A)
| Throw (e : JsError).
Arguments Ok {A} a.
Arguments Throw {A} e.

Definition M (A : Type) : Type := Client -> Res A * Client.

Definition ret {A} (a : A) : M A := fun st => (Ok a, st).

Definition bind {A B} (m : M A) (k : A -> M B) : M B :=
  fun st =>
    match m st with
    | (Ok a, st') => k a st'
    | (Throw e, st') => (Throw e, st')
    end.

Definition throw {A} (e : JsError) : M A := fun st => (Throw e, st).

Definition get : M Client := fun st => (Ok st, st).

Definition modify (f : Client -> Client) : M unit := fun st => (Ok tt, f st).

Declare Scope js_scope.
Delimit Scope js_scope with js.
Notation "x <- m ;; k" := (bind m (fun x => k))
  (at level 61, m at next level, right associativity) : js_scope.
Notation "m ;; k" := (bind m (fun _ => k))
  (at level 61, right associativity) : js_scope.
Open Scope js_scope.

Definition set_jar (j : Jar.t) (st : Client) : Client :=
  mkClient j (_captchaGid st) (_mobileUserAgent st) (steamID st) (oAuthToken st)
           (_profileURL st) (timers st) (now st) (entropy st) (entropy_pos st) (log st).

Definition set_captchaGid (g : JsVal) (st : Client) : Client :=
  mkClient (_jar st) g (_mobileUserAgent st) (steamID st) (oAuthToken st)
           (_profileURL st) (timers st) (now st) (entropy st) (entropy_pos st) (log st).

Definition set_steamID (s : option string) (st : Client) : Client :=
  mkClient (_jar st) (_captchaGid st) (_mobileUserAgent st) s (oAuthToken st)
           (_profileURL st) (timers st) (now st) (entropy st) (entropy_pos st) (log st).

Definition set_oAuthToken (v : JsVal) (st : Client) : Client :=
  mkClient (_jar st) (_captchaGid st) (_mobileUserAgent st) (steamID st) v
           (_profileURL st) (timers st) (now st) (entropy st) (entropy_pos st) (log st).

Definition set_profileURL (p : option string) (st : Client) : Client :=
  mkClient (_jar st) (_captchaGid st) (_mobileUserAgent st) (steamID st) (oAuthToken st)
           p (timers st) (now st) (entropy st) (entropy_pos st) (log st).

Definition set_timers (l : list N) (st : Client) : Client :=
  mkClient (_jar st) (_captchaGid st) (_mobileUserAgent st) (steamID st) (oAuthToken st)
           (_profileURL st) l (now st) (entropy st) (entropy_pos st) (log st).

Definition set_now (n : N) (st : Client) : Client :=
  mkClient (_jar st) (_captchaGid st) (_mobileUserAgent st) (steamID st) (oAuthToken st)
           (_profileURL st) (timers st) n (entropy st) (entropy_pos st) (log st).

Definition set_entropy_pos (p : nat) (st : Client) : Client :=
  mkClient (_jar st) (_captchaGid st) (_mobileUserAgent st) (steamID st) (oAuthToken st)
           (_profileURL st) (timers st) (now st) (entropy st) p (log st).

Definition set_log (l : list Event) (st : Client) : Client :=
  mkClient (_jar st) (_captchaGid st) (_mobileUserAgent st) (steamID st) (oAuthToken st)
           (_profileURL st) (timers st) (now st) (entropy st) (entropy_pos st) l.

Definition emit_log (e : Event) : M unit :=
  modify (fun st => set_log (log st ++ [e]) st).

(** ** Timers and the passing of time

    The only timeout [index.js] sets is the one of [_myProfile], whose
    body is [delete this._profileURL]; a pending timeout is therefore
    its due time.  When time passes, the timeouts that have fallen due
    run. *)

Definition EXPIRY : N := 60000.

(** [setTimeout(() => { delete this._profileURL }, 60000).unref()] *)
Definition setTimeout_deleteProfileURL : M unit :=
  modify (fun st => set_timers (timers st ++ [(now st + EXPIRY)%N]) st).

Definition due (t : N) (d : N) : bool := N.leb d t.

Definition run_timers (st : Client) : Client :=
  if existsb (due (now st)) (timers st)
  then set_timers (filter (fun d => negb (due (now st) d)) (timers st))
                  (set_profileURL None st)
  else st.

(** The event loop is idle for [d] milliseconds. *)
Definition elapse (d : N) : M unit :=
  modify (fun st => run_timers (set_now (now st + d)%N st)).

(** ** Hexadecimal rendering of random bytes *)

Definition hex_digit (n : N) : ascii :=
  match n with
  | 0 => "0" | 1 => "1" | 2 => "2" | 3 => "3" | 4 => "4" | 5 => "5"
  | 6 => "6" | 7 => "7" | 8 => "8" | 9 => "9" | 10 => "a" | 11 => "b"
  | 12 => "c" | 13 => "d" | 14 => "e" | _ => "f"
  end%N%char.

(** [buffer.toString('hex')] *)
Fixpoint to_hex (bytes : list Byte.byte) : string :=
  match bytes with
  | [] => ""
  | b :: bs =>
      let n := Byte.to_N b in
      String (hex_digit (n / 16)) (String (hex_digit (n mod 16)) (to_hex bs))
  end.

Definition is_hex (c : ascii) : bool :=
  let n := nat_of_ascii c in
  (Nat.leb 48 n && Nat.leb n 57) || (Nat.leb 97 n && Nat.leb n 102).

Fixpoint all_chars (p : ascii -> bool) (s : string) : bool :=
  match s with
  | EmptyString => true
  | String c s' => p c && all_chars p s'
  end.

(** [crypto.randomBytes(n)]: the next [n] bytes of the entropy source. *)
Definition randomBytes (n : nat) : M (list Byte.byte) :=
  fun st =>
    (Ok (map (entropy st) (seq (entropy_pos st) n)),
     set_entropy_pos (entropy_pos st + n) st).

(** [generateSessionID] *)
Definition generateSessionID : M string :=
  bytes <- randomBytes 12 ;;
  ret (to_hex bytes).

(** ** The methods of the client *)

Section Methods.

(** What [index.js] takes from other packages. *)

(** [Request.cookie(str)]; [None] is [undefined], the result for a text
    that is no cookie. *)
Variable Request_cookie : string -> option Cookie.
Variable encodeURIComponent : string -> string.
(** [decodeURIComponent(str)] throws on a malformed escape. *)
Variable decodeURIComponent : string -> Res string.
(** [new SteamID(input)], by the 64-bit rendering of the identifier
    (what [toString()] returns); throws on an input it cannot read. *)
Variable SteamID_new : JsVal -> Res string.

Definition jar_setCookie (c : Cookie) (url : string) : M unit :=
  modify (fun st => set_jar (Jar.setCookie c url (_jar st)) st) ;;
  emit_log (EvJarSet c url).

Definition jar_getCookieString (url : string) : M string :=
  st <- get ;;
  ret (Jar.getCookieString (now st) url (_jar st)).

(** [SteamCommunity.prototype._setCookie] *)
Definition _setCookie (cookie : option Cookie) (secure : JsVal) : M unit :=
  let protocol := if truthy secure then "https" else "http" in
  match cookie with
  | None => throw TypeError
  | Some c0 =>
      let c := cookie_with_secure c0 (truthy secure) in
      jar_setCookie (clone c) (protocol ++ "://steamcommunity.com") ;;
      jar_setCookie (clone c) (protocol ++ "://store.steampowered.com") ;;
      jar_setCookie (clone c) (protocol ++ "://help.steampowered.com")
  end.

(** The flag [setCookies] passes to [_setCookie] for a cookie name. *)
Definition secure_name (cookieName : string) : bool :=
  Str.starts_with "steamMachineAuth" cookieName || Str.ends_with "Secure" cookieName.

Definition is_login_name (cookieName : string) : bool :=
  String.eqb cookieName "steamLogin" || String.eqb cookieName "steamLoginSecure".

(** The body of the [forEach] of [setCookies]. *)
Definition setCookies_each (cookie : string) : M unit :=
  match Str.match_name_eq cookie with
  | None => throw TypeError
  | Some cookieName =>
      (if is_login_name cookieName
       then match Str.match_eq_digits cookie with
            | None => throw TypeError
            | Some digits =>
                match SteamID_new (JsStr digits) with
                | Throw e => throw e
                | Ok sid => modify (set_steamID (Some sid))
                end
            end
       else ret tt) ;;
      _setCookie (Request_cookie cookie) (JsBool (secure_name cookieName))
  end.

Fixpoint forEach {A} (f : A -> M unit) (l : list A) : M unit :=
  match l with
  | [] => ret tt
  | x :: l' => f x ;; forEach f l'
  end.

(** [SteamCommunity.prototype.setCookies] *)
Definition setCookies (cookies : list string) : M unit :=
  forEach setCookies_each cookies.

(** The [for] loop of [getSessionID]: the value of the first [sessionid]
    cookie, decoded; it throws at a piece the expression does not match. *)
Fixpoint find_sessionid (cookies : list string) : Res (option string) :=
  match cookies with
  | [] => Ok None
  | c :: rest =>
      match Str.match_key_value (Str.trim c) with
      | None => Throw TypeError
      | Some (k, v) =>
          if String.eqb k "sessionid"
          then match decodeURIComponent v with
               | Ok s => Ok (Some s)
               | Throw e => Throw e
               end
          else find_sessionid rest
      end
  end.

(** [SteamCommunity.prototype.getSessionID] *)
Definition getSessionID (host : string) : M string :=
  str <- jar_getCookieString host ;;
  match find_sessionid (Str.split ";" str) with
  | Throw e => throw e
  | Ok (Some s) => ret s
  | Ok None =>
      sessionID <- generateSessionID ;;
      _setCookie (Request_cookie ("sessionid=" ++ sessionID)) JsUndefined ;;
      ret sessionID
  end.

Definition default_host : string := "http://steamcommunity.com".

(** The instance before the constructor's body runs. *)
Definition blank (t0 : N) (ent : nat -> Byte.byte) : Client :=
  mkClient [] JsUndefined JsUndefined None JsUndefined None [] t0 ent 0 [].

(** [function SteamCommunity(options)]: the fields the session core
    uses, and the two cookies it installs. *)
Definition SteamCommunity (mobileUserAgent : JsVal) : M unit :=
  modify (fun st =>
    mkClient [] (JsNum (-1)) mobileUserAgent (steamID st) (oAuthToken st)
             (_profileURL st) (timers st) (now st) (entropy st) (entropy_pos st) (log st)) ;;
  _setCookie (Request_cookie "Steam_Language=english") JsUndefined ;;
  _setCookie (Request_cookie "timezoneOffset=0,0") JsUndefined.

(** *** The HTTP layer *)

(** What the callback of a request receives: [(err, response, body)],
    after [delay] milliseconds. *)
Record HttpReply (B : Type) : Type := mkReply {
  delay : N;
  err : option JsError;
  statusCode : Z;                 (* [response.statusCode] *)
  location : option string;       (* [response.headers.location] *)
  body : B
}.
Arguments mkReply {B} _ _ _ _ _.
Arguments delay {B} _.
Arguments err {B} _.
Arguments statusCode {B} _.
Arguments location {B} _.
Arguments body {B} _.

(** Modelled from the spec: [httpRequest], [httpRequestGet] and
    [httpRequestPost] of [components/http.js], which is not part of the
    sources at hand.  The design document gives their contract as
    [issueRequest(options) -> (error, response, body)] over the shared
    jar: the request is issued, and its callback later receives the
    reply. *)
Definition httpRequest {B} (method uri : string) (form headers : list (string * JsVal))
    (reply : HttpReply B) : M (HttpReply B) :=
  emit_log (EvRequest method uri form headers) ;;
  elapse (delay reply) ;;
  ret reply.

Definition httpRequestPost {B} := @httpRequest B "POST".
Definition httpRequestGet {B} := @httpRequest B "GET".

(** Modelled from the spec: [_notifySessionExpired] of
    [components/http.js], which is not part of the sources at hand.  The
    design document: the component emits a session-expired event
    carrying that error, [on('sessionExpired', handler(err))]. *)
Definition _notifySessionExpired (e : JsError) : M unit :=
  emit_log (EvEmit "sessionExpired" e).

(** An invocation of the caller's callback. *)
Definition callback (args : list CbArg) : M unit :=
  emit_log (EvCallback args).

(** *** [login] *)

Record Details : Type := mkDetails {
  accountName : JsVal;
  password : JsVal;
  steamguard : JsVal;
  disableMobile : JsVal;
  mobileUserAgent : JsVal;
  captcha : JsVal;
  authCode : JsVal;
  twoFactorCode : JsVal
}.

(** The JSON body of [/login/getrsakey/]. *)
Record RsaBody : Type := mkRsaBody {
  publickey_mod : JsVal;
  publickey_exp : JsVal;
  timestamp : JsVal
}.

(** The JSON body of [/login/dologin/]. *)
Record LoginBody : Type := mkLoginBody {
  success : JsVal;
  emailauth_needed : JsVal;
  emaildomain : JsVal;
  requires_twofactor : JsVal;
  captcha_needed : JsVal;
  message : JsVal;
  captcha_gid : JsVal;
  oauth : JsVal
}.

(** [key.setPublic(mod, exp)] followed by
    [hex2b64(key.encrypt(password))], of the [node-bignumber] package. *)
Variable RSA_encrypt : JsVal -> JsVal -> JsVal -> Res JsVal.

(** [JSON.parse(body.oauth)] and the reading of the result's [steamid]
    and [oauth_token]; it throws when the text is no JSON or the result
    has no properties. *)
Variable JSON_parse_oauth : JsVal -> Res (JsVal * JsVal).

Definition MOBILE_USER_AGENT : string :=
  "Mozilla/5.0 (Linux; U; Android 4.1.1; en-us; Google Nexus 4 - 4.1.1 - API 16 - 768x1280 Build/JRO03S) AppleWebKit/534.30 (KHTML, like Gecko) Version/4.0 Mobile Safari/534.30".

Definition mobileHeaders (st : Client) (details : Details) : list (string * JsVal) :=
  if negb (truthy (disableMobile details))
  then [ ("X-Requested-With", JsStr "com.valvesoftware.android.steam.community");
         ("Referer", JsStr "https://steamcommunity.com/mobilelogin?oauth_client_id=DE45CD61&oauth_scope=read_profile%20write_profile%20read_client%20write_client");
         ("User-Agent", Js.or (_mobileUserAgent st)
                          (Js.or (mobileUserAgent details) (JsStr MOBILE_USER_AGENT)));
         ("Accept", JsStr "text/javascript, text/html, application/xml, text/xml, */*") ]
  else [ ("Referer", JsStr "https://steamcommunity.com/login") ].

(** [cookie.expires = new Date(0)] on the result of [Request.cookie]. *)
Definition expire_now (c : option Cookie) : M (option Cookie) :=
  match c with
  | None => throw TypeError
  | Some c0 => ret (Some (cookie_with_expires c0 (Some 0%N)))
  end.

Definition deleteMobileCookies : M unit :=
  cookie <- expire_now (Request_cookie "mobileClientVersion=") ;;
  _setCookie cookie JsUndefined ;;
  cookie <- expire_now (Request_cookie "mobileClient=") ;;
  _setCookie cookie JsUndefined.

(** The form of [/login/dologin/]. *)
Definition formObj (st : Client) (details : Details) (rsa : RsaBody) (encrypted : JsVal)
    : list (string * JsVal) :=
  let mobile := negb (truthy (disableMobile details)) in
  [ ("captcha_text", Js.or (captcha details) (JsStr ""));
    ("captchagid", _captchaGid st);
    ("emailauth", Js.or (authCode details) (JsStr ""));
    ("emailsteamid", JsStr "");
    ("password", encrypted);
    ("remember_login", JsStr "true");
    ("rsatimestamp", timestamp rsa);
    ("twofactorcode", Js.or (twoFactorCode details) (JsStr ""));
    ("username", accountName details);
    ("loginfriendlyname",
       JsStr (if mobile then "#login_emailauth_friendlyname_mobile" else ""));
    ("donotcache", JsNum (Z.of_N (now st))) ]
  ++ (if mobile
      then [ ("oauth_client_id", JsStr "DE45CD61");
             ("oauth_scope", JsStr "read_profile write_profile read_client write_client") ]
      else []).

(** The branch of the [if]/[else if] chain that a reply of
    [/login/dologin/] selects. *)
Inductive Outcome : Type :=
| EmailGuard
| MobileGuard
| Captcha
| Rejected
| Malformed
| Success.

(** [body.message.match(/Please verify your humanity/)]: a match object
    or [null] for a text, an exception for anything else. *)
Definition message_matches (m : JsVal) : Res bool :=
  match m with
  | JsStr s => Ok (Str.includes "Please verify your humanity" s)
  | _ => Throw TypeError
  end.

Definition classify (disableMobile : JsVal) (b : LoginBody) : Res Outcome :=
  let failed := negb (truthy (success b)) in
  if failed && truthy (emailauth_needed b) then Ok EmailGuard
  else if failed && truthy (requires_twofactor b) then Ok MobileGuard
  else
    match (if failed && truthy (captcha_needed b)
           then message_matches (message b) else Ok false) with
    | Throw e => Throw e
    | Ok true => Ok Captcha
    | Ok false =>
        if failed then Ok Rejected
        else if negb (truthy disableMobile) && negb (truthy (oauth b)) then Ok Malformed
        else Ok Success
    end.

Definition CAPTCHA_URL : string := "https://steamcommunity.com/login/rendercaptcha/?gid=".

(** Element [i] of an array of strings, converted to a string where it
    is used as one ([undefined] when out of range). *)
Definition at_str (parts : list string) (i : nat) : string :=
  match nth_error parts i with
  | Some p => p
  | None => "undefined"
  end.

(** The loop over the cookies that looks for [steamLogin] (web login). *)
Fixpoint find_steamLogin (cookies : list string) : M unit :=
  match cookies with
  | [] => ret tt
  | c :: rest =>
      let parts := Str.split "=" c in
      if String.eqb (at_str parts 0) "steamLogin"
      then match decodeURIComponent (at_str parts 1) with
           | Throw e => throw e
           | Ok v =>
               match SteamID_new (JsStr (at_str (Str.split "||" v) 0)) with
               | Throw e => throw e
               | Ok sid => modify (set_steamID (Some sid))
               end
           end
      else find_steamLogin rest
  end.

(** The loop that looks for the Steam Guard cookie of [this.steamID]. *)
Fixpoint find_steamguard (sid : option string) (cookies : list string) : Res JsVal :=
  match cookies with
  | [] => Ok JsNull
  | c :: rest =>
      let parts := Str.split "=" c in
      let id_text := match sid with Some s => s | None => "undefined" end in
      if String.eqb (at_str parts 0) ("steamMachineAuth" ++ id_text)
      then match sid with
           | None => Throw TypeError
           | Some s =>
               match decodeURIComponent (at_str parts 1) with
               | Throw e => Throw e
               | Ok v => Ok (JsStr (s ++ "||" ++ v))
               end
           end
      else find_steamguard sid rest
  end.

Definition lift {A} (r : Res A) : M A :=
  match r with
  | Ok a => ret a
  | Throw e => throw e
  end.

(** The last branch of the chain: the login went through. *)
Definition login_success (details : Details) (b : LoginBody) : M unit :=
  sessionID <- generateSessionID ;;
  _setCookie (Request_cookie ("sessionid=" ++ sessionID)) JsUndefined ;;
  str <- jar_getCookieString "https://steamcommunity.com" ;;
  let cookies := map Str.trim (Str.split ";" str) in
  token <-
    (if negb (truthy (disableMobile details))
     then
       oAuth <- lift (JSON_parse_oauth (oauth b)) ;;
       sid <- lift (SteamID_new (fst oAuth)) ;;
       modify (set_steamID (Some sid)) ;;
       modify (set_oAuthToken (snd oAuth)) ;;
       ret (snd oAuth)
     else
       find_steamLogin cookies ;;
       modify (set_oAuthToken JsNull) ;;
       ret JsNull) ;;
  st <- get ;;
  steamguard <- lift (find_steamguard (steamID st) cookies) ;;
  setCookies cookies ;;
  callback [ArgVal JsNull; ArgVal (JsStr sessionID); ArgList cookies;
            ArgVal steamguard; ArgVal token].

(** What the callback of [/login/dologin/] does once the transport did
    not fail. *)
Definition login_respond (details : Details) (b : LoginBody) : M unit :=
  outcome <- lift (classify (disableMobile details) b) ;;
  match outcome with
  | EmailGuard =>
      callback [ArgError (Err.mk "Error" "SteamGuard" (Some (emaildomain b)) None)]
  | MobileGuard =>
      callback [ArgError (Error "SteamGuardMobile")]
  | Captcha =>
      modify (set_captchaGid (captcha_gid b)) ;;
      callback [ArgError (Err.mk "Error" "CAPTCHA" None
                            (Some (CAPTCHA_URL ++ toString (captcha_gid b))))]
  | Rejected =>
      callback [ArgError (Error (toString (Js.or (message b) (JsStr "Unknown error"))))]
  | Malformed =>
      callback [ArgError (Error "Malformed response")]
  | Success => login_success details b
  end.

Definition MISSING_CREDENTIALS : string :=
  "Missing either accountName or password to login; both are needed".

Definition GETRSAKEY_URI : string := "https://steamcommunity.com/login/getrsakey/".
Definition DOLOGIN_URI : string := "https://steamcommunity.com/login/dologin/".

(** The callback of the request to [/login/dologin/]. *)
Definition login_on_dologin (details : Details) (r2 : HttpReply LoginBody) : M unit :=
  deleteMobileCookies ;;
  match err r2 with
  | Some e => callback [ArgError e]
  | None => login_respond details (body r2)
  end.

(** The callback of the request to [/login/getrsakey/]; [dologin] is the
    reply to the request it issues. *)
Definition login_on_rsakey (details : Details) (headers : list (string * JsVal))
    (dologin : HttpReply LoginBody) (r1 : HttpReply RsaBody) : M unit :=
  match err r1 with
  | Some e => deleteMobileCookies ;; callback [ArgError e]
  | None =>
      if negb (truthy (publickey_mod (body r1))) || negb (truthy (publickey_exp (body r1)))
      then deleteMobileCookies ;; callback [ArgError (Error "Invalid RSA key received")]
      else
        encrypted <- lift (RSA_encrypt (publickey_mod (body r1)) (publickey_exp (body r1))
                                       (password details)) ;;
        st1 <- get ;;
        r2 <- httpRequestPost DOLOGIN_URI
                (formObj st1 details (body r1) encrypted) headers dologin ;;
        login_on_dologin details r2
  end.

(** The part of [login] that runs before its first request: the check
    of the credentials, the Steam Guard cookie, the deletion of the
    cached profile URL, the choice of the headers and the cookies of the
    mobile client.  It returns the headers. *)
Definition login_begin (details : Details) : M (list (string * JsVal)) :=
  if negb (truthy (accountName details)) || negb (truthy (password details))
  then throw (Error MISSING_CREDENTIALS)
  else
    (if truthy (steamguard details)
     then match steamguard details with
          | JsStr s =>
              let parts := Str.split "||" s in
              _setCookie (Request_cookie ("steamMachineAuth" ++ at_str parts 0 ++ "="
                                          ++ encodeURIComponent (at_str parts 1)))
                         (JsBool true)
          | _ => throw TypeError
          end
     else ret tt) ;;
    (* Delete the cache *)
    modify (set_profileURL None) ;;
    st0 <- get ;;
    let headers := mobileHeaders st0 details in
    (if negb (truthy (disableMobile details))
     then _setCookie (Request_cookie "mobileClientVersion=0 (2.1.3)") JsUndefined ;;
          _setCookie (Request_cookie "mobileClient=android") JsUndefined
     else ret tt) ;;
    ret headers.

(** [SteamCommunity.prototype.login]; [rsa] and [dologin] are the replies
    to its two requests.  An exception of [login_begin] reaches the
    caller of [login]; a later one is raised inside a callback. *)
Definition login (details : Details) (rsa : HttpReply RsaBody)
    (dologin : HttpReply LoginBody) : M unit :=
  headers <- login_begin details ;;
  r1 <- httpRequestPost GETRSAKEY_URI [("username", accountName details)] headers rsa ;;
  login_on_rsakey details headers dologin r1.

(** *** [getClientLogonToken] *)

(** The JSON body of [/chat/clientjstoken]. *)
Record TokenBody : Type := mkTokenBody {
  logged_in : JsVal;
  steamid : JsVal;
  account_name : JsVal;
  token : JsVal
}.

(** [SteamCommunity.prototype.getClientLogonToken] *)
Definition getClientLogonToken (reply : HttpReply TokenBody) : M unit :=
  r <- httpRequestGet "https://steamcommunity.com/chat/clientjstoken" [] [] reply ;;
  match err r with
  | Some e => callback [ArgError e]
  | None =>
      if negb (Z.eqb (statusCode r) 200)
      then callback [ArgError (Error ("HTTP error " ++ toString (JsNum (statusCode r))))]
      else if negb (truthy (logged_in (body r)))
      then
        let e := Error "Not Logged In" in
        callback [ArgError e] ;;
        _notifySessionExpired e
      else if negb (truthy (steamid (body r))) || negb (truthy (account_name (body r)))
              || negb (truthy (token (body r)))
      then callback [ArgError (Error "Malformed response")]
      else
        sid <- lift (SteamID_new (steamid (body r))) ;;
        callback [ArgVal JsNull;
                  ArgObject [ ("steamID", JsStr sid);
                              ("accountName", account_name (body r));
                              ("webLogonToken", token (body r)) ]]
  end.

(** *** [_myProfile] *)

(** The first argument of [_myProfile]: a path, or an options object
    with a path under [endpoint] and possibly a [method]. *)
Inductive Endpoint : Type :=
| EndpointPath (path : string)
| EndpointOptions (endpoint : JsVal) (method : JsVal).

Definition MY_URI : string := "https://steamcommunity.com/my".

(** The truthiness of [this._profileURL]. *)
Definition cached_profileURL (st : Client) : option string :=
  match _profileURL st with
  | Some (String a p) => Some (String a p)
  | _ => None
  end.

(** [completeRequest(url)]: the request for the profile-scoped page; its
    reply goes to the callback of the caller of [_myProfile]. *)
Definition completeRequest (endpoint : Endpoint) (form : option (list (string * JsVal)))
    (url : string) : M unit :=
  let path :=
    match endpoint with
    | EndpointPath p => p
    | EndpointOptions e _ => if truthy e then toString e else "[object Object]"
    end in
  let uri := "https://steamcommunity.com" ++ url ++ "/" ++ path in
  let method :=
    match form with
    | Some _ => "POST"
    | None =>
        match endpoint with
        | EndpointOptions e m =>
            if truthy e && truthy m then toString m else "GET"
        | EndpointPath _ => "GET"
        end
    end in
  emit_log (EvRequest method uri (match form with Some f => f | None => [] end) []).

(** [SteamCommunity.prototype._myProfile]; [my] is the reply to the
    request for [/my], when one is issued. *)
Definition _myProfile (endpoint : Endpoint) (form : option (list (string * JsVal)))
    (my : HttpReply unit) : M unit :=
  st <- get ;;
  match cached_profileURL st with
  | Some url => completeRequest endpoint form url
  | None =>
      r <- httpRequest "GET" MY_URI [] [] my ;;
      match err r with
      | Some e => callback [ArgError e]
      | None =>
          if negb (Z.eqb (statusCode r) 302)
          then callback [ArgVal (JsStr ("HTTP error " ++ toString (JsNum (statusCode r))))]
          else
            match location r with
            | None => throw TypeError
            | Some loc =>
                match Str.match_profile loc with
                | None => callback [ArgError (Error "Can't get profile URL")]
                | Some url =>
                    modify (set_profileURL (Some url)) ;;
                    setTimeout_deleteProfileURL ;;
                    completeRequest endpoint form url
                end
            end
      end
  end.

End Methods.

Arguments mkReply {B} _ _ _ _ _.
Arguments delay {B} _.
Arguments err {B} _.
Arguments statusCode {B} _.
Arguments location {B} _.
Arguments body {B} _.

(** ** Instances of the external functions

    The methods above take the functions of other packages as
    parameters.  The instances below behave like them on the texts the
    examples use, so that the methods can be run. *)

Module Sample.

(** [Request.cookie] on a text [name=value]: the name is the text
    before the first [=], which must not be empty, the value the rest up
    to a [;]; both are trimmed. *)
Definition cookie (s : string) : option Cookie :=
  let k := Str.trim (Str.take_while (fun c => negb (Str.is_eq c)) s) in
  match Str.drop_while (fun c => negb (Str.is_eq c)) s, k with
  | String _ rest, String _ _ =>
      Some (mkCookie k
              (Str.trim (Str.take_while (fun c => negb (Ascii.eqb c ";"%char)) rest))
              false None)
  | _, _ => None
  end.

Definition is_unreserved (c : ascii) : bool :=
  let n := nat_of_ascii c in
  (Nat.leb 48 n && Nat.leb n 57) || (Nat.leb 65 n && Nat.leb n 90)
  || (Nat.leb 97 n && Nat.leb n 122)
  || existsb (Nat.eqb n) [45; 95; 46; 33; 126; 42; 39; 40; 41].

Definition upper_hex (n : N) : ascii :=
  match n with
  | 10 => "A" | 11 => "B" | 12 => "C" | 13 => "D" | 14 => "E" | 15 => "F"
  | _ => hex_digit n
  end%N%char.

Definition percent (n : N) : string :=
  String "%" (String (upper_hex (n / 16)) (String (upper_hex (n mod 16)) "")).

(** [encodeURIComponent] on code units below 256 (UTF-8, one or two
    bytes). *)
Fixpoint encodeURIComponent (s : string) : string :=
  match s with
  | EmptyString => ""
  | String c s' =>
      let n := N_of_ascii c in
      (if is_unreserved c then String c ""
       else if N.ltb n 128 then percent n
       else percent (192 + n / 64)%N ++ percent (128 + n mod 64)%N)
      ++ encodeURIComponent s'
  end.

Definition URIError : JsError := Err.mk "URIError" "URI malformed" None None.

Definition hex_value (c : ascii) : option N :=
  let n := N_of_ascii c in
  (if N.leb 48 n && N.leb n 57 then Some (n - 48)
   else if N.leb 65 n && N.leb n 70 then Some (n - 55)
   else if N.leb 97 n && N.leb n 102 then Some (n - 87)
   else None)%N.

(** [decodeURIComponent] on texts whose escapes are single bytes below
    128; any other escape is reported as malformed. *)
Fixpoint decodeURIComponent (s : string) : Res string :=
  match s with
  | EmptyString => Ok ""
  | String c s' =>
      match decodeURIComponent s' with
      | Throw e => Throw e
      | Ok rest =>
          if Ascii.eqb c "%"%char
          then match rest with
               | String h (String l rest') =>
                   match hex_value h, hex_value l with
                   | Some a, Some b =>
                       if N.ltb (16 * a + b) 128
                       then Ok (String (ascii_of_N (16 * a + b)%N) rest')
                       else Throw URIError
                   | _, _ => Throw URIError
                   end
               | _ => Throw URIError
               end
          else Ok (String c rest)
      end
  end.

(** [new SteamID(input)] on a text of decimal digits. *)
Definition SteamID_new (v : JsVal) : Res string :=
  match v with
  | JsStr (String a s) =>
      if all_chars Str.is_digit (String a s) then Ok (String a s)
      else Throw (Error "Unknown SteamID input format")
  | _ => Throw (Error "Unknown SteamID input format")
  end.

(** An encryption that returns a fixed ciphertext. *)
Definition RSA_encrypt (_ _ _ : JsVal) : Res JsVal := Ok (JsStr "Y2lwaGVydGV4dA==").

(** A parser that finds the identity 76561198000000000 and the token
    [c0ffee] in every text. *)
Definition JSON_parse_oauth (v : JsVal) : Res (JsVal * JsVal) :=
  match v with
  | JsStr _ => Ok (JsStr "76561198000000000", JsStr "c0ffee")
  | _ => Throw (Err.mk "SyntaxError" "Unexpected token" None None)
  end.

Definition zero_entropy (_ : nat) : Byte.byte := Byte.x00.

(** A fresh client at time 0. *)
Definition fresh : Client :=
  snd (SteamCommunity cookie JsUndefined (blank 0 zero_entropy)).

Definition login := login cookie encodeURIComponent decodeURIComponent SteamID_new
                          RSA_encrypt JSON_parse_oauth.
Definition setCookies := setCookies cookie SteamID_new.
Definition getSessionID := getSessionID cookie decodeURIComponent.

Definition reply {B} (b : B) : HttpReply B := mkReply 0 None 200 None b.

Definition rsa_ok : HttpReply RsaBody :=
  reply (mkRsaBody (JsStr "c0de") (JsStr "010001") (JsStr "1000")).

Definition creds : Details :=
  mkDetails (JsStr "user") (JsStr "hunter2") JsUndefined JsUndefined JsUndefined
            JsUndefined JsUndefined JsUndefined.

End Sample.

(** ** Vocabulary of the properties *)

(** The three collaborating domains. *)
Definition DOMAINS : list string :=
  ["steamcommunity.com"; "store.steampowered.com"; "help.steampowered.com"].

Definition scheme_of (c : Cookie) : string :=
  if secure c then "https" else "http".

(** The three writes that replicate [c]: a clone of it under each
    domain, under the scheme its secure flag selects. *)
Definition replicas (c : Cookie) : list (Cookie * string) :=
  map (fun d => (clone c, scheme_of c ++ "://" ++ d)) DOMAINS.

(** The writes to the jar that a log records, in order. *)
Fixpoint jar_writes (l : list Event) : list (Cookie * string) :=
  match l with
  | [] => []
  | EvJarSet c url :: l' => (c, url) :: jar_writes l'
  | _ :: l' => jar_writes l'
  end.

(** The requests that a log records, by method and URI, in order. *)
Fixpoint requests (l : list Event) : list (string * string) :=
  match l with
  | [] => []
  | EvRequest m u _ _ :: l' => (m, u) :: requests l'
  | _ :: l' => requests l'
  end.

(** The callback invocations that a log records. *)
Fixpoint callbacks (l : list Event) : list (list CbArg) :=
  match l with
  | [] => []
  | EvCallback args :: l' => args :: callbacks l'
  | _ :: l' => callbacks l'
  end.

(** The events emitted on the instance that a log records. *)
Fixpoint emitted (l : list Event) : list (string * JsError) :=
  match l with
  | [] => []
  | EvEmit ev e :: l' => (ev, e) :: emitted l'
  | _ :: l' => emitted l'
  end.

(** The writes of the log since [w0] replicate some cookies [cs]. *)
Definition replicated_since (w0 : list (Cookie * string)) (st : Client) : Prop :=
  exists cs, jar_writes (log st) = (w0 ++ flat_map replicas cs)%list.

(** A character of a cookie name: neither [=] nor a line terminator. *)
Definition name_char (c : ascii) : bool :=
  negb (Str.is_eq c) && negb (Str.is_lt c).

(** A character of a cookie value without a second [=]. *)
Definition value_char (c : ascii) : bool := negb (Str.is_eq c).

(** [s] does not begin with a digit. *)
Definition no_leading_digit (s : string) : bool :=
  match s with
  | String c _ => negb (Str.is_digit c)
  | EmptyString => true
  end.

(** A credential that is empty or missing. *)
Definition empty_or_missing (v : JsVal) : Prop :=
  v = JsUndefined \/ v = JsNull \/ v = JsStr "".

(** The forms of the requests to [/login/dologin/] that a log records. *)
Fixpoint dologin_forms (l : list Event) : list (list (string * JsVal)) :=
  match l with
  | [] => []
  | EvRequest m u f _ :: l' =>
      if String.eqb m "POST" && String.eqb u DOLOGIN_URI
      then f :: dologin_forms l' else dologin_forms l'
  | _ :: l' => dologin_forms l'
  end.


(** A character of a cookie name in a cookie string: not [=], not [;],
    not white space. *)
Definition token_char (c : ascii) : bool :=
  negb (Str.is_eq c) && negb (Ascii.eqb c ";"%char) && negb (Str.is_ws c).

(** A character of a cookie value in a cookie string: not [;], not white
    space. *)
Definition piece_char (c : ascii) : bool :=
  negb (Ascii.eqb c ";"%char) && negb (Str.is_ws c).

(** A character inside a cookie value: not [;], not a line terminator. *)
Definition inner_char (c : ascii) : bool :=
  negb (Ascii.eqb c ";"%char) && negb (Str.is_lt c).

(** A text that neither starts nor ends with white space. *)
Definition trimmed (s : string) : bool :=
  String.eqb (Str.trim_left s) s && String.eqb (Str.trim_right s) s.

(** A cookie that a cookie string shows as [name=value]: the name is not
    empty and holds no [=], no [;] and no white space; the value is not
    empty, holds no [;] and no line terminator, and neither starts nor
    ends with white space.  White space and [=] inside the value are
    allowed, as in [mobileClientVersion=0 (2.1.3)]. *)
Definition wf_cookie (c : Cookie) : bool :=
  Str.nonempty (key c) && all_chars token_char (key c)
  && Str.nonempty (value c) && all_chars inner_char (value c)
  && trimmed (value c).

(** The cookies that [getCookieString] lists for [host]. *)
Definition visible_cookies (host : string) (st : Client) : list Cookie :=
  map Jar.cookie (filter (Jar.visible (now st) host) (_jar st)).

(** The value of the first cookie named [sessionid]. *)
Fixpoint lookup_sessionid (l : list Cookie) : option string :=
  match l with
  | [] => None
  | c :: l' => if String.eqb (key c) "sessionid" then Some (value c)
               else lookup_sessionid l'
  end.

(** The identifier that [generateSessionID] produces on [st]. *)
Definition next_sessionID (st : Client) : string :=
  to_hex (map (entropy st) (seq (entropy_pos st) 12)).

(** What the loop of [getSessionID] makes of the cookie it looks for. *)
Definition decode_found (decodeURIComponent : string -> Res string)
    (found : option string) : Res (option string) :=
  match found with
  | None => Ok None
  | Some v =>
      match decodeURIComponent v with
      | Ok s => Ok (Some s)
      | Throw e => Throw e
      end
  end.

(** [m] keeps [I]: whatever [m] returns or throws, if [I] holds of the
    instance before, it holds after. *)
Definition preserves {A} (I : Client -> Prop) (m : M A) : Prop :=
  forall st, I st -> I (snd (m st)).

(** The cache of the profile URL is empty. *)
Definition uncached (st : Client) : Prop := _profileURL st = None.

(** The pending CAPTCHA id of the instance is [g]. *)
Definition gid_is (g : JsVal) (st : Client) : Prop := _captchaGid st = g.

(** The forms submitted so far are [f0]. *)
Definition forms_are (f0 : list (list (string * JsVal))) (st : Client) : Prop :=
  dologin_forms (log st) = f0.

(** The instance when the reply to the request for [/my] arrives. *)
Definition on_my_reply (my : HttpReply unit) (st : Client) : Client :=
  run_timers (set_now (now st + delay my)%N
                (set_log (log st ++ [EvRequest "GET" MY_URI [] []]) st)).

(** The timer due at [t] is pending as long as [t] has not come. *)
Definition pending_until (t : N) (st : Client) : Prop :=
  (now st < t)%N -> In t (timers st).

(** A request for the key that fails in transport. *)
Definition rsa_timeout : HttpReply RsaBody :=
  mkReply 0 (Some (Error "ETIMEDOUT")) 0 None
          (mkRsaBody JsUndefined JsUndefined JsUndefined).

(** A reply [{success: true}] without an OAuth payload. *)
Definition login_ok_body : LoginBody :=
  mkLoginBody (JsBool true) JsUndefined JsUndefined JsUndefined
              JsUndefined JsUndefined JsUndefined JsUndefined.

(** A resolution at time 0, a login at 30 s, a resolution at 40 s: the
    instance at 40 s, and one minute after the first resolution. *)
Definition stale_timer_scenario : Client :=
  let my := mkReply 0 None 302 (Some "https://steamcommunity.com/id/gabe/") tt in
  snd ((_myProfile (EndpointPath "edit") None my ;;
        elapse 30000 ;;
        Sample.login Sample.creds rsa_timeout (Sample.reply login_ok_body) ;;
        elapse 10000 ;;
        _myProfile (EndpointPath "edit") None my) Sample.fresh).


(** A text without [;]. *)
Definition no_semi (s : string) : bool :=
  all_chars (fun c => negb (Ascii.eqb c ";"%char)) s.

(** ** The other methods of [index.js] *)

(** [a === b] on scalars. *)
Definition strict_eq (a b : JsVal) : bool :=
  match a, b with
  | JsUndefined, JsUndefined => true
  | JsNull, JsNull => true
  | JsBool x, JsBool y => Bool.eqb x y
  | JsNum x, JsNum y => Z.eqb x y
  | JsStr x, JsStr y => String.eqb x y
  | _, _ => false
  end.

(** The quotation mark. *)
Definition quote : ascii := ascii_of_nat 34.

(** [s.replace(/Q/g, '')], where Q is the quotation mark. *)
Fixpoint remove_quotes (s : string) : string :=
  match s with
  | EmptyString => ""
  | String c s' => if Ascii.eqb c quote then remove_quotes s' else String c (remove_quotes s')
  end.

(** [[a-zA-Z0-9-_]] *)
Definition is_token_char (c : ascii) : bool :=
  let n := nat_of_ascii c in
  (Nat.leb 97 n && Nat.leb n 122) || (Nat.leb 65 n && Nat.leb n 90)
  || (Nat.leb 48 n && Nat.leb n 57) || Nat.eqb n 45 || Nat.eqb n 95.

(** *** The expression of [getTradeURL]

    [/https?:\/\/(www.)?steamcommunity.com\/tradeoffer\/new\/?\?partner=\d+(&|&amp;)token=([a-zA-Z0-9-_]+)/]

    No choice of the expression has a second way to succeed: an [s]
    after [http] cannot be the [:] that must follow when it is skipped; a
    [w] cannot be the [s] of [steamcommunity]; a [/] after [new] cannot
    be the [?]; a digit cannot be the [&]; and after [&] the text is
    either [token=] or [amp;token=].  Each step below therefore takes the
    greedy choice when it applies.  The two dots of [www.] and
    [steamcommunity.com] are not escaped: each matches any character but
    a line terminator. *)

(** The optional [s]. *)
Definition skip_s (s : string) : string :=
  match s with
  | String c s' => if Ascii.eqb c "s"%char then s' else s
  | EmptyString => s
  end.

(** One character that is no line terminator. *)
Definition skip_dot (s : string) : option string :=
  match s with
  | String c s' => if Str.is_lt c then None else Some s'
  | EmptyString => None
  end.

(** The optional [(www.)]. *)
Definition skip_www (s : string) : option string :=
  match Str.drop_prefix "www" s with
  | Some r => skip_dot r
  | None => Some s
  end.

(** The optional [/]. *)
Definition skip_slash (s : string) : string :=
  match s with
  | String c s' => if Str.is_slash c then s' else s
  | EmptyString => s
  end.

(** [(&|&amp;)token=] *)
Definition skip_amp_token (s : string) : option string :=
  match Str.drop_prefix "&token=" s with
  | Some r => Some r
  | None => Str.drop_prefix "&amp;token=" s
  end.

Definition bind_opt {A B} (o : option A) (k : A -> option B) : option B :=
  match o with
  | Some a => k a
  | None => None
  end.

(** The match anchored at the head of [s]: the text left after the
    match, and group 3. *)
Definition trade_at (s : string) : option (string * string) :=
  bind_opt (Str.drop_prefix "http" s) (fun s1 =>
  bind_opt (Str.drop_prefix "://" (skip_s s1)) (fun s2 =>
  bind_opt (skip_www s2) (fun s3 =>
  bind_opt (Str.drop_prefix "steamcommunity" s3) (fun s4 =>
  bind_opt (skip_dot s4) (fun s5 =>
  bind_opt (Str.drop_prefix "com/tradeoffer/new" s5) (fun s6 =>
  bind_opt (Str.drop_prefix "?partner=" (skip_slash s6)) (fun s7 =>
  match Str.take_while Str.is_digit s7 with
  | EmptyString => None
  | _ =>
      bind_opt (skip_amp_token (Str.drop_while Str.is_digit s7)) (fun s8 =>
      match Str.take_while is_token_char s8 with
      | EmptyString => None
      | tok => Some (Str.drop_while is_token_char s8, tok)
      end)
  end))))))).

(** The first [n] characters of [s]. *)
Fixpoint take (n : nat) (s : string) : string :=
  match n, s with
  | S k, String c s' => String c (take k s')
  | _, _ => ""
  end.

(** [body.match(...)]: group 0 and group 3 of the leftmost match. *)
Fixpoint match_trade_url (s : string) : option (string * string) :=
  match s with
  | EmptyString => None
  | String _ s' =>
      match trade_at s with
      | Some (rest, tok) => Some (take (String.length s - String.length rest) s, tok)
      | None => match_trade_url s'
      end
  end.

(** The arguments a callback of a request receives: the error, the
    status of the response when there is one, and the body. *)
Record CallbackArgs : Type := mkArgs {
  cb_err : option CbArg;
  cb_status : option Z;
  cb_body : JsVal
}.

(** The arguments from a reply. *)
Definition args_of (r : HttpReply JsVal) : CallbackArgs :=
  mkArgs (option_map ArgError (err r)) (Some (statusCode r)) (body r).

(** The arguments of [callback(e)]. *)
Definition args_err (e : CbArg) : CallbackArgs := mkArgs (Some e) None JsUndefined.

(** [SteamCommunity.prototype._myProfile] with the callback it is given:
    [handler] is the callback, [final] the reply to the request that
    completes the operation. *)
Definition _myProfile_with (endpoint : Endpoint) (form : option (list (string * JsVal)))
    (my : HttpReply unit) (final : HttpReply JsVal)
    (handler : CallbackArgs -> M unit) : M unit :=
  st <- get ;;
  match cached_profileURL st with
  | Some url =>
      completeRequest endpoint form url ;;
      elapse (delay final) ;;
      handler (args_of final)
  | None =>
      r <- httpRequest "GET" MY_URI [] [] my ;;
      match err r with
      | Some e => handler (args_err (ArgError e))
      | None =>
          if negb (Z.eqb (statusCode r) 302)
          then handler (args_err
                          (ArgVal (JsStr ("HTTP error " ++ toString (JsNum (statusCode r))))))
          else
            match location r with
            | None => throw TypeError
            | Some loc =>
                match Str.match_profile loc with
                | None => handler (args_err (ArgError (Error "Can't get profile URL")))
                | Some url =>
                    modify (set_profileURL (Some url)) ;;
                    setTimeout_deleteProfileURL ;;
                    completeRequest endpoint form url ;;
                    elapse (delay final) ;;
                    handler (args_of final)
                end
            end
      end
  end.


Section MoreMethods.

Variable Request_cookie : string -> option Cookie.
Variable encodeURIComponent : string -> string.
Variable decodeURIComponent : string -> Res string.
Variable SteamID_new : JsVal -> Res string.

(** [steamID.accountid] of the SteamID with the given 64-bit rendering
    (of the [steamid] package). *)
Variable SteamID_accountid : string -> JsVal.

(** [SteamCommunity.EResult.AccessDenied] and [.LimitExceeded], of
    [resources/EResult.js], which is not part of the sources at hand. *)
Variable AccessDenied : Z.
Variable LimitExceeded : Z.

(** [Helpers.eresultError], of [components/helpers.js], which is not
    part of the sources at hand: the argument of the callback for a
    result code. *)
Variable eresultError : JsVal -> CbArg.

(** [ToNumber(s) == 1] for a text [s]. *)
Variable text_is_one : string -> bool.

(** *** [oAuthLogin] *)

(** The JSON body of [GetWGToken]: [body.response], when it is truthy,
    with its [token] and [token_secure]. *)
Record WGBody : Type := mkWGBody {
  response : option (JsVal * JsVal)
}.

Definition WGTOKEN_URI : string :=
  "https://api.steampowered.com/IMobileAuthService/GetWGToken/v1/".

(** The callback of the request of [oAuthLogin]. *)
Definition oAuthLogin_on_reply (steamID64 : string) (parts : list string)
    (r : HttpReply WGBody) : M unit :=
  match err r with
  | Some e => callback [ArgError e]
  | None =>
      match response (body r) with
      | None => callback [ArgError (Error "Malformed response")]
      | Some (tok, tok_secure) =>
          if negb (truthy tok) || negb (truthy tok_secure)
          then callback [ArgError (Error "Malformed response")]
          else
            sessionID <- getSessionID Request_cookie decodeURIComponent default_host ;;
            let cookies :=
              [ "steamLogin=" ++ encodeURIComponent (steamID64 ++ "||" ++ toString tok);
                "steamLoginSecure="
                  ++ encodeURIComponent (steamID64 ++ "||" ++ toString tok_secure);
                "steamMachineAuth" ++ steamID64 ++ "=" ++ at_str parts 1;
                "sessionid=" ++ sessionID ] in
            setCookies Request_cookie SteamID_new cookies ;;
            sessionID' <- getSessionID Request_cookie decodeURIComponent default_host ;;
            callback [ArgVal JsNull; ArgVal (JsStr sessionID'); ArgList cookies]
      end
  end.

(** [SteamCommunity.prototype.oAuthLogin] *)
Definition oAuthLogin (steamguard token : JsVal) (reply : HttpReply WGBody) : M unit :=
  match steamguard with
  | JsStr s =>
      let parts := Str.split "||" s in
      steamID64 <- lift (SteamID_new (JsStr (at_str parts 0))) ;;
      r <- httpRequestPost WGTOKEN_URI [("access_token", token)] [] reply ;;
      oAuthLogin_on_reply steamID64 parts r
  | _ => throw TypeError
  end.

(** *** [parentalUnlock] *)

(** The JSON body of [/parental/ajaxunlock]; [None] is a body that is
    falsy. *)
Record UnlockBody : Type := mkUnlockBody {
  unlock_success : JsVal;     (* [body.success] *)
  eresult : JsVal
}.

Definition UNLOCK_URI : string := "https://steamcommunity.com/parental/ajaxunlock".

(** The callback of the request of [parentalUnlock]; [has_callback]
    tells whether the caller gave one. *)
Definition parentalUnlock_on_reply (has_callback : bool)
    (r : HttpReply (option UnlockBody)) : M unit :=
  if negb has_callback then ret tt
  else
    match err r with
    | Some e => callback [ArgError e]
    | None =>
        match body r with
        | None => callback [ArgVal (JsStr "Invalid response")]
        | Some b =>
            match unlock_success b with
            | JsBool ok =>
                if negb ok
                then
                  if strict_eq (eresult b) (JsNum AccessDenied)
                  then callback [ArgVal (JsStr "Incorrect PIN")]
                  else if strict_eq (eresult b) (JsNum LimitExceeded)
                  then callback [ArgVal (JsStr "Too many invalid PIN attempts")]
                  else callback [ArgVal (JsStr ("Error " ++ toString (eresult b)))]
                else callback []
            | _ => callback [ArgVal (JsStr "Invalid response")]
            end
        end
    end.

(** [SteamCommunity.prototype.parentalUnlock] *)
Definition parentalUnlock (pin : JsVal) (has_callback : bool)
    (reply : HttpReply (option UnlockBody)) : M unit :=
  sessionID <- getSessionID Request_cookie decodeURIComponent default_host ;;
  r <- httpRequestPost UNLOCK_URI [("pin", pin); ("sessionid", JsStr sessionID)] [] reply ;;
  parentalUnlock_on_reply has_callback r.

(** *** [getNotifications] *)

(** The JSON body of [/actions/GetNotificationCounts]: [None] is a body
    that is falsy or whose [notifications] is; otherwise the value of
    [body.notifications[i]] for each [i]. *)
Definition NotificationsBody : Type := option (nat -> JsVal).

Definition NOTIFICATIONS_URI : string :=
  "https://steamcommunity.com/actions/GetNotificationCounts".

Definition notification_fields : list (string * nat) :=
  [ ("trades", 1); ("gameTurns", 2); ("moderatorMessages", 3); ("comments", 4);
    ("items", 5); ("invites", 6);
    (* dunno about 7 *)
    ("gifts", 8); ("chat", 9); ("helpRequestReplies", 10); ("accountAlerts", 11) ].

(** [SteamCommunity.prototype.getNotifications] *)
Definition getNotifications (reply : HttpReply NotificationsBody) : M unit :=
  r <- httpRequestGet NOTIFICATIONS_URI [] [] reply ;;
  match err r with
  | Some e => callback [ArgError e]
  | None =>
      match body r with
      | None => callback [ArgError (Error "Malformed response")]
      | Some counts =>
          callback [ArgVal JsNull;
                    ArgObject (map (fun f => (fst f, Js.or (counts (snd f)) (JsNum 0)))
                                   notification_fields)]
      end
  end.

(** *** [loggedIn] *)

(** [SteamCommunity.prototype.loggedIn] *)
Definition loggedIn (reply : HttpReply unit) : M unit :=
  r <- httpRequestGet MY_URI [] [] reply ;;
  match err r with
  | Some e => callback [ArgError e]
  | None =>
      if negb (Z.eqb (statusCode r) 302) && negb (Z.eqb (statusCode r) 403)
      then callback [ArgError (Error ("HTTP error " ++ toString (JsNum (statusCode r))))]
      else if Z.eqb (statusCode r) 403
      then callback [ArgVal JsNull; ArgVal (JsBool true); ArgVal (JsBool true)]
      else
        match location r with
        | None => throw TypeError
        | Some loc =>
            callback [ArgVal JsNull;
                      ArgVal (JsBool (match Str.match_profile loc with
                                      | Some _ => true
                                      | None => false
                                      end));
                      ArgVal (JsBool false)]
        end
  end.

(** *** [getTradeURL] *)

(** The callback [getTradeURL] gives to [_myProfile]. *)
Definition getTradeURL_handler (a : CallbackArgs) : M unit :=
  match cb_err a with
  | Some e => callback [e]
  | None =>
      match cb_body a with
      | JsStr text =>
          match match_trade_url text with
          | Some (url, tok) =>
              callback [ArgVal JsNull; ArgVal (JsStr url); ArgVal (JsStr tok)]
          | None => callback [ArgError (Error "Malformed response")]
          end
      | _ => throw TypeError
      end
  end.

(** [SteamCommunity.prototype.getTradeURL] *)
Definition getTradeURL (my : HttpReply unit) (final : HttpReply JsVal) : M unit :=
  _myProfile_with (EndpointPath "tradeoffers/privacy") None my final getTradeURL_handler.

(** *** [changeTradeURL] *)

Definition TRADE_URL_PREFIX : string :=
  "https://steamcommunity.com/tradeoffer/new/?partner=".

(** The callback [changeTradeURL] gives to [_myProfile]. *)
Definition changeTradeURL_handler (has_callback : bool) (a : CallbackArgs) : M unit :=
  if negb has_callback then ret tt
  else
    match cb_body a with
    | JsStr text =>
        if Nat.ltb (String.length text) 3 || negb (Str.starts_with (String quote "") text)
        then callback [ArgError (Error "Malformed response")]
        else
          let newToken := remove_quotes text in
          st <- get ;;
          match steamID st with
          | None => throw TypeError
          | Some sid =>
              callback [ArgVal JsNull;
                        ArgVal (JsStr (TRADE_URL_PREFIX ++ toString (SteamID_accountid sid)
                                       ++ "&token=" ++ newToken));
                        ArgVal (JsStr newToken)]
          end
    | _ => callback [ArgError (Error "Malformed response")]
    end.

(** [SteamCommunity.prototype.changeTradeURL] *)
Definition changeTradeURL (has_callback : bool) (my : HttpReply unit)
    (final : HttpReply JsVal) : M unit :=
  sessionID <- getSessionID Request_cookie decodeURIComponent default_host ;;
  _myProfile_with (EndpointPath "tradeoffers/newtradeurl")
                  (Some [("sessionid", JsStr sessionID)]) my final
                  (changeTradeURL_handler has_callback).

(** *** [getFriendsList] *)

(** The JSON body of [/textfilter/ajaxgetfriendslist]: [success], and
    the [ulfriendid] and [efriendrelationship] of each element of
    [body.friendslist.friends] when both are truthy (an array); the two
    fields of an element are scalars. *)
Record FriendsBody : Type := mkFriendsBody {
  friends_success : JsVal;    (* [body.success] *)
  friends : option (list (JsVal * JsVal))
}.

Definition FRIENDS_URI : string :=
  "https://steamcommunity.com/textfilter/ajaxgetfriendslist".

(** [v != 1] *)
Definition differs_from_one (v : JsVal) : bool :=
  match v with
  | JsUndefined | JsNull => true
  | JsBool b => negb b
  | JsNum z => negb (Z.eqb z 1)
  | JsStr s => negb (text_is_one s)
  end.

(** [obj[k] = v] on an object given by its own properties: the value of
    an existing property is replaced, a new property is added. *)
Fixpoint obj_set (k : string) (v : JsVal) (obj : list (string * JsVal))
    : list (string * JsVal) :=
  match obj with
  | [] => [(k, v)]
  | (k', v') :: obj' =>
      if String.eqb k' k then (k, v) :: obj' else (k', v') :: obj_set k v obj'
  end.

(** [obj[k]] for an own property. *)
Fixpoint obj_get (k : string) (obj : list (string * JsVal)) : option JsVal :=
  match obj with
  | [] => None
  | (k', v) :: obj' => if String.eqb k' k then Some v else obj_get k obj'
  end.

(** The object [friends]: its own properties, and whether its prototype
    has been set to [null]; it starts as [{}], without own properties
    and with the prototype of every object literal. *)
Record FriendsObj : Type := mkFriendsObj {
  own_props : list (string * JsVal);
  null_proto : bool
}.

Definition has_own (k : string) (obj : FriendsObj) : bool :=
  match obj_get k (own_props obj) with
  | Some _ => true
  | None => false
  end.

(** [friends[friend.ulfriendid] = friend.efriendrelationship]: the key
    is the identifier as a text.  An own property of that name is
    replaced, and a new name becomes an own property; except that, while
    the object has its prototype and no own property [__proto__], an
    assignment to [__proto__] reaches the setter it inherits from
    [Object.prototype]: this sets the prototype to [null] when the value
    is [null], and does nothing for any other scalar.  Once the
    prototype is [null], [__proto__] is a name like any other. *)
Definition add_friend (obj : FriendsObj) (friend : JsVal * JsVal) : FriendsObj :=
  let k := toString (fst friend) in
  if String.eqb k "__proto__" && negb (null_proto obj) && negb (has_own k obj)
  then match snd friend with
       | JsNull => mkFriendsObj (own_props obj) true
       | _ => obj
       end
  else mkFriendsObj (obj_set k (snd friend) (own_props obj)) (null_proto obj).

(** [SteamCommunity.prototype.getFriendsList]; the object handed to the
    callback is recorded by its own properties. *)
Definition getFriendsList (reply : HttpReply FriendsBody) : M unit :=
  r <- httpRequestGet FRIENDS_URI [] [] reply ;;
  match err r with
  | Some e => callback [ArgError e]
  | None =>
      if differs_from_one (friends_success (body r))
      then callback [eresultError (friends_success (body r))]
      else
        match friends (body r) with
        | None => callback [ArgError (Error "Malformed response")]
        | Some l =>
            callback [ArgVal JsNull;
                      ArgObject (own_props (fold_left add_friend l (mkFriendsObj [] false)))]
        end
  end.

End MoreMethods.


(** Instances of the further external functions. *)
Module SampleMore.

(** [accountid]: the low 32 bits of the identifier. *)
Definition accountid (s : string) : JsVal :=
  match NilEmpty.uint_of_string s with
  | Some u => JsNum (Z.of_N (N.of_uint u) mod 4294967296)
  | None => JsUndefined
  end.

Definition AccessDenied : Z := 15.
Definition LimitExceeded : Z := 25.

Definition eresultError (v : JsVal) : CbArg :=
  match v with
  | JsNum 1 => ArgVal JsNull
  | _ => ArgError (Error ("Error " ++ toString v))
  end.

Definition text_is_one (s : string) : bool := String.eqb (Str.trim s) "1".

Definition oAuthLogin := oAuthLogin Sample.cookie Sample.encodeURIComponent
                                    Sample.decodeURIComponent Sample.SteamID_new.
Definition parentalUnlock := parentalUnlock Sample.cookie Sample.decodeURIComponent
                                            AccessDenied LimitExceeded.
Definition changeTradeURL := changeTradeURL Sample.cookie Sample.decodeURIComponent accountid.
Definition getFriendsList := getFriendsList eresultError text_is_one.

End SampleMore.

(** ** Vocabulary of the further properties *)

(** Every cached profile URL has a pending timer that falls due within
    60 seconds. *)
Definition cache_timed (st : Client) : Prop :=
  forall url, cached_profileURL st = Some url ->
  exists t, In t (timers st) /\ (now st < t <= now st + EXPIRY)%N.

(** Whether [login] goes on to submit the form, given the reply to the
    request for the key. *)
Definition key_usable (RSA_encrypt : JsVal -> JsVal -> JsVal -> Res JsVal)
    (details : Details) (rsa : HttpReply RsaBody) : bool :=
  match err rsa with
  | Some _ => false
  | None =>
      truthy (publickey_mod (body rsa)) && truthy (publickey_exp (body rsa))
      && match RSA_encrypt (publickey_mod (body rsa)) (publickey_exp (body rsa))
                           (password details) with
         | Ok _ => true
         | Throw _ => false
         end
  end.


(** The requests logged so far are [r0]. *)
Definition requests_are (r0 : list (string * string)) (st : Client) : Prop :=
  requests (log st) = r0.


(** The URI of [getClientLogonToken]. *)
Definition TOKEN_URI : string := "https://steamcommunity.com/chat/clientjstoken".


(** The callback invocations logged so far are [c0]. *)
Definition callbacks_are (c0 : list (list CbArg)) (st : Client) : Prop :=
  callbacks (log st) = c0.


(** The relationship of the last friend of the list whose identifier
    reads [k]. *)
Fixpoint last_relationship (k : string) (l : list (JsVal * JsVal)) : option JsVal :=
  match l with
  | [] => None
  | friend :: l' =>
      match last_relationship k l' with
      | Some v => Some v
      | None => if String.eqb (toString (fst friend)) k then Some (snd friend) else None
      end
  end.

(** The friends that follow the first one named [__proto__] whose
    relationship is [null]. *)
Fixpoint after_null_proto (l : list (JsVal * JsVal)) : option (list (JsVal * JsVal)) :=
  match l with
  | [] => None
  | friend :: l' =>
      if String.eqb (toString (fst friend)) "__proto__" && strict_eq (snd friend) JsNull
      then Some l'
      else after_null_proto l'
  end.


(** A page that shows a trade URL. *)
Definition privacy_page : HttpReply JsVal :=
  Sample.reply
    (JsStr "<input value=https://steamcommunity.com/tradeoffer/new/?partner=39734272&amp;token=aB3-x_9Z>").








(** [m] invokes no callback. *)
Definition silent {A} (m : M A) : Prop :=
  forall s, callbacks (log (snd (m s))) = callbacks (log s).

(** [m] invokes the callback once, with arguments that satisfy [P], when
    it finishes, and not at all when it throws. *)
Definition calls_back_once {A} (P : list CbArg -> Prop) (m : M A) : Prop :=
  forall s,
    match fst (m s) with
    | Ok _ => exists a, callbacks (log (snd (m s))) = (callbacks (log s) ++ [a])%list /\ P a
    | Throw _ => callbacks (log (snd (m s))) = callbacks (log s)
    end.

(** The two shapes of the arguments of the callback of [login]: an
    error alone; or [null], a session identifier of 24 hexadecimal
    digits, the cookies, the Steam Guard token and the OAuth token. *)
Definition login_args (a : list CbArg) : Prop :=
  (exists e, a = [ArgError e])
  \/ (exists sessionID cookies steamguard token,
        a = [ArgVal JsNull; ArgVal (JsStr sessionID); ArgList cookies;
             ArgVal steamguard; ArgVal token]
        /\ String.length sessionID = 24 /\ all_chars is_hex sessionID = true).


(** The slot of a jar entry: its domain and the name of its cookie. *)
Definition slot_of (e : Jar.Entry) : string * string :=
  (Jar.domain e, key (Jar.cookie e)).

(** The jar holds at most one cookie for each domain and name. *)
Definition one_per_slot (st : Client) : Prop := NoDup (map slot_of (_jar st)).

(** The names of the two cookies of the mobile client. *)
Definition is_mobile_name (k : string) : bool :=
  String.eqb k "mobileClientVersion" || String.eqb k "mobileClient".

(** The cookies that [getCookieString] lists for [url], those of the
    mobile client apart. *)
Definition other_cookies (url : string) (st : Client) : list Cookie :=
  map Jar.cookie
      (filter (fun e => Jar.visible (now st) url e
                        && negb (is_mobile_name (key (Jar.cookie e))))
              (_jar st)).


(** The paths [/id/<name>] and [/profiles/<name>], with a name that is
    not empty and holds no [/]. *)
Definition profile_path (url : string) : Prop :=
  exists seg,
    (url = "/id/" ++ seg \/ url = "/profiles/" ++ seg)
    /\ seg <> "" /\ all_chars (fun c => negb (Str.is_slash c)) seg = true.

(** A cached profile URL is such a path. *)
Definition cache_is_profile_path (st : Client) : Prop :=
  forall u, cached_profileURL st = Some u -> profile_path u.

(** A request for [/my], or for a page under such a path. *)
Definition profile_request (mu : string * string) : Prop :=
  snd mu = MY_URI
  \/ exists u path, profile_path u
                    /\ snd mu = "https://steamcommunity.com" ++ u ++ "/" ++ path.


(** * Properties *)

(** ** The primitives on examples *)

Example split_semicolon : Str.split ";" "a=1; b=2;" = ["a=1"; " b=2"; ""].
Proof. reflexivity. Qed.

Example split_empty : Str.split ";" "" = [""].
Proof. reflexivity. Qed.

Example split_bars : Str.split "||" "765||ab|c||" = ["765"; "ab|c"; ""].
Proof. reflexivity. Qed.

Example name_greedy : Str.match_name_eq "a=b=c" = Some "a=b".
Proof. reflexivity. Qed.

Example name_leading_eq : Str.match_name_eq "=abc" = None.
Proof. reflexivity. Qed.

Example key_value_ex :
  Str.match_key_value "sessionid=ab=cd" = Some ("sessionid", "ab=cd").
Proof. reflexivity. Qed.

Example key_value_empty_value : Str.match_key_value "foo=" = None.
Proof. reflexivity. Qed.

Example profile_ex :
  Str.match_profile "https://steamcommunity.com/id/gabe/" = Some "/id/gabe".
Proof. reflexivity. Qed.

Example toString_neg : Js.toString (JsNum (-1)) = "-1".
Proof. reflexivity. Qed.

Example fresh_cookies :
  Jar.getCookieString 0 default_host (_jar Sample.fresh)
  = "Steam_Language=english; timezoneOffset=0,0".
Proof. reflexivity. Qed.

(** ** Invariants of the instance along a method *)

Section Preserves.

Variable I : Client -> Prop.

Lemma preserves_ret {A} (a : A) : preserves I (ret a).
Proof. intros st H. exact H. Qed.

Lemma preserves_throw {A} (e : JsError) : preserves I (@throw A e).
Proof. intros st H. exact H. Qed.

Lemma preserves_get : preserves I get.
Proof. intros st H. exact H. Qed.

Lemma preserves_lift {A} (r : Res A) : preserves I (lift r).
Proof. destruct r; intros st H; exact H. Qed.

Lemma preserves_bind {A B} (m : M A) (k : A -> M B) :
  preserves I m -> (forall a, preserves I (k a)) -> preserves I (bind m k).
Proof.
  intros Hm Hk st H. unfold bind.
  specialize (Hm st H). destruct (m st) as [[a|e] st']; simpl in *.
  - apply Hk. exact Hm.
  - exact Hm.
Qed.

Lemma preserves_modify (f : Client -> Client) :
  (forall st, I st -> I (f st)) -> preserves I (modify f).
Proof. intros Hf st H. simpl. apply Hf. exact H. Qed.

Lemma preserves_forEach {A} (f : A -> M unit) (l : list A) :
  (forall a, preserves I (f a)) -> preserves I (forEach f l).
Proof.
  intros Hf. induction l as [|x l IH]; simpl.
  - apply preserves_ret.
  - apply preserves_bind; [apply Hf | intros _; exact IH].
Qed.

End Preserves.

Ltac pres_step :=
  match goal with
  | |- preserves _ (ret _) => apply preserves_ret
  | |- preserves _ (throw _) => apply preserves_throw
  | |- preserves _ get => apply preserves_get
  | |- preserves _ (lift _) => apply preserves_lift
  | |- preserves _ (bind _ _) => apply preserves_bind; [ | intro ]
  | |- preserves _ (forEach _ _) => apply preserves_forEach; intro
  | |- preserves _ (match ?x with _ => _ end) => destruct x
  | H : _ |- _ => solve [apply H | apply preserves_modify; apply H]
  end.

Ltac pres := repeat pres_step.

(** An invariant that every write of a cookie, every change of the
    identity, of the tokens and of the entropy position, every log entry
    that is no jar write, and the passing of time keep, is kept by every
    method of the session core, except that [_myProfile] may fill the
    profile cache. *)
Section Stable.

Variable Request_cookie : string -> option Cookie.
Variable encodeURIComponent : string -> string.
Variable decodeURIComponent : string -> Res string.
Variable SteamID_new : JsVal -> Res string.
Variable RSA_encrypt : JsVal -> JsVal -> JsVal -> Res JsVal.
Variable JSON_parse_oauth : JsVal -> Res (JsVal * JsVal).

Variable I : Client -> Prop.

Hypothesis I_setCookie : forall c v, preserves I (_setCookie c v).
Hypothesis I_steamID : forall s st, I st -> I (set_steamID s st).
Hypothesis I_captchaGid : forall g st, I st -> I (set_captchaGid g st).
Hypothesis I_oAuthToken : forall v st, I st -> I (set_oAuthToken v st).
Hypothesis I_randomBytes : forall n, preserves I (randomBytes n).
Hypothesis I_elapse : forall d, preserves I (elapse d).
Hypothesis I_request : forall m u f h, preserves I (emit_log (EvRequest m u f h)).
Hypothesis I_callback : forall args, preserves I (emit_log (EvCallback args)).
Hypothesis I_emit : forall ev e, preserves I (emit_log (EvEmit ev e)).
Hypothesis I_uncache : forall st, I st -> I (set_profileURL None st).

Lemma stable_generateSessionID : preserves I generateSessionID.
Proof. unfold generateSessionID. pres. Qed.

Lemma stable_setCookies_each (c : string) :
  preserves I (setCookies_each Request_cookie SteamID_new c).
Proof. unfold setCookies_each. pres. Qed.

Lemma stable_setCookies (l : list string) :
  preserves I (setCookies Request_cookie SteamID_new l).
Proof. unfold setCookies. pres. all: try apply stable_setCookies_each. Qed.

Lemma stable_getSessionID (host : string) :
  preserves I (getSessionID Request_cookie decodeURIComponent host).
Proof.
  unfold getSessionID, jar_getCookieString. pres.
  all: try apply stable_generateSessionID.
Qed.

Lemma stable_httpRequest {B} m u f h (r : HttpReply B) :
  preserves I (httpRequest m u f h r).
Proof. unfold httpRequest. pres. Qed.

Lemma stable_callback args : preserves I (callback args).
Proof. apply I_callback. Qed.

Lemma stable_deleteMobileCookies : preserves I (deleteMobileCookies Request_cookie).
Proof. unfold deleteMobileCookies, expire_now. pres. Qed.

Lemma stable_find_steamLogin (l : list string) :
  preserves I (find_steamLogin decodeURIComponent SteamID_new l).
Proof. induction l as [|c l IH]; simpl; pres. Qed.

Lemma stable_login_success d b :
  preserves I (login_success Request_cookie decodeURIComponent SteamID_new
                             JSON_parse_oauth d b).
Proof.
  unfold login_success, jar_getCookieString. pres;
    try first [ apply stable_generateSessionID | apply stable_find_steamLogin
          | apply stable_setCookies | apply stable_callback ].
Qed.

Lemma stable_login_respond d b :
  preserves I (login_respond Request_cookie decodeURIComponent SteamID_new
                             JSON_parse_oauth d b).
Proof.
  unfold login_respond. pres;
    try first [ apply stable_callback | apply stable_login_success ].
Qed.

Lemma stable_login_on_dologin d r2 :
  preserves I (login_on_dologin Request_cookie decodeURIComponent SteamID_new
                                JSON_parse_oauth d r2).
Proof.
  unfold login_on_dologin. pres;
    try first [ apply stable_callback | apply stable_login_respond
              | apply stable_deleteMobileCookies ].
Qed.

Lemma stable_login_on_rsakey d h r2 r1 :
  preserves I (login_on_rsakey Request_cookie decodeURIComponent SteamID_new
                               RSA_encrypt JSON_parse_oauth d h r2 r1).
Proof.
  unfold login_on_rsakey, httpRequestPost. pres;
    try first [ apply stable_callback | apply stable_login_on_dologin
              | apply stable_deleteMobileCookies | apply stable_httpRequest ].
Qed.

Lemma stable_login_begin d :
  preserves I (login_begin Request_cookie encodeURIComponent d).
Proof. unfold login_begin. pres. Qed.

Lemma stable_login d r1 r2 :
  preserves I (login Request_cookie encodeURIComponent decodeURIComponent SteamID_new
                     RSA_encrypt JSON_parse_oauth d r1 r2).
Proof.
  unfold login, httpRequestPost. pres;
    try first [ apply stable_login_begin | apply stable_login_on_rsakey
              | apply stable_httpRequest ].
Qed.

Lemma stable_getClientLogonToken r :
  preserves I (getClientLogonToken SteamID_new r).
Proof.
  unfold getClientLogonToken, httpRequestGet, _notifySessionExpired. pres;
    try first [ apply stable_callback | apply stable_httpRequest ].
Qed.

End Stable.

(** ** The cookie jar: replication over the three domains *)

Lemma jar_writes_app (l1 l2 : list Event) :
  jar_writes (l1 ++ l2)%list = (jar_writes l1 ++ jar_writes l2)%list.
Proof.
  induction l1 as [|e l1 IH]; simpl; [reflexivity|].
  destruct e; simpl; rewrite IH; reflexivity.
Qed.

Lemma requests_app (l1 l2 : list Event) :
  requests (l1 ++ l2)%list = (requests l1 ++ requests l2)%list.
Proof.
  induction l1 as [|e l1 IH]; simpl; [reflexivity|].
  destruct e; simpl; rewrite IH; reflexivity.
Qed.

Lemma callbacks_app (l1 l2 : list Event) :
  callbacks (l1 ++ l2)%list = (callbacks l1 ++ callbacks l2)%list.
Proof.
  induction l1 as [|e l1 IH]; simpl; [reflexivity|].
  destruct e; simpl; rewrite IH; reflexivity.
Qed.

Lemma emitted_app (l1 l2 : list Event) :
  emitted (l1 ++ l2)%list = (emitted l1 ++ emitted l2)%list.
Proof.
  induction l1 as [|e l1 IH]; simpl; [reflexivity|].
  destruct e; simpl; rewrite IH; reflexivity.
Qed.

Lemma put_in_same (e : Jar.Entry) (j : Jar.t) : In e (Jar.put e j).
Proof.
  induction j as [|x j IH]; simpl; [left; reflexivity|].
  destruct (Jar.same_slot _ _ x); simpl; auto.
Qed.

Lemma put_in_other (e x : Jar.Entry) (j : Jar.t) :
  In x j -> Jar.same_slot (Jar.domain e) (key (Jar.cookie e)) x = false ->
  In x (Jar.put e j).
Proof.
  intros Hin Hslot. induction j as [|y j IH]; simpl in *; [contradiction|].
  destruct Hin as [->|Hin].
  - rewrite Hslot. left; reflexivity.
  - destruct (Jar.same_slot _ _ y); simpl; auto.
Qed.

(** What one call of [_setCookie] does. *)
Lemma _setCookie_run (c : Cookie) (v : JsVal) (st : Client) :
  let c' := cookie_with_secure c (truthy v) in
  exists st',
    _setCookie (Some c) v st = (Ok tt, st')
    /\ log st' = (log st ++ map (fun cu => EvJarSet (fst cu) (snd cu)) (replicas c'))%list
    /\ (forall d, In d DOMAINS -> In (Jar.mkEntry d (clone c')) (_jar st'))
    /\ _captchaGid st' = _captchaGid st /\ steamID st' = steamID st
    /\ _profileURL st' = _profileURL st /\ timers st' = timers st
    /\ now st' = now st /\ entropy_pos st' = entropy_pos st
    /\ entropy st' = entropy st /\ oAuthToken st' = oAuthToken st.
Proof.
  intros c'. eexists. split; [reflexivity|].
  unfold replicas, scheme_of, clone, DOMAINS. simpl.
  split.
  - rewrite <- !app_assoc. simpl. destruct (truthy v); reflexivity.
  - split; [|repeat split].
    intros d Hd. simpl in Hd.
    unfold Jar.setCookie.
    destruct (truthy v); cbn [Jar.url_host];
      destruct Hd as [<-|[<-|[<-|[]]]];
      repeat first [ apply put_in_same | apply put_in_other; [|reflexivity] ].
Qed.

Lemma jar_writes_replicas (c : Cookie) :
  jar_writes (map (fun cu => EvJarSet (fst cu) (snd cu)) (replicas c)) = replicas c.
Proof. reflexivity. Qed.

Lemma log_run_timers (st : Client) : log (run_timers st) = log st.
Proof. unfold run_timers. destruct (existsb _ _); reflexivity. Qed.

Section Replication.

Variable w0 : list (Cookie * string).

Lemma replicated_setCookie (c : option Cookie) (v : JsVal) :
  preserves (replicated_since w0) (_setCookie c v).
Proof.
  intros st [cs Hcs]. destruct c as [c|]; [|exists cs; exact Hcs].
  destruct (_setCookie_run c v st) as (st' & Hrun & Hlog & _).
  rewrite Hrun. simpl. exists (cs ++ [cookie_with_secure c (truthy v)])%list.
  rewrite Hlog, jar_writes_app, jar_writes_replicas, Hcs, flat_map_app.
  cbn [flat_map]. rewrite app_nil_r, app_assoc. reflexivity.
Qed.

Lemma replicated_other_event (e : Event) :
  jar_writes [e] = [] -> preserves (replicated_since w0) (emit_log e).
Proof.
  intros He st [cs Hcs]. exists cs. simpl.
  rewrite jar_writes_app, He, app_nil_r. exact Hcs.
Qed.



End Replication.


Lemma replicated_start (st : Client) : replicated_since (jar_writes (log st)) st.
Proof. exists []. simpl. rewrite app_nil_r. reflexivity. Qed.


(** ** Strings *)

Lemma append_assoc (a b c : string) : (a ++ b) ++ c = a ++ (b ++ c).
Proof. induction a as [|x a IH]; simpl; [reflexivity | rewrite IH; reflexivity]. Qed.

Lemma append_nil_r (a : string) : a ++ "" = a.
Proof. induction a as [|x a IH]; simpl; [reflexivity | rewrite IH; reflexivity]. Qed.

Lemma starts_with_iff (p s : string) :
  Str.starts_with p s = true <-> exists r, s = p ++ r.
Proof.
  revert s. induction p as [|a p IH]; intros s; simpl.
  - split; [intros _; exists s; reflexivity | reflexivity].
  - destruct s as [|b s].
    + split; [discriminate | intros [r Hr]; discriminate].
    + rewrite andb_true_iff, Ascii.eqb_eq, IH. split.
      * intros [-> [r ->]]. exists r. reflexivity.
      * intros [r Hr]. injection Hr as -> ->. split; [reflexivity | exists r; reflexivity].
Qed.

Lemma rev_acc_app (s acc : string) : Str.rev_acc s acc = Str.rev s ++ acc.
Proof.
  unfold Str.rev. revert acc. induction s as [|c s IH]; intros acc; simpl.
  - reflexivity.
  - rewrite IH, (IH (String c "")), append_assoc. reflexivity.
Qed.

Lemma rev_cons (c : ascii) (s : string) : Str.rev (String c s) = Str.rev s ++ String c "".
Proof. unfold Str.rev at 1. simpl. apply rev_acc_app. Qed.

Lemma rev_append (a b : string) : Str.rev (a ++ b) = Str.rev b ++ Str.rev a.
Proof.
  induction a as [|c a IH]; simpl.
  - rewrite append_nil_r. reflexivity.
  - rewrite !rev_cons, IH, append_assoc. reflexivity.
Qed.

Lemma rev_involutive (s : string) : Str.rev (Str.rev s) = s.
Proof.
  induction s as [|c s IH]; [reflexivity|].
  rewrite rev_cons, rev_append, IH. reflexivity.
Qed.

Lemma ends_with_iff (p s : string) :
  Str.ends_with p s = true <-> exists q, s = q ++ p.
Proof.
  unfold Str.ends_with. rewrite starts_with_iff. split.
  - intros [r Hr]. exists (Str.rev r).
    rewrite <- (rev_involutive s), Hr, rev_append, rev_involutive. reflexivity.
  - intros [q ->]. exists (Str.rev q). apply rev_append.
Qed.

Lemma upto_last_eq_none (v : string) :
  all_chars value_char v = true -> Str.upto_last_eq v = None.
Proof.
  induction v as [|c v IH]; simpl; [reflexivity|].
  rewrite andb_true_iff. intros [Hc Hv]. rewrite (IH Hv).
  unfold value_char in Hc. destruct (Str.is_lt c); [reflexivity|].
  destruct (Str.is_eq c); [discriminate | reflexivity].
Qed.

Lemma upto_last_eq_name (n v : string) :
  all_chars name_char n = true -> all_chars value_char v = true ->
  Str.upto_last_eq (n ++ "=" ++ v) = Some n.
Proof.
  intros Hn Hv. induction n as [|c n IH]; simpl in *.
  - rewrite (upto_last_eq_none v Hv). reflexivity.
  - apply andb_true_iff in Hn as [Hc Hn]. rewrite (IH Hn).
    unfold name_char in Hc. apply andb_true_iff in Hc as [_ Hc].
    destruct (Str.is_lt c); [discriminate | reflexivity].
Qed.

(** The name that [setCookies] reads off a text [name=value]. *)
Lemma match_name_eq_plain (n v : string) :
  n <> "" -> all_chars name_char n = true -> all_chars value_char v = true ->
  Str.match_name_eq (n ++ "=" ++ v) = Some n.
Proof.
  intros Hne Hn Hv. destruct n as [|c n]; [contradiction|].
  unfold Str.match_name_eq.
  pose proof (upto_last_eq_name (String c n) v Hn Hv) as Hu.
  simpl in Hn. apply andb_true_iff in Hn as [Hc _].
  unfold name_char in Hc. apply andb_true_iff in Hc as [_ Hc].
  cbn [append Str.name_eq_go]. cbn [append] in Hu.
  destruct (Str.is_lt c); [discriminate|]. rewrite Hu. reflexivity.
Qed.

Lemma match_eq_digits_none (s : string) :
  all_chars value_char s = true -> Str.match_eq_digits s = None.
Proof.
  induction s as [|c s IH]; simpl; [reflexivity|].
  rewrite andb_true_iff. intros [Hc Hs]. unfold value_char in Hc.
  destruct (Str.is_eq c); [discriminate | exact (IH Hs)].
Qed.

Lemma name_char_value_char (n : string) :
  all_chars name_char n = true -> all_chars value_char n = true.
Proof.
  induction n as [|c n IH]; simpl; [reflexivity|].
  rewrite !andb_true_iff. intros [Hc Hn]. split; [|exact (IH Hn)].
  unfold name_char in Hc. apply andb_true_iff in Hc as [Hc _]. exact Hc.
Qed.

(** The digits that [setCookies] reads off a text [name=value]. *)
Lemma match_eq_digits_plain (n v : string) :
  all_chars name_char n = true -> all_chars value_char v = true ->
  Str.match_eq_digits (n ++ "=" ++ v) =
    match Str.take_while Str.is_digit v with
    | EmptyString => None
    | d => Some d
    end.
Proof.
  intros Hn Hv. apply name_char_value_char in Hn.
  induction n as [|c n IH]; simpl in *.
  - rewrite (match_eq_digits_none v Hv). reflexivity.
  - apply andb_true_iff in Hn as [Hc Hn]. unfold value_char in Hc.
    destruct (Str.is_eq c); [discriminate | exact (IH Hn)].
Qed.

Lemma take_while_digits (d w : string) :
  all_chars Str.is_digit d = true -> no_leading_digit w = true ->
  Str.take_while Str.is_digit (d ++ w) = d.
Proof.
  intros Hd Hw. induction d as [|c d IH]; simpl in *.
  - destruct w as [|x w]; [reflexivity|]. simpl in *.
    destruct (Str.is_digit x); [discriminate | reflexivity].
  - apply andb_true_iff in Hd as [Hc Hd]. rewrite Hc, (IH Hd). reflexivity.
Qed.

(** ** [setCookies]: identity and secure flag *)

Lemma secure_name_iff (n : string) :
  secure_name n = true <->
  (exists r, n = "steamMachineAuth" ++ r) \/ (exists q, n = q ++ "Secure").
Proof.
  unfold secure_name. rewrite orb_true_iff, starts_with_iff, ends_with_iff.
  reflexivity.
Qed.

Lemma is_login_name_iff (n : string) :
  is_login_name n = true <-> n = "steamLogin" \/ n = "steamLoginSecure".
Proof.
  unfold is_login_name. rewrite orb_true_iff, !String.eqb_eq. reflexivity.
Qed.

Lemma _setCookie_writes (c : Cookie) (v : JsVal) (st : Client) :
  fst (_setCookie (Some c) v st) = Ok tt
  /\ steamID (snd (_setCookie (Some c) v st)) = steamID st
  /\ jar_writes (log (snd (_setCookie (Some c) v st)))
     = (jar_writes (log st) ++ replicas (cookie_with_secure c (truthy v)))%list.
Proof.
  destruct (_setCookie_run c v st) as (st' & Hrun & Hlog & _ & _ & Hsid & _).
  rewrite Hrun. simpl. split; [reflexivity|]. split; [exact Hsid|].
  rewrite Hlog, jar_writes_app, jar_writes_replicas. reflexivity.
Qed.

(** C3, as amended.  For a cookie text [name=value] with a single [=]
    (the name not empty and on one line): the cookie is written with the
    secure flag exactly when the name starts with [steamMachineAuth] or
    ends with [Secure]; when the name is neither [steamLogin] nor
    [steamLoginSecure] the identity is left as it was; when it is one of
    them and the value begins with digits (as a value [digits||token]
    does), the identity is set from these digits; and when it is one of
    them and the value does not begin with a digit, [setCookies] throws
    before changing the identity or writing the cookie. *)
Theorem setCookies_identity_and_secure_flag
    (Request_cookie : string -> option Cookie) (SteamID_new : JsVal -> Res string)
    (n v : string) (ck : Cookie) (st : Client) :
  n <> "" -> all_chars name_char n = true -> all_chars value_char v = true ->
  Request_cookie (n ++ "=" ++ v) = Some ck ->
  let run := setCookies_each Request_cookie SteamID_new (n ++ "=" ++ v) st in
  let written := cookie_with_secure ck (secure_name n) in
  (secure written = true <->
     (exists r, n = "steamMachineAuth" ++ r) \/ (exists q, n = q ++ "Secure"))
  /\ (n <> "steamLogin" /\ n <> "steamLoginSecure" ->
      fst run = Ok tt /\ steamID (snd run) = steamID st
      /\ jar_writes (log (snd run)) = (jar_writes (log st) ++ replicas written)%list)
  /\ (n = "steamLogin" \/ n = "steamLoginSecure" ->
      forall d w sid,
        v = d ++ w -> d <> "" -> all_chars Str.is_digit d = true ->
        no_leading_digit w = true -> SteamID_new (JsStr d) = Ok sid ->
        fst run = Ok tt /\ steamID (snd run) = Some sid
        /\ jar_writes (log (snd run)) = (jar_writes (log st) ++ replicas written)%list)
  /\ (n = "steamLogin" \/ n = "steamLoginSecure" ->
      no_leading_digit v = true -> run = (Throw TypeError, st)).
Proof.
  intros Hne Hn Hv Hck run written. subst run written.
  unfold setCookies_each.
  rewrite (match_name_eq_plain n v Hne Hn Hv), (match_eq_digits_plain n v Hn Hv), Hck.
  split; [simpl; apply secure_name_iff|].
  split; [|split].
  - intros [H1 H2].
    assert (Hl : is_login_name n = false).
    { destruct (is_login_name n) eqn:E; [|reflexivity].
      apply is_login_name_iff in E. destruct E; contradiction. }
    rewrite Hl. unfold bind, ret.
    apply (_setCookie_writes ck (JsBool (secure_name n)) st).
  - intros Hlogin d w sid -> Hd Hdig Hw Hsid.
    apply is_login_name_iff in Hlogin. rewrite Hlogin.
    rewrite (take_while_digits d w Hdig Hw).
    destruct d as [|a d]; [contradiction|]. rewrite Hsid.
    unfold bind, modify.
    destruct (_setCookie_writes ck (JsBool (secure_name n)) (set_steamID (Some sid) st))
      as (H1 & H2 & H3).
    split; [exact H1|]. split; [rewrite H2; reflexivity | exact H3].
  - intros Hlogin Hv0. apply is_login_name_iff in Hlogin. rewrite Hlogin.
    destruct v as [|c v]; simpl in *; [reflexivity|].
    destruct (Str.is_digit c); [discriminate | reflexivity].
Qed.

(** The secure login cookie [steamLoginSecure=76561198000000000||C0FFEE]
    sets the identity 76561198000000000. *)
Lemma setCookies_identity_witness :
  steamID (snd (setCookies_each Sample.cookie Sample.SteamID_new
                  "steamLoginSecure=76561198000000000||C0FFEE" Sample.fresh))
  = Some "76561198000000000".
Proof.
  refine (proj1 (proj2 (proj1 (proj2 (proj2
    (setCookies_identity_and_secure_flag Sample.cookie Sample.SteamID_new
       "steamLoginSecure" "76561198000000000||C0FFEE"
       (mkCookie "steamLoginSecure" "76561198000000000||C0FFEE" false None)
       Sample.fresh _ _ _ _)))
    _ "76561198000000000" "||C0FFEE" "76561198000000000" _ _ _ _ _))).
  - discriminate.
  - reflexivity.
  - reflexivity.
  - reflexivity.
  - right; reflexivity.
  - reflexivity.
  - discriminate.
  - reflexivity.
  - reflexivity.
  - reflexivity.
Defined.

(** C3, as stated, fails on [steamLogin=abc]: the name is exactly
    [steamLogin], yet [setCookies] throws, the identity is not set and
    the cookie is written neither as secure nor as non-secure. *)
Lemma setCookies_login_name_without_digits :
  let run := Sample.setCookies ["steamLogin=abc"] Sample.fresh in
  Str.match_name_eq "steamLogin=abc" = Some "steamLogin"
  /\ fst run = Throw TypeError
  /\ steamID (snd run) = None
  /\ jar_writes (log (snd run)) = jar_writes (log Sample.fresh).
Proof. repeat split. Qed.

(** ** [login]: the credentials *)

Lemma empty_or_missing_falsy (v : JsVal) : empty_or_missing v -> truthy v = false.
Proof. intros [->|[->| ->]]; reflexivity. Qed.

(** C4.  When [accountName] or [password] is empty or missing, [login]
    throws the error that says both are needed, before any request is
    issued and without calling back: the instance is left as it was. *)
Theorem login_missing_credentials
    Request_cookie encodeURIComponent decodeURIComponent SteamID_new
    RSA_encrypt JSON_parse_oauth
    (details : Details) (rsa : HttpReply RsaBody) (dologin : HttpReply LoginBody)
    (st : Client) :
  empty_or_missing (accountName details) \/ empty_or_missing (password details) ->
  let run := login Request_cookie encodeURIComponent decodeURIComponent SteamID_new
                   RSA_encrypt JSON_parse_oauth details rsa dologin st in
  run = (Throw (Error "Missing either accountName or password to login; both are needed"), st)
  /\ requests (log (snd run)) = requests (log st)
  /\ callbacks (log (snd run)) = callbacks (log st).
Proof.
  intros H run.
  assert (Hrun : run = (Throw (Error MISSING_CREDENTIALS), st)).
  { subst run. unfold login, login_begin, bind.
    destruct H as [H|H]; apply empty_or_missing_falsy in H; rewrite H; simpl.
    - reflexivity.
    - rewrite orb_true_r. reflexivity. }
  rewrite Hrun. repeat split.
Qed.

(** A login without a password, on a fresh client. *)
Lemma login_missing_credentials_witness :
  fst (Sample.login
         (mkDetails (JsStr "user") (JsStr "") JsUndefined JsUndefined JsUndefined
                    JsUndefined JsUndefined JsUndefined)
         Sample.rsa_ok
         (Sample.reply (mkLoginBody (JsBool true) JsUndefined JsUndefined JsUndefined
                                    JsUndefined JsUndefined JsUndefined JsUndefined))
         Sample.fresh)
  = Throw (Error "Missing either accountName or password to login; both are needed").
Proof.
  refine (f_equal fst (proj1
    (login_missing_credentials Sample.cookie Sample.encodeURIComponent
       Sample.decodeURIComponent Sample.SteamID_new Sample.RSA_encrypt
       Sample.JSON_parse_oauth _ _ _ Sample.fresh _))).
  right. right. right. reflexivity.
Defined.

(** ** [getClientLogonToken]: the expired session *)

(** C8.  On a reply with status 200 whose body is flagged not logged in,
    [getClientLogonToken] calls back once, with the error
    [Not Logged In], and emits one [sessionExpired] event that carries
    the same error. *)
Theorem getClientLogonToken_not_logged_in
    (SteamID_new : JsVal -> Res string) (r : HttpReply TokenBody) (st : Client) :
  err r = None -> statusCode r = 200%Z -> truthy (logged_in (body r)) = false ->
  let run := getClientLogonToken SteamID_new r st in
  exists e : JsError,
    Err.message e = "Not Logged In"
    /\ fst run = Ok tt
    /\ callbacks (log (snd run)) = (callbacks (log st) ++ [[ArgError e]])%list
    /\ emitted (log (snd run)) = (emitted (log st) ++ [("sessionExpired", e)])%list.
Proof.
  intros Herr Hstatus Hflag run. exists (Error "Not Logged In").
  subst run. unfold getClientLogonToken, httpRequestGet, httpRequest, bind.
  simpl. rewrite Herr, Hstatus, Hflag. simpl.
  rewrite !log_run_timers. simpl.
  rewrite !callbacks_app, !emitted_app. simpl.
  rewrite !app_nil_r. repeat split.
Qed.

(** A reply [{logged_in: false}] with status 200, on a fresh client. *)
Lemma getClientLogonToken_not_logged_in_witness :
  exists e : JsError,
    Err.message e = "Not Logged In"
    /\ emitted (log (snd (getClientLogonToken Sample.SteamID_new
                            (Sample.reply (mkTokenBody (JsBool false) JsUndefined
                                                       JsUndefined JsUndefined))
                            Sample.fresh)))
       = [("sessionExpired", e)].
Proof.
  destruct (getClientLogonToken_not_logged_in Sample.SteamID_new
              (Sample.reply (mkTokenBody (JsBool false) JsUndefined JsUndefined JsUndefined))
              Sample.fresh eq_refl eq_refl eq_refl) as (e & Hm & _ & _ & He).
  exists e. split; [exact Hm | exact He].
Defined.

(** ** What the steps of a method leave alone *)

Lemma run_timers_captchaGid (st : Client) : _captchaGid (run_timers st) = _captchaGid st.
Proof. unfold run_timers. destruct (existsb _ _); reflexivity. Qed.

Lemma run_timers_uncached (st : Client) :
  _profileURL st = None -> _profileURL (run_timers st) = None.
Proof. unfold run_timers. destruct (existsb _ _); intros H; [reflexivity | exact H]. Qed.

Lemma httpRequest_run {B} (m u : string) (f h : list (string * JsVal))
    (r : HttpReply B) (st : Client) :
  httpRequest m u f h r st
  = (Ok r, run_timers (set_now (now st + delay r)%N
                         (set_log (log st ++ [EvRequest m u f h]) st))).
Proof. reflexivity. Qed.

(** A property of the fields that [_setCookie] and the log entries do
    not touch. *)
Section Untouched.

Variable I : Client -> Prop.
Hypothesis I_jar : forall j st, I st -> I (set_jar j st).
Hypothesis I_log : forall l st, I st -> I (set_log l st).

Lemma untouched_emit_log (e : Event) : preserves I (emit_log e).
Proof. apply preserves_modify. intros st H. apply I_log. exact H. Qed.

Lemma untouched_jar_setCookie (c : Cookie) (url : string) :
  preserves I (jar_setCookie c url).
Proof.
  unfold jar_setCookie. apply preserves_bind.
  - apply preserves_modify. intros st H. apply I_jar. exact H.
  - intros _. apply untouched_emit_log.
Qed.

Lemma untouched_setCookie (c : option Cookie) (v : JsVal) :
  preserves I (_setCookie c v).
Proof.
  unfold _setCookie. destruct c as [c|]; [|apply preserves_throw].
  apply preserves_bind; [apply untouched_jar_setCookie | intros _].
  apply preserves_bind; [apply untouched_jar_setCookie | intros _].
  apply untouched_jar_setCookie.
Qed.

End Untouched.

(** A property of the log that entries other than requests keep. *)
Section LogOnly.

Variable P : list Event -> Prop.
Hypothesis P_jarset : forall l c url, P l -> P (l ++ [EvJarSet c url])%list.

Lemma logonly_jar_setCookie (c : Cookie) (url : string) :
  preserves (fun st => P (log st)) (jar_setCookie c url).
Proof. intros st H. simpl. apply P_jarset. exact H. Qed.

Lemma logonly_setCookie (c : option Cookie) (v : JsVal) :
  preserves (fun st => P (log st)) (_setCookie c v).
Proof.
  unfold _setCookie. destruct c as [c|]; [|apply preserves_throw].
  apply preserves_bind; [apply logonly_jar_setCookie | intros _].
  apply preserves_bind; [apply logonly_jar_setCookie | intros _].
  apply logonly_jar_setCookie.
Qed.

End LogOnly.

(** ** [login]: the cache of the profile URL *)

Lemma uncached_setCookie c v : preserves uncached (_setCookie c v).
Proof. apply untouched_setCookie; intros; assumption. Qed.

Lemma uncached_elapse d : preserves uncached (elapse d).
Proof. apply preserves_modify. intros st H. apply run_timers_uncached. exact H. Qed.

Lemma uncached_emit_log e : preserves uncached (emit_log e).
Proof. apply untouched_emit_log. intros; assumption. Qed.

Lemma requests_setCookie r0 c v :
  preserves (fun st => requests (log st) = r0) (_setCookie c v).
Proof.
  apply (logonly_setCookie (fun l => requests l = r0)).
  intros l c' url H. rewrite requests_app. simpl. rewrite app_nil_r. exact H.
Qed.

Lemma bind_run {A B} (m : M A) (k : A -> M B) (st : Client) :
  bind m k st =
  match m st with
  | (Ok a, st') => k a st'
  | (Throw e, st') => (Throw e, st')
  end.
Proof. reflexivity. Qed.

Lemma bind_lift_ok {A B} (a : A) (k : A -> M B) (st : Client) :
  bind (lift (Ok a)) k st = k a st.
Proof. reflexivity. Qed.

Lemma bind_ok_inv {A B} (m : M A) (k : A -> M B) (st : Client) (b : B) :
  fst (bind m k st) = Ok b ->
  exists a st1, m st = (Ok a, st1) /\ bind m k st = k a st1.
Proof.
  unfold bind. destruct (m st) as [[a|e] st1]; simpl; [|discriminate].
  intros _. exists a, st1. split; reflexivity.
Qed.

Lemma login_begin_uncaches Request_cookie encodeURIComponent details st headers :
  fst (login_begin Request_cookie encodeURIComponent details st) = Ok headers ->
  uncached (snd (login_begin Request_cookie encodeURIComponent details st)).
Proof.
  unfold login_begin.
  destruct (negb (truthy (accountName details)) || negb (truthy (password details)));
    [discriminate|].
  intros H. destruct (bind_ok_inv _ _ _ _ H) as (u & st1 & _ & ->).
  match goal with |- uncached (snd (bind (modify ?f) ?k st1)) =>
    change (uncached (snd (k tt (f st1))));
    assert (Hp : preserves uncached (k tt))
  end.
  { pres; apply uncached_setCookie. }
  apply Hp. reflexivity.
Qed.

(** C10, as amended.  A call of [login] that gets past the check of the
    credentials and the installation of the Steam Guard cookie has
    deleted the cached profile URL when [login_begin] returns, no
    request having been issued until then; and the cache is empty when
    the attempt ends, whatever the two replies are (a challenge, a
    rejection, a transport error, an exception in a callback, or a
    success). *)
Theorem login_deletes_profile_cache
    Request_cookie encodeURIComponent decodeURIComponent SteamID_new
    RSA_encrypt JSON_parse_oauth
    (details : Details) (st : Client) (headers : list (string * JsVal)) :
  fst (login_begin Request_cookie encodeURIComponent details st) = Ok headers ->
  let st0 := snd (login_begin Request_cookie encodeURIComponent details st) in
  _profileURL st0 = None
  /\ requests (log st0) = requests (log st)
  /\ forall (rsa : HttpReply RsaBody) (dologin : HttpReply LoginBody),
       _profileURL (snd (login Request_cookie encodeURIComponent decodeURIComponent
                               SteamID_new RSA_encrypt JSON_parse_oauth
                               details rsa dologin st)) = None.
Proof.
  intros Hok st0.
  assert (H0 : uncached st0) by (apply (login_begin_uncaches _ _ _ _ _ Hok)).
  split; [exact H0|]. split.
  - subst st0.
    apply (stable_login_begin Request_cookie encodeURIComponent
             (fun s => requests (log s) = requests (log st))).
    + intros c v. apply requests_setCookie.
    + intros s H. exact H.
    + reflexivity.
  - intros rsa dologin. unfold login. unfold bind at 1.
    destruct (login_begin Request_cookie encodeURIComponent details st)
      as [[h|e] s0] eqn:Hb; simpl in Hok, st0; [|discriminate].
    subst st0.
    match goal with |- _profileURL (snd (?m s0)) = None =>
      assert (Hp : preserves uncached m) end.
    { apply preserves_bind.
      - apply stable_httpRequest; [apply uncached_elapse | intros; apply uncached_emit_log].
      - intros r1. apply stable_login_on_rsakey;
          first [ apply uncached_setCookie | apply uncached_elapse
                | intros; apply uncached_emit_log
                | intros n s H; exact H
                | intros ? s H; exact H ]. }
    apply Hp. exact H0.
Qed.

(** A login on a client whose profile URL is cached, answered by a
    CAPTCHA challenge. *)
Lemma login_deletes_profile_cache_witness :
  _profileURL (snd (Sample.login Sample.creds Sample.rsa_ok
                      (Sample.reply (mkLoginBody (JsBool false) JsUndefined JsUndefined
                                       JsUndefined (JsBool true)
                                       (JsStr "Please verify your humanity")
                                       (JsStr "1234") JsUndefined))
                      (set_profileURL (Some "/id/gabe") Sample.fresh)))
  = None.
Proof.
  refine (proj2 (proj2
    (login_deletes_profile_cache Sample.cookie Sample.encodeURIComponent
       Sample.decodeURIComponent Sample.SteamID_new Sample.RSA_encrypt
       Sample.JSON_parse_oauth Sample.creds
       (set_profileURL (Some "/id/gabe") Sample.fresh)
       (mobileHeaders Sample.fresh Sample.creds) _)) _ _).
  vm_compute. reflexivity.
Defined.

(** C10, as stated, fails on a call without a password: [login] throws
    before the deletion, and the cached profile URL is still there. *)
Lemma login_without_password_keeps_cache :
  let details := mkDetails (JsStr "user") (JsStr "") JsUndefined JsUndefined JsUndefined
                           JsUndefined JsUndefined JsUndefined in
  let st := set_profileURL (Some "/id/gabe") Sample.fresh in
  let run := Sample.login details Sample.rsa_ok
               (Sample.reply (mkLoginBody (JsBool true) JsUndefined JsUndefined JsUndefined
                                          JsUndefined JsUndefined JsUndefined JsUndefined))
               st in
  fst run = Throw (Error MISSING_CREDENTIALS)
  /\ _profileURL st = Some "/id/gabe"
  /\ _profileURL (snd run) = Some "/id/gabe".
Proof. vm_compute. repeat split. Qed.

(** ** [login]: the pending CAPTCHA challenge *)

Lemma dologin_forms_app (l1 l2 : list Event) :
  dologin_forms (l1 ++ l2)%list = (dologin_forms l1 ++ dologin_forms l2)%list.
Proof.
  induction l1 as [|e l1 IH]; simpl; [reflexivity|].
  destruct e; simpl; try exact IH.
  destruct (_ && _); simpl; rewrite IH; reflexivity.
Qed.

Lemma gid_setCookie g c v : preserves (gid_is g) (_setCookie c v).
Proof. apply untouched_setCookie; intros; assumption. Qed.

Lemma gid_elapse g d : preserves (gid_is g) (elapse d).
Proof.
  apply preserves_modify. intros st H. unfold gid_is.
  rewrite run_timers_captchaGid. exact H.
Qed.

Lemma forms_setCookie f0 c v : preserves (forms_are f0) (_setCookie c v).
Proof.
  apply (logonly_setCookie (fun l => dologin_forms l = f0)).
  intros l c' url H. rewrite dologin_forms_app. simpl. rewrite app_nil_r. exact H.
Qed.

Lemma forms_callback f0 args : preserves (forms_are f0) (emit_log (EvCallback args)).
Proof.
  intros st H. unfold forms_are. simpl.
  rewrite dologin_forms_app. simpl. rewrite app_nil_r. exact H.
Qed.

Lemma forms_elapse f0 d : preserves (forms_are f0) (elapse d).
Proof.
  apply preserves_modify. intros st H. unfold forms_are.
  rewrite log_run_timers. exact H.
Qed.

Lemma captchagid_in_formObj st details rsa encrypted :
  In ("captchagid", _captchaGid st) (formObj st details rsa encrypted).
Proof. unfold formObj. apply in_or_app. left. simpl. auto. Qed.

(** C7.  The pending CAPTCHA id of a new client is -1; when [login]
    classifies a reply as the CAPTCHA challenge, the render URL handed
    to the callback ends with the [captcha_gid] of the reply, and that
    id is stored on the instance, the jar and the identity staying as
    they were; and the attempt that reaches the submission of the form
    (no argument of [login] carries a CAPTCHA id) submits, in the field
    [captchagid], the id the instance holds when the attempt starts. *)
Theorem captcha_gid_remembered
    Request_cookie encodeURIComponent decodeURIComponent SteamID_new
    RSA_encrypt JSON_parse_oauth :
  (forall mua st, _captchaGid (snd (SteamCommunity Request_cookie mua st)) = JsNum (-1))
  /\ (forall details b st,
        classify (disableMobile details) b = Ok Captcha ->
        let run := login_respond Request_cookie decodeURIComponent SteamID_new
                                 JSON_parse_oauth details b st in
        fst run = Ok tt
        /\ _captchaGid (snd run) = captcha_gid b
        /\ _jar (snd run) = _jar st /\ steamID (snd run) = steamID st
        /\ callbacks (log (snd run))
           = (callbacks (log st) ++
              [[ArgError (Err.mk "Error" "CAPTCHA" None
                   (Some ("https://steamcommunity.com/login/rendercaptcha/?gid="
                          ++ toString (captcha_gid b))%string))]])%list)
  /\ (forall details rsa dologin st headers encrypted,
        fst (login_begin Request_cookie encodeURIComponent details st) = Ok headers ->
        err rsa = None ->
        truthy (publickey_mod (body rsa)) = true ->
        truthy (publickey_exp (body rsa)) = true ->
        RSA_encrypt (publickey_mod (body rsa)) (publickey_exp (body rsa))
                    (password details) = Ok encrypted ->
        exists form,
          dologin_forms (log (snd (login Request_cookie encodeURIComponent
                                         decodeURIComponent SteamID_new RSA_encrypt
                                         JSON_parse_oauth details rsa dologin st)))
          = (dologin_forms (log st) ++ [form])%list
          /\ In ("captchagid", _captchaGid st) form).
Proof.
  split; [|split].
  - intros mua st. unfold SteamCommunity. unfold bind at 1. cbn [modify].
    match goal with |- _captchaGid (snd (?m ?s)) = _ =>
      assert (Hp : preserves (gid_is (JsNum (-1))) m) end.
    { pres; apply gid_setCookie. }
    apply Hp. reflexivity.
  - intros details b st Hc run. subst run.
    unfold login_respond. rewrite Hc, bind_lift_ok.
    unfold bind, modify, callback, emit_log, modify, CAPTCHA_URL.
    cbn [fst snd set_log set_captchaGid log _captchaGid _jar steamID].
    rewrite callbacks_app. repeat split.
  - intros details rsa dologin st headers encrypted Hb Herr Hmod Hexp Henc.
    unfold login. rewrite bind_run.
    assert (G0 := stable_login_begin Request_cookie encodeURIComponent
                    (gid_is (_captchaGid st)) (gid_setCookie _)
                    (fun s H => H) details st eq_refl).
    assert (F0 := stable_login_begin Request_cookie encodeURIComponent
                    (forms_are (dologin_forms (log st))) (forms_setCookie _)
                    (fun s H => H) details st eq_refl).
    destruct (login_begin Request_cookie encodeURIComponent details st)
      as [[h|e] s0]; simpl in Hb, G0, F0; [|discriminate].
    rewrite bind_run. unfold httpRequestPost. rewrite httpRequest_run.
    set (s1 := run_timers _).
    assert (G1 : _captchaGid s1 = _captchaGid st).
    { subst s1. rewrite run_timers_captchaGid. exact G0. }
    assert (F1 : dologin_forms (log s1) = dologin_forms (log st)).
    { subst s1. rewrite log_run_timers. simpl.
      rewrite dologin_forms_app. simpl. rewrite app_nil_r. exact F0. }
    unfold login_on_rsakey. rewrite Herr, Hmod, Hexp. cbn [negb orb].
    rewrite Henc, bind_lift_ok, bind_run. cbn [get].
    rewrite bind_run. unfold httpRequestPost. rewrite httpRequest_run.
    set (form := formObj s1 details (body rsa) encrypted).
    set (s2 := run_timers _).
    exists form. split.
    + apply (stable_login_on_dologin Request_cookie decodeURIComponent SteamID_new
               JSON_parse_oauth (forms_are (dologin_forms (log st) ++ [form])%list)).
      * apply forms_setCookie.
      * intros s s' H; exact H.
      * intros g s' H; exact H.
      * intros v s' H; exact H.
      * intros n s' H; exact H.
      * apply forms_callback.
      * unfold forms_are. subst s2. rewrite log_run_timers. simpl.
        rewrite dologin_forms_app, F1. reflexivity.
    + rewrite <- G1. apply captchagid_in_formObj.
Qed.

(** A first attempt answered by the CAPTCHA challenge 1234, then a
    second attempt on the same client. *)
Lemma captcha_gid_remembered_witness :
  let challenge := Sample.reply (mkLoginBody (JsBool false) JsUndefined JsUndefined
                                   JsUndefined (JsBool true)
                                   (JsStr "Please verify your humanity")
                                   (JsStr "1234") JsUndefined) in
  let st1 := snd (Sample.login Sample.creds Sample.rsa_ok challenge Sample.fresh) in
  _captchaGid Sample.fresh = JsNum (-1)
  /\ _captchaGid st1 = JsStr "1234"
  /\ exists form,
       dologin_forms (log (snd (Sample.login Sample.creds Sample.rsa_ok challenge st1)))
       = (dologin_forms (log st1) ++ [form])%list
       /\ In ("captchagid", _captchaGid st1) form.
Proof.
  intros challenge st1.
  split; [vm_compute; reflexivity|]. split; [vm_compute; reflexivity|].
  refine (proj2 (proj2
    (captcha_gid_remembered Sample.cookie Sample.encodeURIComponent
       Sample.decodeURIComponent Sample.SteamID_new Sample.RSA_encrypt
       Sample.JSON_parse_oauth))
    Sample.creds Sample.rsa_ok challenge st1
    (mobileHeaders Sample.fresh Sample.creds) (JsStr "Y2lwaGVydGV4dA==") _ _ _ _ _).
  - vm_compute. reflexivity.
  - reflexivity.
  - reflexivity.
  - reflexivity.
  - reflexivity.
Defined.

(** ** [login]: the classification of the reply *)

(** The order of the chain, for a reply whose [message] is a text
    whenever the chain reads it. *)
Lemma classify_priority_order (dm : JsVal) (b : LoginBody) :
  let failed := negb (truthy (success b)) in
  (failed = true -> truthy (emailauth_needed b) = true ->
     classify dm b = Ok EmailGuard)
  /\ (failed = true -> truthy (emailauth_needed b) = false ->
      truthy (requires_twofactor b) = true ->
      classify dm b = Ok MobileGuard)
  /\ (failed = true -> truthy (emailauth_needed b) = false ->
      truthy (requires_twofactor b) = false ->
      truthy (captcha_needed b) = true ->
      forall s, message b = JsStr s ->
        classify dm b =
          Ok (if Str.includes "Please verify your humanity" s then Captcha else Rejected))
  /\ (failed = true -> truthy (emailauth_needed b) = false ->
      truthy (requires_twofactor b) = false ->
      truthy (captcha_needed b) = false ->
      classify dm b = Ok Rejected)
  /\ (failed = false ->
      classify dm b = Ok (if negb (truthy dm) && negb (truthy (oauth b))
                          then Malformed else Success)).
Proof.
  intros failed. subst failed. unfold classify.
  repeat split.
  - intros -> ->. reflexivity.
  - intros -> -> ->. reflexivity.
  - intros -> -> -> -> s ->. simpl.
    destruct (Str.includes _ s); reflexivity.
  - intros -> -> -> ->. reflexivity.
  - intros ->. simpl. destruct (negb (truthy dm) && negb (truthy (oauth b))); reflexivity.
Qed.

(** C1, the failing reply.  On a failed reply that carries the
    captcha-required flag and no [message], the chain does not reach the
    branch of the rejected credentials: the reading of the message
    raises an exception inside the callback of the request, and the
    callback of [login] is never invoked; the same reply with an empty
    [message] is reported as rejected credentials, [Unknown error]. *)
Theorem login_captcha_flag_without_message :
  let b := mkLoginBody (JsBool false) JsUndefined JsUndefined JsUndefined
                       (JsBool true) JsUndefined JsUndefined JsUndefined in
  let b' := mkLoginBody (JsBool false) JsUndefined JsUndefined JsUndefined
                        (JsBool true) (JsStr "") JsUndefined JsUndefined in
  let run := Sample.login Sample.creds Sample.rsa_ok (Sample.reply b) Sample.fresh in
  let run' := Sample.login Sample.creds Sample.rsa_ok (Sample.reply b') Sample.fresh in
  classify (disableMobile Sample.creds) b = Throw TypeError
  /\ fst run = Throw TypeError
  /\ callbacks (log (snd run)) = []
  /\ classify (disableMobile Sample.creds) b' = Ok Rejected
  /\ fst run' = Ok tt
  /\ callbacks (log (snd run')) = [[ArgError (Error "Unknown error")]].
Proof. vm_compute. repeat split. Qed.

(** ** [_myProfile]: the cache of the profile URL and its timer *)

Lemma filter_not_due_all (t : N) (l : list N) :
  existsb (due t) l = false -> filter (fun d => negb (due t d)) l = l.
Proof.
  induction l as [|x l IH]; simpl; [reflexivity|].
  intros H. apply orb_false_iff in H as [Hx Hl].
  rewrite Hx. simpl. rewrite (IH Hl). reflexivity.
Qed.

Lemma timers_run_timers (st : Client) :
  timers (run_timers st) = filter (fun d => negb (due (now st) d)) (timers st).
Proof.
  unfold run_timers. destruct (existsb _ _) eqn:E; simpl; [reflexivity|].
  symmetry. apply filter_not_due_all. exact E.
Qed.

Lemma now_run_timers (st : Client) : now (run_timers st) = now st.
Proof. unfold run_timers. destruct (existsb _ _); reflexivity. Qed.

Lemma cached_run_timers (st : Client) :
  cached_profileURL (run_timers st) =
  if existsb (due (now st)) (timers st) then None else cached_profileURL st.
Proof. unfold run_timers. destruct (existsb _ _); reflexivity. Qed.

Lemma profile_at_nonempty (s g : string) : Str.profile_at s = Some g -> g <> "".
Proof.
  unfold Str.profile_at.
  destruct (Str.drop_prefix "steamcommunity.com" s) as [r|]; [|discriminate].
  destruct (Str.drop_prefix "/id/" r) as [t|].
  - destruct (Str.take_while _ t); [discriminate|].
    intros H. injection H as <-. discriminate.
  - destruct (Str.drop_prefix "/profiles/" r) as [t|]; [|discriminate].
    destruct (Str.take_while _ t); [discriminate|].
    intros H. injection H as <-. discriminate.
Qed.

Lemma match_profile_nonempty (s g : string) : Str.match_profile s = Some g -> g <> "".
Proof.
  induction s as [|c s IH]; [discriminate|].
  cbn [Str.match_profile].
  destruct (Str.profile_at (String c s)) as [g'|] eqn:E.
  - intros H. injection H as <-. exact (profile_at_nonempty _ _ E).
  - exact IH.
Qed.

Lemma cached_set (url : string) (st : Client) :
  url <> "" -> cached_profileURL (set_profileURL (Some url) st) = Some url.
Proof. destruct url; [contradiction | reflexivity]. Qed.


(** The request that completes a profile-scoped operation. *)
Lemma completeRequest_run (e : Endpoint) (f : option (list (string * JsVal)))
    (url : string) (st : Client) :
  exists m path,
    completeRequest e f url st
    = (Ok tt, set_log (log st ++ [EvRequest m ("https://steamcommunity.com" ++ url ++ "/" ++ path)
                                    (match f with Some x => x | None => [] end) []]) st).
Proof. unfold completeRequest. eexists. eexists. reflexivity. Qed.




(** A hit: the cached path is used, and [/my] is not asked. *)
Lemma myProfile_hit e f my st url :
  cached_profileURL st = Some url ->
  _myProfile e f my st = completeRequest e f url st.
Proof. intros H. unfold _myProfile. rewrite bind_run. cbn [get]. rewrite H. reflexivity. Qed.

(** A miss that resolves: the path is cached, its timer is set, and the
    operation is completed on the path. *)
Lemma myProfile_resolve e f my st loc url :
  cached_profileURL st = None -> err my = None -> statusCode my = 302%Z ->
  location my = Some loc -> Str.match_profile loc = Some url ->
  let s1 := on_my_reply my st in
  _myProfile e f my st
  = completeRequest e f url
      (set_timers (timers s1 ++ [(now s1 + EXPIRY)%N]) (set_profileURL (Some url) s1)).
Proof.
  intros Hc He Hs Hl Hm s1. unfold _myProfile.
  rewrite bind_run. cbn [get]. rewrite Hc.
  rewrite bind_run, httpRequest_run. fold (on_my_reply my st). fold s1.
  rewrite He, Hs, Hl, Hm. reflexivity.
Qed.






(** *** The timer of an entry that a login has invalidated *)

Lemma pending_setCookie t c v : preserves (pending_until t) (_setCookie c v).
Proof. apply untouched_setCookie; intros; assumption. Qed.

Lemma pending_emit_log t e : preserves (pending_until t) (emit_log e).
Proof. apply untouched_emit_log. intros; assumption. Qed.

Lemma pending_elapse t d : preserves (pending_until t) (elapse d).
Proof.
  apply preserves_modify. intros st H. unfold pending_until in *.
  rewrite now_run_timers, timers_run_timers. cbn [now timers set_now].
  intros Hlt. apply filter_In. split.
  - apply H. lia.
  - unfold due. apply negb_true_iff, N.leb_gt. exact Hlt.
Qed.

Lemma due_timer_evicts (st : Client) (t d : N) :
  In t (timers st) -> (t <= now st + d)%N ->
  cached_profileURL (snd (elapse d st)) = None.
Proof.
  intros Hin Hle. cbn [elapse modify snd]. rewrite cached_run_timers.
  cbn [now timers set_now].
  assert (E : existsb (due (now st + d)) (timers st) = true).
  { apply existsb_exists. exists t. split; [exact Hin|]. apply N.leb_le. exact Hle. }
  rewrite E. reflexivity.
Qed.

(** C6, as amended.  The deletion of the cache by a login neither
    cancels nor replaces the pending timer: a timer that is pending when
    [login] is called and not yet due when it ends is still pending
    then; a resolution adds the timer of its own entry, due 60 seconds
    later, to the pending ones; and when any pending timer falls due,
    the cache is emptied, whichever entry it holds. *)
Theorem stale_timer_survives_invalidation
    Request_cookie encodeURIComponent decodeURIComponent SteamID_new
    RSA_encrypt JSON_parse_oauth :
  (forall details rsa dologin st t,
      In t (timers st) ->
      let st' := snd (login Request_cookie encodeURIComponent decodeURIComponent
                            SteamID_new RSA_encrypt JSON_parse_oauth
                            details rsa dologin st) in
      (now st' < t)%N -> In t (timers st'))
  /\ (forall e f my st loc url,
        cached_profileURL st = None -> err my = None -> statusCode my = 302%Z ->
        location my = Some loc -> Str.match_profile loc = Some url ->
        let st' := snd (_myProfile e f my st) in
        cached_profileURL st' = Some url
        /\ now st' = (now st + delay my)%N
        /\ In (now st' + 60000)%N (timers st')
        /\ forall t, In t (timers st) -> (now st' < t)%N -> In t (timers st'))
  /\ (forall st t d,
        In t (timers st) -> (t <= now st + d)%N ->
        cached_profileURL (snd (elapse d st)) = None).
Proof.
  split; [|split].
  - intros details rsa dologin st t Hin st'. subst st'.
    apply (stable_login Request_cookie encodeURIComponent decodeURIComponent
             SteamID_new RSA_encrypt JSON_parse_oauth (pending_until t));
      first [ apply pending_setCookie | apply pending_elapse
            | intros; apply pending_emit_log
            | intros ? s H; exact H
            | intros s H; exact H
            | idtac ].
    intros _. exact Hin.
  - intros e f my st loc url Hc He Hs Hl Hm st'. subst st'.
    rewrite (myProfile_resolve e f my st loc url Hc He Hs Hl Hm).
    destruct (completeRequest_run e f url
                (set_timers (timers (on_my_reply my st) ++
                             [(now (on_my_reply my st) + EXPIRY)%N])
                   (set_profileURL (Some url) (on_my_reply my st))))
      as (m & path & ->).
    cbn [snd now timers set_log set_timers set_profileURL].
    assert (Hnow : now (on_my_reply my st) = (now st + delay my)%N).
    { unfold on_my_reply. rewrite now_run_timers. reflexivity. }
    split; [|split; [|split]].
    + pose proof (match_profile_nonempty _ _ Hm). destruct url; [contradiction | reflexivity].
    + exact Hnow.
    + apply in_or_app. right. left. reflexivity.
    + intros t Hin Hlt. apply in_or_app. left.
      unfold on_my_reply. rewrite timers_run_timers. cbn [now timers set_now set_log].
      apply filter_In. split; [exact Hin|].
      unfold due. apply negb_true_iff, N.leb_gt. rewrite <- Hnow. exact Hlt.
  - intros st t d. apply due_timer_evicts.
Qed.

(** The timer of the first resolution is still pending after the login,
    and falls due 20 seconds after the second resolution. *)
Lemma stale_timer_survives_invalidation_witness :
  In 60000%N (timers stale_timer_scenario)
  /\ cached_profileURL (snd (elapse 20000 stale_timer_scenario)) = None.
Proof.
  assert (Hin : In 60000%N (timers stale_timer_scenario)) by (vm_compute; auto).
  split; [exact Hin|].
  refine (proj2 (proj2 (stale_timer_survives_invalidation
            Sample.cookie Sample.encodeURIComponent Sample.decodeURIComponent
            Sample.SteamID_new Sample.RSA_encrypt Sample.JSON_parse_oauth))
          stale_timer_scenario 60000%N 20000%N Hin _).
  vm_compute. discriminate.
Defined.

(** C6, as stated, fails: the profile URL cached at 40 s, after the login
    at 30 s has invalidated the entry of time 0, is evicted at 60 s by
    the timer of that first entry, 20 seconds after it was cached. *)
Lemma stale_timer_evicts_early :
  now stale_timer_scenario = 40000%N
  /\ cached_profileURL stale_timer_scenario = Some "/id/gabe"
  /\ timers stale_timer_scenario = [60000; 100000]%N
  /\ now (snd (elapse 20000 stale_timer_scenario)) = 60000%N
  /\ cached_profileURL (snd (elapse 20000 stale_timer_scenario)) = None.
Proof. vm_compute. repeat split. Qed.

(** ** [getSessionID] *)

(** *** The cookie string and its pieces *)

Lemma split_go_no_semi (cur s : string) :
  no_semi s = true -> Str.split_go ";" 0 cur s = [cur ++ s].
Proof.
  unfold no_semi. revert cur. induction s as [|c s IH]; intros cur.
  - simpl. rewrite append_nil_r. reflexivity.
  - cbn [Str.split_go Str.starts_with all_chars].
    rewrite andb_true_iff. intros [Hc Hs].
    rewrite Ascii.eqb_sym. apply negb_true_iff in Hc. rewrite Hc. cbn [andb].
    rewrite (IH _ Hs), append_assoc. reflexivity.
Qed.

Lemma split_go_at_semi (cur a b : string) :
  no_semi a = true ->
  Str.split_go ";" 0 cur (a ++ ";" ++ b) = (cur ++ a) :: Str.split_go ";" 0 "" b.
Proof.
  unfold no_semi. revert cur. induction a as [|c a IH]; intros cur.
  - intros _. simpl. rewrite append_nil_r. reflexivity.
  - cbn [Str.split_go Str.starts_with all_chars append].
    rewrite andb_true_iff. intros [Hc Ha].
    rewrite Ascii.eqb_sym. apply negb_true_iff in Hc. rewrite Hc. cbn [andb].
    rewrite (IH _ Ha), append_assoc. reflexivity.
Qed.

Lemma join_cons_cons (p q : string) (ps : list string) :
  Str.join "; " (p :: q :: ps) = p ++ ";" ++ Str.join "; " ((" " ++ q) :: ps).
Proof.
  cbn [Str.join]. destruct ps as [|r ps]; simpl; reflexivity.
Qed.

(** The pieces of a cookie string: the first cookie, then each further
    cookie after a space. *)
Lemma split_join (cur p : string) (ps : list string) :
  no_semi p = true -> Forall (fun q => no_semi q = true) ps ->
  Str.split_go ";" 0 cur (Str.join "; " (p :: ps))
  = (cur ++ p) :: map (fun q => " " ++ q) ps.
Proof.
  intros Hp Hps. revert cur p Hp.
  induction Hps as [|q ps Hq Hps IH]; intros cur p Hp.
  - simpl. apply split_go_no_semi. exact Hp.
  - rewrite join_cons_cons, (split_go_at_semi cur p _ Hp).
    rewrite (IH "" (" " ++ q)); [reflexivity|]. simpl. exact Hq.
Qed.

Lemma trim_right_no_ws (s : string) :
  all_chars (fun c => negb (Str.is_ws c)) s = true -> Str.trim_right s = s.
Proof.
  induction s as [|c s IH]; simpl; [reflexivity|].
  rewrite andb_true_iff. intros [Hc Hs]. rewrite (IH Hs).
  apply negb_true_iff in Hc. rewrite Hc. destruct s; reflexivity.
Qed.

Lemma trim_no_ws (s : string) :
  all_chars (fun c => negb (Str.is_ws c)) s = true -> Str.trim s = s.
Proof.
  intros H. unfold Str.trim.
  assert (Hl : Str.trim_left s = s).
  { destruct s as [|c s]; [reflexivity|]. simpl in *.
    apply andb_true_iff in H as [Hc _]. apply negb_true_iff in Hc.
    rewrite Hc. reflexivity. }
  rewrite Hl. apply trim_right_no_ws. exact H.
Qed.

Lemma trim_space (s : string) : Str.trim (" " ++ s) = Str.trim s.
Proof. reflexivity. Qed.

Lemma all_chars_app (p : ascii -> bool) (a b : string) :
  all_chars p (a ++ b) = all_chars p a && all_chars p b.
Proof.
  induction a as [|c a IH]; simpl; [reflexivity|].
  rewrite IH, andb_assoc. reflexivity.
Qed.

Lemma all_chars_impl (p q : ascii -> bool) (s : string) :
  (forall c, p c = true -> q c = true) ->
  all_chars p s = true -> all_chars q s = true.
Proof.
  intros Hpq. induction s as [|c s IH]; simpl; [reflexivity|].
  rewrite !andb_true_iff. intros [Hc Hs]. split; [apply Hpq; exact Hc | apply IH; exact Hs].
Qed.

Lemma take_while_all (p : ascii -> bool) (s : string) :
  all_chars p s = true -> Str.take_while p s = s.
Proof.
  induction s as [|c s IH]; simpl; [reflexivity|].
  rewrite andb_true_iff. intros [Hc Hs]. rewrite Hc, (IH Hs). reflexivity.
Qed.

Lemma key_value_go_name (cur k rest : string) :
  all_chars (fun c => negb (Str.is_eq c)) k = true ->
  Str.key_value_go cur (k ++ rest) = Str.key_value_go (cur ++ k) rest.
Proof.
  revert cur. induction k as [|c k IH]; intros cur; simpl.
  - rewrite append_nil_r. reflexivity.
  - rewrite andb_true_iff. intros [Hc Hk]. apply negb_true_iff in Hc. rewrite Hc.
    rewrite (IH _ Hk), append_assoc. reflexivity.
Qed.

(** What [getSessionID] reads off a piece [name=value]. *)
Lemma match_key_value_plain (k v : string) :
  k <> "" -> all_chars (fun c => negb (Str.is_eq c)) k = true ->
  v <> "" -> all_chars (fun c => negb (Str.is_lt c)) v = true ->
  Str.match_key_value (k ++ "=" ++ v) = Some (k, v).
Proof.
  intros Hk Hkc Hv Hvc. unfold Str.match_key_value.
  rewrite (key_value_go_name "" k _ Hkc). cbn [append Str.key_value_go].
  change (Str.is_eq "="%char) with true. cbv iota.
  rewrite (take_while_all _ v Hvc).
  destruct k; [contradiction|]. destruct v; [contradiction|]. reflexivity.
Qed.

Lemma no_ws_no_lt (c : ascii) : negb (Str.is_ws c) = true -> negb (Str.is_lt c) = true.
Proof.
  unfold Str.is_ws, Str.is_lt. rewrite !negb_true_iff, !orb_false_iff, andb_false_iff.
  intros [[H1 H2] H3]. rewrite !Nat.eqb_neq.
  rewrite !Nat.leb_gt in H1. split; intros E; rewrite E in H1; destruct H1; lia.
Qed.

Lemma token_char_spec (c : ascii) :
  token_char c = true ->
  negb (Str.is_eq c) = true /\ negb (Ascii.eqb c ";"%char) = true /\ negb (Str.is_ws c) = true.
Proof. unfold token_char. rewrite !andb_true_iff. tauto. Qed.

Lemma piece_char_spec (c : ascii) :
  piece_char c = true ->
  negb (Ascii.eqb c ";"%char) = true /\ negb (Str.is_ws c) = true.
Proof. unfold piece_char. rewrite !andb_true_iff. tauto. Qed.

Lemma inner_char_spec (c : ascii) :
  inner_char c = true ->
  negb (Ascii.eqb c ";"%char) = true /\ negb (Str.is_lt c) = true.
Proof. unfold inner_char. rewrite !andb_true_iff. tauto. Qed.

(** A text without white space is a value of a well-formed cookie. *)
Lemma piece_chars_inner (s : string) :
  all_chars piece_char s = true ->
  all_chars inner_char s = true /\ trimmed s = true.
Proof.
  intros H. split.
  - apply (all_chars_impl piece_char); [|exact H].
    intros x Hx. apply piece_char_spec in Hx. unfold inner_char.
    destruct Hx as [H1 H2]. rewrite H1, (no_ws_no_lt x H2). reflexivity.
  - assert (Hws : all_chars (fun c => negb (Str.is_ws c)) s = true).
    { apply (all_chars_impl piece_char); [|exact H].
      intros x Hx. apply piece_char_spec in Hx. tauto. }
    unfold trimmed. rewrite (trim_right_no_ws s Hws), String.eqb_refl, andb_true_r.
    destruct s as [|c s]; [reflexivity|]. cbn [all_chars] in Hws.
    apply andb_true_iff in Hws as [Hc _]. apply negb_true_iff in Hc.
    cbn [Str.trim_left]. rewrite Hc. apply String.eqb_refl.
Qed.

Lemma wf_cookie_spec (c : Cookie) :
  wf_cookie c = true ->
  key c <> "" /\ all_chars token_char (key c) = true
  /\ value c <> "" /\ all_chars inner_char (value c) = true
  /\ Str.trim_left (value c) = value c /\ Str.trim_right (value c) = value c.
Proof.
  unfold wf_cookie, trimmed. rewrite !andb_true_iff, !String.eqb_eq.
  intros [[[[H1 H2] H3] H4] [H5 H6]].
  repeat split; try assumption.
  - destruct (key c); [discriminate | discriminate].
  - destruct (value c); [discriminate | discriminate].
Qed.

Lemma cookie_string_no_semi (c : Cookie) :
  wf_cookie c = true -> no_semi (Jar.cookie_string c) = true.
Proof.
  intros Hwf. apply wf_cookie_spec in Hwf as (_ & Hk & _ & Hv & _).
  unfold no_semi, Jar.cookie_string. rewrite !all_chars_app.
  rewrite (all_chars_impl token_char _ (key c)), (all_chars_impl inner_char _ (value c));
    try assumption; [reflexivity | |].
  - intros x H. apply inner_char_spec in H. tauto.
  - intros x H. apply token_char_spec in H. tauto.
Qed.

Lemma trim_right_app (a v : string) :
  v <> "" -> Str.trim_right v = v -> Str.trim_right (a ++ v) = a ++ v.
Proof.
  intros Hv Ht. induction a as [|c a IH]; [exact Ht|].
  cbn [append Str.trim_right]. rewrite IH.
  destruct (a ++ v) eqn:E; [|reflexivity].
  exfalso. destruct a; cbn [append] in E; [exact (Hv E) | discriminate].
Qed.

(** The text of a well-formed cookie is left as it is by [trim]. *)
Lemma trim_cookie_string (c : Cookie) :
  wf_cookie c = true -> Str.trim (Jar.cookie_string c) = Jar.cookie_string c.
Proof.
  intros Hwf. apply wf_cookie_spec in Hwf as (Hk & Hkc & Hv & _ & _ & Hr).
  unfold Str.trim, Jar.cookie_string.
  assert (Hl : Str.trim_left (key c ++ "=" ++ value c) = key c ++ "=" ++ value c).
  { destruct (key c) as [|k0 k]; [contradiction|]. cbn [all_chars] in Hkc.
    apply andb_true_iff in Hkc as [Hk0 _]. apply token_char_spec in Hk0 as (_ & _ & Hk0).
    apply negb_true_iff in Hk0. cbn [append Str.trim_left]. rewrite Hk0. reflexivity. }
  rewrite Hl, <- append_assoc. apply trim_right_app; assumption.
Qed.

(** The piece of a well-formed cookie, with or without the space that
    follows the separator, is read as its name and its value. *)
Lemma wf_piece (c : Cookie) :
  wf_cookie c = true ->
  Str.match_key_value (Str.trim (Jar.cookie_string c)) = Some (key c, value c)
  /\ Str.match_key_value (Str.trim (" " ++ Jar.cookie_string c)) = Some (key c, value c).
Proof.
  intros Hwf. rewrite trim_space, (trim_cookie_string c Hwf).
  apply wf_cookie_spec in Hwf as (Hk & Hkc & Hv & Hvc & _).
  assert (H : Str.match_key_value (Jar.cookie_string c) = Some (key c, value c)).
  { unfold Jar.cookie_string. apply match_key_value_plain; try assumption.
    - apply (all_chars_impl token_char); [|exact Hkc].
      intros x H. apply token_char_spec in H. tauto.
    - apply (all_chars_impl inner_char); [|exact Hvc].
      intros x H. apply inner_char_spec in H. tauto. }
  split; exact H.
Qed.

Lemma find_sessionid_read dec (cs : list Cookie) (pieces : list string) :
  Forall2 (fun c p => Str.match_key_value (Str.trim p) = Some (key c, value c)) cs pieces ->
  find_sessionid dec pieces = decode_found dec (lookup_sessionid cs).
Proof.
  induction 1 as [|c p cs pieces Hp _ IH]; [reflexivity|].
  cbn [find_sessionid lookup_sessionid]. rewrite Hp.
  destruct (String.eqb (key c) "sessionid"); [reflexivity | exact IH].
Qed.

(** The loop of [getSessionID] on a jar whose visible cookies are
    well-formed. *)
Lemma find_sessionid_visible dec (host : string) (st : Client) :
  visible_cookies host st <> [] ->
  Forall (fun c => wf_cookie c = true) (visible_cookies host st) ->
  find_sessionid dec (Str.split ";" (Jar.getCookieString (now st) host (_jar st)))
  = decode_found dec (lookup_sessionid (visible_cookies host st)).
Proof.
  unfold Jar.getCookieString, visible_cookies. rewrite <- (map_map Jar.cookie Jar.cookie_string).
  generalize (map Jar.cookie (filter (Jar.visible (now st) host) (_jar st))).
  intros cs Hne Hwf. destruct cs as [|c cs]; [contradiction|].
  inversion Hwf as [|? ? Hc Hcs]; subst.
  unfold Str.split. cbn [map]. rewrite split_join.
  - apply find_sessionid_read. constructor.
    + apply (wf_piece c Hc).
    + clear -Hcs. induction Hcs as [|x cs Hx _ IH]; cbn [map]; constructor.
      * apply (wf_piece x Hx).
      * exact IH.
  - apply cookie_string_no_semi. exact Hc.
  - clear -Hcs. induction Hcs as [|x cs Hx _ IH]; cbn [map]; constructor.
    + apply cookie_string_no_semi. exact Hx.
    + exact IH.
Qed.

(** *** The jar after a write *)

Lemma visible_domain now0 host (e : Jar.Entry) :
  Jar.visible now0 host e = true -> String.eqb (Jar.domain e) (Jar.url_host host) = true.
Proof. unfold Jar.visible. rewrite !andb_true_iff. tauto. Qed.

(** A cookie written for another host does not show. *)
Lemma filter_put_other now0 host (e : Jar.Entry) (j : Jar.t) :
  String.eqb (Jar.domain e) (Jar.url_host host) = false ->
  filter (Jar.visible now0 host) (Jar.put e j) = filter (Jar.visible now0 host) j.
Proof.
  intros Hd.
  assert (He : Jar.visible now0 host e = false).
  { unfold Jar.visible. rewrite Hd. reflexivity. }
  induction j as [|x j IH]; cbn [Jar.put filter].
  - rewrite He. reflexivity.
  - destruct (Jar.same_slot (Jar.domain e) (key (Jar.cookie e)) x) eqn:Hs; cbn [filter].
    + rewrite He.
      assert (Hx : Jar.visible now0 host x = false).
      { unfold Jar.same_slot in Hs. apply andb_true_iff in Hs as [Hs _].
        apply String.eqb_eq in Hs. unfold Jar.visible. rewrite Hs, Hd. reflexivity. }
      rewrite Hx. reflexivity.
    + rewrite IH. reflexivity.
Qed.

(** A visible cookie written for the host, no cookie of its name being
    visible before, shows at some place among the others. *)
Lemma filter_put_same now0 host (e : Jar.Entry) (j : Jar.t) :
  Jar.visible now0 host e = true ->
  Forall (fun x => String.eqb (key (Jar.cookie x)) (key (Jar.cookie e)) = false)
         (filter (Jar.visible now0 host) j) ->
  exists l1 l2,
    filter (Jar.visible now0 host) j = (l1 ++ l2)%list
    /\ filter (Jar.visible now0 host) (Jar.put e j) = (l1 ++ e :: l2)%list.
Proof.
  intros He. induction j as [|x j IH]; cbn [Jar.put filter]; intros Hj.
  - rewrite He. exists [], []. split; reflexivity.
  - destruct (Jar.same_slot (Jar.domain e) (key (Jar.cookie e)) x) eqn:Hs; cbn [filter].
    + rewrite He.
      assert (Hx : Jar.visible now0 host x = false).
      { destruct (Jar.visible now0 host x) eqn:Hv; [|reflexivity].
        inversion Hj as [|? ? Hk _]; subst.
        unfold Jar.same_slot in Hs. apply andb_true_iff in Hs as [_ Hs].
        rewrite Hs in Hk. discriminate. }
      rewrite Hx. exists [], (filter (Jar.visible now0 host) j). split; reflexivity.
    + destruct (Jar.visible now0 host x) eqn:Hv.
      * inversion Hj as [|? ? _ Hj']; subst.
        destruct (IH Hj') as (l1 & l2 & H1 & H2).
        exists (x :: l1), l2. rewrite H1, H2. split; reflexivity.
      * destruct (IH Hj) as (l1 & l2 & H1 & H2).
        exists l1, l2. split; assumption.
Qed.

Lemma lookup_sessionid_app (l1 l2 : list Cookie) :
  lookup_sessionid (l1 ++ l2) =
  match lookup_sessionid l1 with
  | Some v => Some v
  | None => lookup_sessionid l2
  end.
Proof.
  induction l1 as [|c l1 IH]; cbn [app lookup_sessionid]; [reflexivity|].
  destruct (String.eqb (key c) "sessionid"); [reflexivity | exact IH].
Qed.

Lemma lookup_sessionid_none (l : list Jar.Entry) :
  lookup_sessionid (map Jar.cookie l) = None ->
  Forall (fun x => String.eqb (key (Jar.cookie x)) "sessionid" = false) l.
Proof.
  induction l as [|x l IH]; cbn [map lookup_sessionid]; intros H; constructor.
  - destruct (String.eqb (key (Jar.cookie x)) "sessionid"); [discriminate | reflexivity].
  - apply IH. destruct (String.eqb (key (Jar.cookie x)) "sessionid"); [discriminate | exact H].
Qed.

(** The visible cookies after the three writes of [_setCookie], for a
    host of one of the three domains and a non-secure cookie that has
    not expired. *)
Lemma visible_after_setCookie now0 host (c : Cookie) (j : Jar.t) :
  In (Jar.url_host host) DOMAINS ->
  secure c = false -> Jar.expired now0 c = false ->
  Forall (fun x => String.eqb (key (Jar.cookie x)) (key c) = false)
         (filter (Jar.visible now0 host) j) ->
  let j' := Jar.setCookie c "http://help.steampowered.com"
              (Jar.setCookie c "http://store.steampowered.com"
                 (Jar.setCookie c "http://steamcommunity.com" j)) in
  exists l1 l2,
    filter (Jar.visible now0 host) j = (l1 ++ l2)%list
    /\ filter (Jar.visible now0 host) j'
       = (l1 ++ Jar.mkEntry (Jar.url_host host) c :: l2)%list.
Proof.
  intros Hd Hsec Hexp Hj j'. subst j'. unfold Jar.setCookie.
  change (Jar.url_host "http://help.steampowered.com") with "help.steampowered.com".
  change (Jar.url_host "http://store.steampowered.com") with "store.steampowered.com".
  change (Jar.url_host "http://steamcommunity.com") with "steamcommunity.com".
  assert (Hvis : Jar.visible now0 host (Jar.mkEntry (Jar.url_host host) c) = true).
  { unfold Jar.visible. cbn [Jar.domain Jar.cookie].
    rewrite String.eqb_refl, Hexp, Hsec. reflexivity. }
  assert (Hother : forall d, String.eqb d (Jar.url_host host) = false ->
            forall j0, filter (Jar.visible now0 host) (Jar.put (Jar.mkEntry d c) j0)
                       = filter (Jar.visible now0 host) j0).
  { intros d Hne j0. apply filter_put_other. exact Hne. }
  assert (Hsame : forall j0,
            Forall (fun x => String.eqb (key (Jar.cookie x)) (key c) = false)
                   (filter (Jar.visible now0 host) j0) ->
            exists l1 l2,
              filter (Jar.visible now0 host) j0 = (l1 ++ l2)%list
              /\ filter (Jar.visible now0 host) (Jar.put (Jar.mkEntry (Jar.url_host host) c) j0)
                 = (l1 ++ Jar.mkEntry (Jar.url_host host) c :: l2)%list).
  { intros j0 H0. apply filter_put_same; assumption. }
  destruct Hd as [Hd|[Hd|[Hd|[]]]].
  - rewrite (Hother "help.steampowered.com") by (rewrite <- Hd; reflexivity).
    rewrite (Hother "store.steampowered.com") by (rewrite <- Hd; reflexivity).
    rewrite Hd. apply Hsame. exact Hj.
  - rewrite (Hother "help.steampowered.com") by (rewrite <- Hd; reflexivity).
    rewrite Hd.
    destruct (Hsame (Jar.put (Jar.mkEntry "steamcommunity.com" c) j)) as (l1 & l2 & H1 & H2).
    + rewrite (Hother "steamcommunity.com") by (rewrite <- Hd; reflexivity). exact Hj.
    + rewrite (Hother "steamcommunity.com") in H1 by (rewrite <- Hd; reflexivity).
      exists l1, l2. split; assumption.
  - rewrite Hd.
    destruct (Hsame (Jar.put (Jar.mkEntry "store.steampowered.com" c)
                       (Jar.put (Jar.mkEntry "steamcommunity.com" c) j)))
      as (l1 & l2 & H1 & H2).
    + rewrite (Hother "store.steampowered.com") by (rewrite <- Hd; reflexivity).
      rewrite (Hother "steamcommunity.com") by (rewrite <- Hd; reflexivity). exact Hj.
    + rewrite (Hother "store.steampowered.com") in H1 by (rewrite <- Hd; reflexivity).
      rewrite (Hother "steamcommunity.com") in H1 by (rewrite <- Hd; reflexivity).
      exists l1, l2. split; assumption.
Qed.

(** *** The generated identifier *)

Lemma to_hex_length (bs : list Byte.byte) :
  String.length (to_hex bs) = 2 * List.length bs.
Proof. induction bs as [|b bs IH]; simpl; [reflexivity | rewrite IH; lia]. Qed.

Lemma hex_digit_cases (P : ascii -> Prop) :
  P "0"%char -> P "1"%char -> P "2"%char -> P "3"%char -> P "4"%char -> P "5"%char ->
  P "6"%char -> P "7"%char -> P "8"%char -> P "9"%char -> P "a"%char -> P "b"%char ->
  P "c"%char -> P "d"%char -> P "e"%char -> P "f"%char ->
  forall n, P (hex_digit n).
Proof.
  intros. destruct n as [|p]; [assumption|].
  do 4 (try destruct p as [p|p|]); try assumption; destruct p; assumption.
Qed.

Lemma to_hex_chars (p : ascii -> bool) (bs : list Byte.byte) :
  (forall n, p (hex_digit n) = true) -> all_chars p (to_hex bs) = true.
Proof.
  intros Hp. induction bs as [|b bs IH]; cbn [to_hex all_chars]; [reflexivity|].
  rewrite !Hp, IH. reflexivity.
Qed.

Lemma next_sessionID_spec (st : Client) :
  String.length (next_sessionID st) = 24
  /\ all_chars is_hex (next_sessionID st) = true
  /\ all_chars piece_char (next_sessionID st) = true
  /\ next_sessionID st <> "".
Proof.
  assert (Hlen : String.length (next_sessionID st) = 24).
  { unfold next_sessionID. rewrite to_hex_length, length_map, length_seq. reflexivity. }
  split; [exact Hlen|]. split; [|split].
  - apply to_hex_chars. apply (hex_digit_cases (fun c => is_hex c = true)); reflexivity.
  - apply to_hex_chars. apply (hex_digit_cases (fun c => piece_char c = true)); reflexivity.
  - intros E. rewrite E in Hlen. discriminate.
Qed.

Lemma generateSessionID_run (st : Client) :
  generateSessionID st
  = (Ok (next_sessionID st), set_entropy_pos (entropy_pos st + 12) st).
Proof. reflexivity. Qed.

Lemma jar_getCookieString_run (host : string) (st : Client) :
  jar_getCookieString host st = (Ok (Jar.getCookieString (now st) host (_jar st)), st).
Proof. reflexivity. Qed.

Lemma _setCookie_http_jar (c : Cookie) (st : Client) :
  let st' := snd (_setCookie (Some c) JsUndefined st) in
  _jar st' = Jar.setCookie (cookie_with_secure c false) "http://help.steampowered.com"
               (Jar.setCookie (cookie_with_secure c false) "http://store.steampowered.com"
                  (Jar.setCookie (cookie_with_secure c false) "http://steamcommunity.com"
                     (_jar st)))
  /\ now st' = now st.
Proof. split; reflexivity. Qed.

(** A visible [sessionid] cookie is returned, decoded, and the instance
    is left as it was. *)
Lemma getSessionID_found Request_cookie decodeURIComponent host st v s :
  Forall (fun c => wf_cookie c = true) (visible_cookies host st) ->
  lookup_sessionid (visible_cookies host st) = Some v ->
  decodeURIComponent v = Ok s ->
  getSessionID Request_cookie decodeURIComponent host st = (Ok s, st).
Proof.
  intros Hwf Hl Hd. unfold getSessionID.
  rewrite bind_run, jar_getCookieString_run, find_sessionid_visible.
  - rewrite Hl. cbn [decode_found]. rewrite Hd. reflexivity.
  - intros E. rewrite E in Hl. discriminate.
  - exact Hwf.
Qed.

(** What [getSessionID] does when the loop reads every piece of the
    cookie string, that is for a host whose visible cookies are
    well-formed and not none: when a [sessionid] cookie is visible, its
    decoded value is returned and the instance, its jar included, is
    left as it was; when none is visible and the host is on one of the
    three collaborating domains, [getSessionID] returns a new identifier
    of 24 hexadecimal characters (12 bytes of the entropy source),
    writes it as a non-secure cookie under the three domains, and a
    second call for the same host returns the same identifier and
    changes nothing. *)
Theorem getSessionID_idempotent
    (Request_cookie : string -> option Cookie)
    (decodeURIComponent : string -> Res string) (host : string) (st : Client) :
  Forall (fun c => wf_cookie c = true) (visible_cookies host st) ->
  visible_cookies host st <> [] ->
  (forall v s,
      lookup_sessionid (visible_cookies host st) = Some v ->
      decodeURIComponent v = Ok s ->
      getSessionID Request_cookie decodeURIComponent host st = (Ok s, st))
  /\ (lookup_sessionid (visible_cookies host st) = None ->
      In (Jar.url_host host) DOMAINS ->
      forall ck,
        Request_cookie ("sessionid=" ++ next_sessionID st) = Some ck ->
        key ck = "sessionid" -> value ck = next_sessionID st -> expires ck = None ->
        decodeURIComponent (next_sessionID st) = Ok (next_sessionID st) ->
        let run := getSessionID Request_cookie decodeURIComponent host st in
        fst run = Ok (next_sessionID st)
        /\ String.length (next_sessionID st) = 24
        /\ all_chars is_hex (next_sessionID st) = true
        /\ jar_writes (log (snd run))
           = (jar_writes (log st) ++ replicas (cookie_with_secure ck false))%list
        /\ getSessionID Request_cookie decodeURIComponent host (snd run)
           = (Ok (next_sessionID st), snd run)).
Proof.
  intros Hwf Hne. split.
  - intros v s Hl Hd. apply getSessionID_found with (v := v); assumption.
  - intros Hl Hdom ck Hck Hkey Hval Hexp Hdec run.
    destruct (next_sessionID_spec st) as (Hlen & Hhex & Hpiece & Hid).
    assert (Hrun : run = bind (_setCookie (Some ck) JsUndefined)
                           (fun _ => ret (next_sessionID st))
                           (set_entropy_pos (entropy_pos st + 12) st)).
    { subst run. unfold getSessionID.
      rewrite bind_run, jar_getCookieString_run, (find_sessionid_visible _ _ _ Hne Hwf), Hl.
      cbn [decode_found]. rewrite bind_run, generateSessionID_run, Hck. reflexivity. }
    set (st0 := set_entropy_pos (entropy_pos st + 12) st) in *.
    destruct (_setCookie_run ck JsUndefined st0) as (st1 & Hset & Hlog & _).
    pose proof (_setCookie_http_jar ck st0) as [Hjar Hnow].
    rewrite Hset in Hjar, Hnow. cbn [snd] in Hjar, Hnow.
    rewrite bind_run, Hset in Hrun. cbv beta delta [ret] in Hrun.
    rewrite Hrun. cbn [fst snd].
    split; [reflexivity|]. split; [exact Hlen|]. split; [exact Hhex|]. split.
    { rewrite Hlog, jar_writes_app, jar_writes_replicas. reflexivity. }
    set (c' := cookie_with_secure ck false) in *.
    assert (Hc' : wf_cookie c' = true).
    { destruct (piece_chars_inner _ Hpiece) as [Hinner Htrim].
      unfold wf_cookie, c'. cbn [key value cookie_with_secure].
      rewrite Hkey, Hval, Hinner, Htrim.
      destruct (next_sessionID st); [contradiction | reflexivity]. }
    destruct (visible_after_setCookie (now st) host c' (_jar st) Hdom eq_refl)
      as (l1 & l2 & H1 & H2).
    { unfold Jar.expired, c'. cbn [expires cookie_with_secure]. rewrite Hexp. reflexivity. }
    { apply lookup_sessionid_none in Hl. unfold c'. cbn [key cookie_with_secure].
      rewrite Hkey. exact Hl. }
    assert (Hvis : visible_cookies host st1
                   = (map Jar.cookie l1 ++ c' :: map Jar.cookie l2)%list).
    { unfold visible_cookies. rewrite Hnow, Hjar. change (now st0) with (now st).
      change (_jar st0) with (_jar st). rewrite H2, map_app. reflexivity. }
    assert (Hold : visible_cookies host st = (map Jar.cookie l1 ++ map Jar.cookie l2)%list).
    { unfold visible_cookies. rewrite H1, map_app. reflexivity. }
    apply getSessionID_found with (v := next_sessionID st).
    + rewrite Hvis. rewrite Hold in Hwf. apply Forall_app in Hwf as [Hw1 Hw2].
      apply Forall_app. split; [exact Hw1|]. constructor; assumption.
    + rewrite Hvis, lookup_sessionid_app. rewrite Hold, lookup_sessionid_app in Hl.
      destruct (lookup_sessionid (map Jar.cookie l1)); [discriminate|].
      cbn [lookup_sessionid]. unfold c' at 1. cbn [key cookie_with_secure].
      rewrite Hkey, String.eqb_refl.
      unfold c'. cbn [value cookie_with_secure]. rewrite Hval. reflexivity.
    + exact Hdec.
Qed.

(** The first two calls during a mobile login, while the cookie
    [mobileClientVersion=0 (2.1.3)] is listed for the default host. *)
Lemma getSessionID_idempotent_witness :
  let st := snd (login_begin Sample.cookie Sample.encodeURIComponent Sample.creds
                             Sample.fresh) in
  let run := Sample.getSessionID default_host st in
  map Jar.cookie_string (visible_cookies default_host st)
  = ["Steam_Language=english"; "timezoneOffset=0,0";
     "mobileClientVersion=0 (2.1.3)"; "mobileClient=android"]
  /\ fst run = Ok "000000000000000000000000"
  /\ Sample.getSessionID default_host (snd run) = (Ok "000000000000000000000000", snd run).
Proof.
  intros st run.
  destruct (proj2 (getSessionID_idempotent Sample.cookie Sample.decodeURIComponent
                     default_host st
                     ltac:(vm_compute; repeat constructor)
                     ltac:(vm_compute; discriminate))
              ltac:(vm_compute; reflexivity)
              ltac:(vm_compute; auto)
              (mkCookie "sessionid" "000000000000000000000000" false None)
              ltac:(vm_compute; reflexivity) eq_refl
              ltac:(vm_compute; reflexivity) eq_refl
              ltac:(vm_compute; reflexivity))
    as (H1 & _ & _ & _ & H2).
  split; [vm_compute; reflexivity|]. split; [exact H1 | exact H2].
Defined.

(** C9, the failing input.  Once a cookie with an empty value is listed
    for the default host (here [foo=], imported by [setCookies]) and no
    [sessionid] cookie is, [getSessionID] does not generate an
    identifier: the expression of the loop does not match the piece
    [foo=], and the reading of the match raises an exception; no byte of
    entropy is drawn and nothing is written to the jar.  [setCookies]
    itself reads the same text without an exception.  The same happens
    for a host that sees no cookie at all, where the only piece is the
    empty text. *)
Theorem getSessionID_unmatched_piece_throws :
  let st := snd (Sample.setCookies ["foo="] Sample.fresh) in
  let run := Sample.getSessionID default_host st in
  let run' := Sample.getSessionID "http://example.com" Sample.fresh in
  fst (Sample.setCookies ["foo="] Sample.fresh) = Ok tt
  /\ map Jar.cookie_string (visible_cookies default_host st)
     = ["Steam_Language=english"; "timezoneOffset=0,0"; "foo="]
  /\ lookup_sessionid (visible_cookies default_host st) = None
  /\ fst run = Throw TypeError
  /\ entropy_pos (snd run) = entropy_pos st
  /\ jar_writes (log (snd run)) = jar_writes (log st)
  /\ visible_cookies "http://example.com" Sample.fresh = []
  /\ fst run' = Throw TypeError
  /\ jar_writes (log (snd run')) = jar_writes (log Sample.fresh).
Proof. vm_compute. repeat split. Qed.

(** * Further properties *)

(** ** The cache of the profile URL never outlives its timer *)

Lemma cache_timed_setCookie c v : preserves cache_timed (_setCookie c v).
Proof. apply untouched_setCookie; intros; assumption. Qed.

Lemma cache_timed_emit_log e : preserves cache_timed (emit_log e).
Proof. apply untouched_emit_log. intros; assumption. Qed.

Lemma cache_timed_uncache (st : Client) :
  cache_timed st -> cache_timed (set_profileURL None st).
Proof. intros _ url H. discriminate. Qed.

Lemma cache_timed_elapse d : preserves cache_timed (elapse d).
Proof.
  apply preserves_modify. intros st H url Hc.
  rewrite cached_run_timers in Hc. cbn [now timers set_now] in Hc.
  destruct (existsb (due (now st + d)) (timers st)) eqn:E; [discriminate|].
  change (cached_profileURL (set_now (now st + d)%N st)) with (cached_profileURL st) in Hc.
  destruct (H url Hc) as (t & Hin & Hlt & Hle).
  assert (Ht : due (now st + d) t = false).
  { destruct (due (now st + d) t) eqn:Ed; [|reflexivity].
    rewrite <- E. symmetry. apply existsb_exists. exists t. split; assumption. }
  exists t. rewrite now_run_timers, timers_run_timers. cbn [now timers set_now].
  unfold due in Ht. apply N.leb_gt in Ht. split; [|lia].
  apply filter_In. split; [exact Hin|]. unfold due.
  apply negb_true_iff, N.leb_gt. exact Ht.
Qed.

Lemma cache_timed_completeRequest e f url : preserves cache_timed (completeRequest e f url).
Proof. unfold completeRequest. apply cache_timed_emit_log. Qed.

Lemma cache_timed_callback args : preserves cache_timed (callback args).
Proof. apply cache_timed_emit_log. Qed.

Lemma cache_timed_httpRequest {B} m u f h (r : HttpReply B) :
  preserves cache_timed (httpRequest m u f h r).
Proof.
  apply stable_httpRequest; [apply cache_timed_elapse | intros; apply cache_timed_emit_log].
Qed.

Lemma cache_timed_resolved (url : string) (st : Client) :
  cache_timed (set_timers (timers st ++ [(now st + EXPIRY)%N]) (set_profileURL (Some url) st)).
Proof.
  intros u _. exists (now st + EXPIRY)%N. cbn [timers now set_timers set_profileURL].
  split; [apply in_or_app; right; left; reflexivity|]. unfold EXPIRY. lia.
Qed.

Lemma cache_timed_myProfile e f my : preserves cache_timed (_myProfile e f my).
Proof.
  unfold _myProfile. apply preserves_bind; [apply preserves_get | intros s].
  destruct (cached_profileURL s); [apply cache_timed_completeRequest|].
  apply preserves_bind; [apply cache_timed_httpRequest | intros r].
  destruct (err r); [apply cache_timed_callback|].
  destruct (negb _); [apply cache_timed_callback|].
  destruct (location r) as [loc|]; [|apply preserves_throw].
  destruct (Str.match_profile loc) as [url|]; [|apply cache_timed_callback].
  intros st _. rewrite !bind_run. cbn [modify setTimeout_deleteProfileURL].
  apply cache_timed_completeRequest. exact (cache_timed_resolved url st).
Qed.

(** X1.  Every cached profile URL has a pending timer due within 60
    seconds: this holds of a new client, every method keeps it, and it
    makes the cache empty once 60 seconds have passed without a new
    resolution. *)
Theorem profile_cache_never_outlives_60_seconds
    Request_cookie encodeURIComponent decodeURIComponent SteamID_new
    RSA_encrypt JSON_parse_oauth :
  (forall mua t0 ent,
      cache_timed (snd (SteamCommunity Request_cookie mua (blank t0 ent))))
  /\ (forall st, cache_timed st ->
        (forall details rsa dologin,
            cache_timed (snd (login Request_cookie encodeURIComponent decodeURIComponent
                                    SteamID_new RSA_encrypt JSON_parse_oauth
                                    details rsa dologin st)))
        /\ (forall e f my, cache_timed (snd (_myProfile e f my st)))
        /\ (forall cookies, cache_timed (snd (setCookies Request_cookie SteamID_new cookies st)))
        /\ (forall host, cache_timed (snd (getSessionID Request_cookie decodeURIComponent host st)))
        /\ (forall r, cache_timed (snd (getClientLogonToken SteamID_new r st)))
        /\ (forall d, cache_timed (snd (elapse d st)))
        /\ (forall d, (60000 <= d)%N -> cached_profileURL (snd (elapse d st)) = None)).
Proof.
  split.
  - intros mua t0 ent. unfold SteamCommunity. rewrite bind_run. cbn [modify].
    match goal with |- cache_timed (snd (?m ?s)) =>
      assert (Hp : preserves cache_timed m) end.
    { pres; apply cache_timed_setCookie. }
    apply Hp. intros url H. discriminate.
  - intros st H. repeat split.
    + intros. apply stable_login;
        first [ apply cache_timed_setCookie | apply cache_timed_elapse
              | intros; apply cache_timed_emit_log
              | intros ? s Hs; exact Hs
              | exact cache_timed_uncache
              | exact H ].
    + intros. apply cache_timed_myProfile. exact H.
    + intros. apply stable_setCookies;
        first [ apply cache_timed_setCookie | intros ? s Hs; exact Hs | exact H ].
    + intros. apply stable_getSessionID;
        first [ apply cache_timed_setCookie | intros ? s Hs; exact Hs | exact H ].
    + intros. apply stable_getClientLogonToken;
        first [ apply cache_timed_elapse | intros; apply cache_timed_emit_log | exact H ].
    + intros. apply cache_timed_elapse. exact H.
    + intros d Hd. destruct (cached_profileURL st) as [url|] eqn:Hc.
      * destruct (H url Hc) as (t & Hin & _ & Hle).
        apply (due_timer_evicts st t d Hin). unfold EXPIRY in Hle. lia.
      * cbn [elapse modify snd]. rewrite cached_run_timers.
        destruct (existsb _ _); [reflexivity | exact Hc].
Qed.

(** A cache filled by a resolution on a fresh client is empty a minute
    later. *)
Lemma profile_cache_never_outlives_witness :
  let my := mkReply 0 None 302 (Some "https://steamcommunity.com/id/gabe/") tt in
  let st := snd (_myProfile (EndpointPath "edit") None my Sample.fresh) in
  cached_profileURL st = Some "/id/gabe"
  /\ cached_profileURL (snd (elapse 60000 st)) = None.
Proof.
  intros my st. split; [vm_compute; reflexivity|].
  refine (proj2 (proj2 (proj2 (proj2 (proj2 (proj2 (proj2
    (profile_cache_never_outlives_60_seconds Sample.cookie Sample.encodeURIComponent
       Sample.decodeURIComponent Sample.SteamID_new Sample.RSA_encrypt
       Sample.JSON_parse_oauth) st _)))))) 60000%N _).
  - intros url _. exists 60000%N. vm_compute. repeat split; auto; discriminate.
  - vm_compute. discriminate.
Defined.

(** ** [login]: the requests of an attempt *)

Lemma requests_are_setCookie r0 c v : preserves (requests_are r0) (_setCookie c v).
Proof. apply requests_setCookie. Qed.

Lemma requests_are_callback r0 args : preserves (requests_are r0) (emit_log (EvCallback args)).
Proof.
  intros st H. unfold requests_are. simpl. rewrite requests_app. simpl.
  rewrite app_nil_r. exact H.
Qed.

Lemma requests_are_emit r0 ev e : preserves (requests_are r0) (emit_log (EvEmit ev e)).
Proof.
  intros st H. unfold requests_are. simpl. rewrite requests_app. simpl.
  rewrite app_nil_r. exact H.
Qed.

Lemma requests_are_elapse r0 d : preserves (requests_are r0) (elapse d).
Proof.
  apply preserves_modify. intros st H. unfold requests_are.
  rewrite log_run_timers. exact H.
Qed.

Lemma requests_are_deleteMobileCookies Request_cookie r0 :
  preserves (requests_are r0) (deleteMobileCookies Request_cookie).
Proof. apply stable_deleteMobileCookies. apply requests_are_setCookie. Qed.

Lemma requests_are_login_on_dologin Request_cookie decodeURIComponent SteamID_new
    JSON_parse_oauth r0 d r2 :
  preserves (requests_are r0)
    (login_on_dologin Request_cookie decodeURIComponent SteamID_new JSON_parse_oauth d r2).
Proof.
  apply stable_login_on_dologin;
    first [ apply requests_are_setCookie | apply requests_are_callback
          | intros ? s H; exact H ].
Qed.

Lemma requests_after_httpRequest {B} m u f h (r : HttpReply B) (st : Client) :
  requests (log (snd (httpRequest m u f h r st))) = (requests (log st) ++ [(m, u)])%list.
Proof.
  rewrite httpRequest_run. cbn [snd]. rewrite log_run_timers. cbn [log set_now set_log].
  rewrite requests_app. reflexivity.
Qed.

(** X2.  An attempt that gets past [login_begin] asks for the key, then
    submits the form if and only if the key arrived without a transport
    error, with both its fields, and the password could be encrypted;
    it issues no other request.  An attempt that [login_begin] aborts
    issues none. *)
Theorem login_request_sequence
    Request_cookie encodeURIComponent decodeURIComponent SteamID_new
    RSA_encrypt JSON_parse_oauth
    (details : Details) (rsa : HttpReply RsaBody) (dologin : HttpReply LoginBody)
    (st : Client) :
  let run := login Request_cookie encodeURIComponent decodeURIComponent SteamID_new
                   RSA_encrypt JSON_parse_oauth details rsa dologin st in
  (forall headers,
      fst (login_begin Request_cookie encodeURIComponent details st) = Ok headers ->
      requests (log (snd run))
      = (requests (log st) ++
         ("POST", GETRSAKEY_URI)
         :: (if key_usable RSA_encrypt details rsa then [("POST", DOLOGIN_URI)] else []))%list)
  /\ (forall e,
        fst (login_begin Request_cookie encodeURIComponent details st) = Throw e ->
        fst run = Throw e /\ requests (log (snd run)) = requests (log st)).
Proof.
  intros run. subst run. unfold login. rewrite bind_run.
  assert (R0 := stable_login_begin Request_cookie encodeURIComponent
                  (requests_are (requests (log st))) (requests_are_setCookie _)
                  (fun s H => H) details st eq_refl).
  destruct (login_begin Request_cookie encodeURIComponent details st) as [[h|e0] s0];
    cbn [fst snd] in *; split; try discriminate.
  2: { intros e He. injection He as <-. split; [reflexivity | exact R0]. }
  intros headers _. rewrite bind_run. unfold httpRequestPost.
  pose proof (requests_after_httpRequest "POST" GETRSAKEY_URI
                [("username", accountName details)] h rsa s0) as R1.
  rewrite httpRequest_run in *. cbn [snd] in R1. set (s1 := run_timers _) in *.
  unfold requests_are in R0. rewrite R0 in R1. clearbody s1.
  unfold login_on_rsakey, key_usable.
  destruct (err rsa) as [x|].
  { cbv beta iota. transitivity (requests (log s1)); [|exact R1].
    assert (Hp : preserves (requests_are (requests (log s1)))
                   (deleteMobileCookies Request_cookie ;; callback [ArgError x])).
    { apply preserves_bind; [apply requests_are_deleteMobileCookies|].
      intros _. apply requests_are_callback. }
    apply Hp. reflexivity. }
  destruct (truthy (publickey_mod (body rsa)) && truthy (publickey_exp (body rsa))) eqn:Hk.
  - apply andb_true_iff in Hk as [Hm He]. rewrite Hm, He. cbn [negb orb andb].
    destruct (RSA_encrypt _ _ _) as [enc|x]; cbv beta iota.
    + rewrite bind_lift_ok, bind_run. cbn [get]. rewrite bind_run.
      pose proof (requests_after_httpRequest "POST" DOLOGIN_URI
                    (formObj s1 details (body rsa) enc) h dologin s1) as R2.
      rewrite httpRequest_run in *. cbn [snd] in R2. set (s2 := run_timers _) in *.
      rewrite R1 in R2. rewrite <- app_assoc in R2. cbn [app] in R2.
      transitivity (requests (log s2)); [|exact R2].
      apply requests_are_login_on_dologin. reflexivity.
    + rewrite bind_run. cbn [lift throw snd]. exact R1.
  - assert (Hn : negb (truthy (publickey_mod (body rsa)))
                 || negb (truthy (publickey_exp (body rsa))) = true).
    { apply andb_false_iff in Hk as [Hk|Hk]; rewrite Hk; [reflexivity | apply orb_true_r]. }
    rewrite Hn. cbv beta iota. transitivity (requests (log s1)); [|exact R1].
    assert (Hp : preserves (requests_are (requests (log s1)))
                   (deleteMobileCookies Request_cookie ;;
                    callback [ArgError (Error "Invalid RSA key received")])).
    { apply preserves_bind; [apply requests_are_deleteMobileCookies|].
      intros _. apply requests_are_callback. }
    apply Hp. reflexivity.
Qed.

(** An attempt whose key arrives without a modulus: the key request is
    the only one. *)
Lemma login_request_sequence_witness :
  let rsa := Sample.reply (mkRsaBody JsUndefined (JsStr "010001") (JsStr "1000")) in
  requests (log (snd (Sample.login Sample.creds rsa (Sample.reply login_ok_body)
                        Sample.fresh)))
  = (requests (log Sample.fresh) ++ [("POST", GETRSAKEY_URI)])%list.
Proof.
  intros rsa.
  refine (proj1 (login_request_sequence Sample.cookie Sample.encodeURIComponent
                   Sample.decodeURIComponent Sample.SteamID_new Sample.RSA_encrypt
                   Sample.JSON_parse_oauth Sample.creds rsa (Sample.reply login_ok_body)
                   Sample.fresh)
                (mobileHeaders Sample.fresh Sample.creds) _).
  vm_compute. reflexivity.
Defined.

(** ** [setCookies]: a list with a malformed entry *)

Lemma forEach_app {A} (f : A -> M unit) (l1 l2 : list A) (st : Client) :
  forEach f (l1 ++ l2) st = (forEach f l1 ;; forEach f l2) st.
Proof.
  revert st. induction l1 as [|x l1 IH]; intros st; cbn [app forEach].
  - reflexivity.
  - rewrite !bind_run. destruct (f x st) as [[[]|e] s]; [|reflexivity].
    rewrite IH, bind_run. reflexivity.
Qed.

Lemma _setCookie_ok (c : Cookie) (v : JsVal) (st : Client) :
  fst (_setCookie (Some c) v st) = Ok tt.
Proof. destruct (_setCookie_run c v st) as (st' & -> & _). reflexivity. Qed.

(** An entry that makes [setCookies] throw has written nothing. *)
Lemma setCookies_each_throw Request_cookie SteamID_new cookie st e st' :
  setCookies_each Request_cookie SteamID_new cookie st = (Throw e, st') ->
  _jar st' = _jar st /\ log st' = log st.
Proof.
  unfold setCookies_each.
  destruct (Str.match_name_eq cookie) as [n|];
    [|intros H; injection H as _ <-; split; reflexivity].
  rewrite bind_run.
  destruct (is_login_name n).
  - destruct (Str.match_eq_digits cookie) as [d|];
      [|intros H; injection H as _ <-; split; reflexivity].
    destruct (SteamID_new (JsStr d)) as [sid|x];
      [|intros H; injection H as _ <-; split; reflexivity].
    cbn [modify]. destruct (Request_cookie cookie) as [c|].
    + intros H. pose proof (_setCookie_ok c (JsBool (secure_name n))
                              (set_steamID (Some sid) st)) as Hok.
      rewrite H in Hok. discriminate.
    + intros H. injection H as _ <-. split; reflexivity.
  - cbn [ret]. destruct (Request_cookie cookie) as [c|].
    + intros H. pose proof (_setCookie_ok c (JsBool (secure_name n)) st) as Hok.
      rewrite H in Hok. discriminate.
    + intros H. injection H as _ <-. split; reflexivity.
Qed.

(** X3.  [setCookies] works through its list in order and stops at the
    first entry that throws: the entries before it stay written, the
    failing entry writes nothing to the jar (it may have set the
    identity), and the entries after it are not looked at. *)
Theorem setCookies_stops_at_first_failure
    (Request_cookie : string -> option Cookie) (SteamID_new : JsVal -> Res string)
    (before after : list string) (bad : string) (st st1 st2 : Client) (e : JsError) :
  setCookies Request_cookie SteamID_new before st = (Ok tt, st1) ->
  setCookies_each Request_cookie SteamID_new bad st1 = (Throw e, st2) ->
  setCookies Request_cookie SteamID_new (before ++ bad :: after) st = (Throw e, st2)
  /\ _jar st2 = _jar st1
  /\ jar_writes (log st2) = jar_writes (log st1).
Proof.
  intros H1 H2. split.
  - unfold setCookies in *. rewrite forEach_app, bind_run, H1.
    cbn [forEach]. rewrite bind_run, H2. reflexivity.
  - destruct (setCookies_each_throw _ _ _ _ _ _ H2) as [Hj Hl].
    split; [exact Hj | rewrite Hl; reflexivity].
Qed.

(** The list [a=1], [oops], [b=2] on a fresh client: [a] is written,
    [b] is not. *)
Lemma setCookies_stops_at_first_failure_witness :
  let run := Sample.setCookies ["a=1"; "oops"; "b=2"] Sample.fresh in
  fst run = Throw TypeError
  /\ Jar.getCookieString 0 default_host (_jar (snd run))
     = "Steam_Language=english; timezoneOffset=0,0; a=1".
Proof.
  intros run.
  destruct (setCookies_stops_at_first_failure Sample.cookie Sample.SteamID_new
              ["a=1"] ["b=2"] "oops" Sample.fresh
              (snd (Sample.setCookies ["a=1"] Sample.fresh))
              (snd (Sample.setCookies ["a=1"] Sample.fresh)) TypeError
              ltac:(vm_compute; reflexivity) ltac:(vm_compute; reflexivity))
    as (H & _ & _).
  subst run. unfold Sample.setCookies. cbn [app] in H. rewrite H.
  split; [reflexivity | vm_compute; reflexivity].
Defined.

(** ** [getClientLogonToken]: every reply *)

Ltac log_projections :=
  repeat (progress
    (cbn [fst snd callback emit_log modify set_log set_now log _notifySessionExpired
          bind ret requests callbacks emitted app];
     repeat rewrite ?requests_app, ?callbacks_app, ?emitted_app, ?log_run_timers));
  repeat rewrite ?app_nil_r.

(** X4.  Whatever the reply, [getClientLogonToken] issues one request and
    invokes the callback once, except that it does not invoke it when
    the SteamID of a complete reply cannot be built; and it emits
    [sessionExpired] only for a reply without transport error, with
    status 200 and a falsy [logged_in]. *)
Theorem getClientLogonToken_outcomes
    (SteamID_new : JsVal -> Res string) (r : HttpReply TokenBody) (st : Client) :
  let run := getClientLogonToken SteamID_new r st in
  requests (log (snd run)) = (requests (log st) ++ [("GET", TOKEN_URI)])%list
  /\ ((exists args, callbacks (log (snd run)) = (callbacks (log st) ++ [args])%list
                    /\ fst run = Ok tt)
      \/ (callbacks (log (snd run)) = callbacks (log st)
          /\ exists e, fst run = Throw e /\ SteamID_new (steamid (body r)) = Throw e))
  /\ (emitted (log (snd run)) <> emitted (log st) ->
      err r = None /\ statusCode r = 200%Z /\ truthy (logged_in (body r)) = false).
Proof.
  intros run. subst run. unfold getClientLogonToken, httpRequestGet.
  rewrite bind_run, httpRequest_run.
  destruct (err r) as [x|].
  { log_projections. split; [reflexivity|]. split; [left; eexists; split; reflexivity|].
    intros H; contradiction H; reflexivity. }
  destruct (statusCode r =? 200)%Z eqn:Hs; cbn [negb].
  2: { log_projections. split; [reflexivity|]. split; [left; eexists; split; reflexivity|].
       intros H; contradiction H; reflexivity. }
  apply Z.eqb_eq in Hs.
  destruct (truthy (logged_in (body r))) eqn:Hl; cbn [negb].
  2: { log_projections. split; [reflexivity|]. split; [left; eexists; split; reflexivity|].
       intros _. repeat split; assumption. }
  destruct (negb (truthy (steamid (body r))) || negb (truthy (account_name (body r)))
            || negb (truthy (token (body r)))).
  { log_projections. split; [reflexivity|]. split; [left; eexists; split; reflexivity|].
    intros H; contradiction H; reflexivity. }
  rewrite bind_run. destruct (SteamID_new (steamid (body r))) as [sid|e]; cbn [lift ret throw].
  - log_projections. split; [reflexivity|]. split; [left; eexists; split; reflexivity|].
    intros H; contradiction H; reflexivity.
  - log_projections. split; [reflexivity|]. split.
    + right. split; [reflexivity|]. exists e. split; reflexivity.
    + intros H; contradiction H; reflexivity.
Qed.

(** A reply with status 200 and no [logged_in] flag, on a fresh
    client. *)
Lemma getClientLogonToken_outcomes_witness :
  let r := mkReply 0 None 200 None
             (mkTokenBody JsUndefined JsUndefined JsUndefined JsUndefined) in
  err r = None /\ statusCode r = 200%Z /\ truthy (logged_in (body r)) = false.
Proof.
  intros r.
  refine (proj2 (proj2 (getClientLogonToken_outcomes Sample.SteamID_new r Sample.fresh)) _).
  vm_compute. discriminate.
Defined.

(** ** [loggedIn] and [_myProfile] read the same redirect *)

Lemma cached_on_my_reply (my : HttpReply unit) (st : Client) :
  cached_profileURL st = None -> cached_profileURL (on_my_reply my st) = None.
Proof.
  intros H. unfold on_my_reply. rewrite cached_run_timers.
  destruct (existsb _ _); [reflexivity | exact H].
Qed.

(** X5.  On a redirect (status 302) [loggedIn] reports a logged-in
    session exactly when [_myProfile], given the same reply on an empty
    cache, resolves and caches a profile URL; on status 403 [loggedIn]
    reports a logged-in session under family view, while [_myProfile]
    reports [HTTP error 403]. *)
Theorem loggedIn_agrees_with_myProfile
    (e : Endpoint) (f : option (list (string * JsVal))) (r : HttpReply unit) (st : Client) :
  err r = None -> cached_profileURL st = None ->
  (forall loc,
      statusCode r = 302%Z -> location r = Some loc ->
      exists b,
        callbacks (log (snd (loggedIn r st)))
        = (callbacks (log st) ++
           [[ArgVal JsNull; ArgVal (JsBool b); ArgVal (JsBool false)]])%list
        /\ (b = true <->
            exists url, cached_profileURL (snd (_myProfile e f r st)) = Some url))
  /\ (statusCode r = 403%Z ->
      callbacks (log (snd (loggedIn r st)))
      = (callbacks (log st) ++
         [[ArgVal JsNull; ArgVal (JsBool true); ArgVal (JsBool true)]])%list
      /\ callbacks (log (snd (_myProfile e f r st)))
         = (callbacks (log st) ++ [[ArgVal (JsStr "HTTP error 403")]])%list).
Proof.
  intros He Hc. split.
  - intros loc Hs Hl.
    exists (match Str.match_profile loc with Some _ => true | None => false end).
    split.
    + unfold loggedIn, httpRequestGet. rewrite bind_run, httpRequest_run.
      rewrite He, Hs, Hl. cbn [Z.eqb Pos.eqb negb andb]. log_projections. reflexivity.
    + destruct (Str.match_profile loc) as [url|] eqn:Hm.
      * split; [intros _|reflexivity]. exists url.
        rewrite (myProfile_resolve e f r st loc url Hc He Hs Hl Hm).
        destruct (completeRequest_run e f url
                    (set_timers (timers (on_my_reply r st) ++
                                 [(now (on_my_reply r st) + EXPIRY)%N])
                       (set_profileURL (Some url) (on_my_reply r st))))
          as (m & path & ->).
        pose proof (match_profile_nonempty _ _ Hm).
        destruct url; [contradiction | reflexivity].
      * split; [discriminate|]. intros [url Hu]. exfalso.
        unfold _myProfile in Hu. rewrite bind_run in Hu. cbn [get] in Hu.
        rewrite Hc, bind_run, httpRequest_run in Hu. fold (on_my_reply r st) in Hu.
        rewrite He, Hs, Hl, Hm in Hu. cbn [Z.eqb Pos.eqb negb] in Hu.
        cbn [callback emit_log modify snd] in Hu.
        change (cached_profileURL (set_log ?l ?s)) with (cached_profileURL s) in Hu.
        rewrite (cached_on_my_reply r st Hc) in Hu. discriminate.
  - intros Hs. split.
    + unfold loggedIn, httpRequestGet. rewrite bind_run, httpRequest_run.
      rewrite He, Hs. cbn [Z.eqb Pos.eqb negb andb]. log_projections. reflexivity.
    + unfold _myProfile. rewrite bind_run. cbn [get].
      rewrite Hc, bind_run, httpRequest_run, He, Hs. cbn [Z.eqb Pos.eqb negb].
      log_projections. reflexivity.
Qed.

(** A redirect to the login page, on a fresh client. *)
Lemma loggedIn_agrees_with_myProfile_witness :
  let r := mkReply 0 None 302 (Some "https://steamcommunity.com/login/home/?goto=%2Fmy") tt in
  exists b,
    callbacks (log (snd (loggedIn r Sample.fresh)))
    = (callbacks (log Sample.fresh) ++
       [[ArgVal JsNull; ArgVal (JsBool b); ArgVal (JsBool false)]])%list
    /\ (b = true <->
        exists url,
          cached_profileURL (snd (_myProfile (EndpointPath "edit") None r Sample.fresh))
          = Some url).
Proof.
  intros r.
  exact (proj1 (loggedIn_agrees_with_myProfile (EndpointPath "edit") None r Sample.fresh
                  eq_refl ltac:(vm_compute; reflexivity))
           "https://steamcommunity.com/login/home/?goto=%2Fmy" eq_refl eq_refl).
Defined.

(** ** [parentalUnlock] *)

Lemma callbacks_are_setCookie c0 c v : preserves (callbacks_are c0) (_setCookie c v).
Proof.
  apply (logonly_setCookie (fun l => callbacks l = c0)).
  intros l c' url H. rewrite callbacks_app. simpl. rewrite app_nil_r. exact H.
Qed.

Lemma getSessionID_frame Request_cookie decodeURIComponent host st :
  let st' := snd (getSessionID Request_cookie decodeURIComponent host st) in
  requests (log st') = requests (log st)
  /\ callbacks (log st') = callbacks (log st)
  /\ _profileURL st' = _profileURL st /\ timers st' = timers st /\ now st' = now st
  /\ steamID st' = steamID st.
Proof.
  intros st'. subst st'. repeat split.
  - apply (stable_getSessionID Request_cookie decodeURIComponent
             (requests_are (requests (log st))));
      first [ apply requests_are_setCookie | intros ? s H; exact H | reflexivity ].
  - apply (stable_getSessionID Request_cookie decodeURIComponent
             (callbacks_are (callbacks (log st))));
      first [ apply callbacks_are_setCookie | intros ? s H; exact H | reflexivity ].
  - apply (stable_getSessionID Request_cookie decodeURIComponent
             (fun s => _profileURL s = _profileURL st));
      first [ apply untouched_setCookie; intros; assumption
            | intros ? s H; exact H | reflexivity ].
  - apply (stable_getSessionID Request_cookie decodeURIComponent
             (fun s => timers s = timers st));
      first [ apply untouched_setCookie; intros; assumption
            | intros ? s H; exact H | reflexivity ].
  - apply (stable_getSessionID Request_cookie decodeURIComponent
             (fun s => now s = now st));
      first [ apply untouched_setCookie; intros; assumption
            | intros ? s H; exact H | reflexivity ].
  - apply (stable_getSessionID Request_cookie decodeURIComponent
             (fun s => steamID s = steamID st));
      first [ apply untouched_setCookie; intros; assumption
            | intros ? s H; exact H | reflexivity ].
Qed.

(** X6.  [parentalUnlock] first obtains the session id; if that throws,
    nothing is requested.  Otherwise it posts the PIN with that session
    id, and on the reply invokes the callback once if it was given one
    and not at all if it was not; the callback is invoked without
    arguments (the unlock went through) exactly when the reply has no
    transport error and its [success] is the boolean [true]. *)
Theorem parentalUnlock_outcomes
    Request_cookie decodeURIComponent (AccessDenied LimitExceeded : Z)
    (pin : JsVal) (has_callback : bool) (reply : HttpReply (option UnlockBody))
    (st : Client) :
  let run := parentalUnlock Request_cookie decodeURIComponent AccessDenied LimitExceeded
                            pin has_callback reply st in
  (forall e st1,
      getSessionID Request_cookie decodeURIComponent default_host st = (Throw e, st1) ->
      run = (Throw e, st1) /\ requests (log st1) = requests (log st))
  /\ (forall sid st1,
        getSessionID Request_cookie decodeURIComponent default_host st = (Ok sid, st1) ->
        fst run = Ok tt
        /\ requests (log (snd run)) = (requests (log st) ++ [("POST", UNLOCK_URI)])%list
        /\ (has_callback = false -> callbacks (log (snd run)) = callbacks (log st))
        /\ (has_callback = true ->
            exists args,
              callbacks (log (snd run)) = (callbacks (log st) ++ [args])%list
              /\ (args = [] <->
                  err reply = None
                  /\ exists b, body reply = Some b /\ unlock_success b = JsBool true))).
Proof.
  intros run. subst run. unfold parentalUnlock. rewrite bind_run.
  pose proof (getSessionID_frame Request_cookie decodeURIComponent default_host st)
    as (Hr & Hc & _).
  destruct (getSessionID Request_cookie decodeURIComponent default_host st)
    as [[sid0|e0] s1]; cbn [snd] in Hr, Hc; split; try (intros; discriminate).
  2: { intros e st1 H. injection H as <- <-. split; [reflexivity | exact Hr]. }
  intros sid st1 H. injection H as <- <-.
  unfold httpRequestPost. rewrite bind_run, httpRequest_run.
  unfold parentalUnlock_on_reply.
  destruct has_callback; cbn [negb].
  2: { log_projections. rewrite Hr, Hc. repeat split; intros; discriminate. }
  destruct (err reply) as [x|].
  { log_projections. rewrite Hr, Hc. repeat split; try (intros; discriminate).
    intros _. eexists. split; [reflexivity|]. split; [discriminate|].
    intros [H _]. discriminate. }
  destruct (body reply) as [b|].
  2: { log_projections. rewrite Hr, Hc. repeat split; try (intros; discriminate).
       intros _. eexists. split; [reflexivity|]. split; [discriminate|].
       intros [_ (b & H & _)]. discriminate. }
  destruct (unlock_success b) as [| |ok| |] eqn:Hs;
    try (log_projections; rewrite Hr, Hc; repeat split; try (intros; discriminate);
         intros _; eexists; (split; [reflexivity|]); (split; [discriminate|]);
         intros [_ (b' & Hb & Hs')]; injection Hb as <-; rewrite Hs in Hs'; discriminate).
  destruct ok; cbn [negb].
  - log_projections. rewrite Hr, Hc. repeat split; try (intros; discriminate).
    intros _. exists []. split; [reflexivity|]. split; [|reflexivity].
    intros _. split; [reflexivity|]. exists b. split; [reflexivity | exact Hs].
  - destruct (strict_eq (eresult b) (JsNum AccessDenied));
      [|destruct (strict_eq (eresult b) (JsNum LimitExceeded))];
      log_projections; rewrite Hr, Hc; repeat split; try (intros; discriminate);
      intros _; eexists; (split; [reflexivity|]); (split; [discriminate|]);
      intros [_ (b' & Hb & Hs')]; injection Hb as <-; rewrite Hs in Hs'; discriminate.
Qed.

(** A wrong PIN on a fresh client. *)
Lemma parentalUnlock_outcomes_witness :
  let reply := Sample.reply (Some (mkUnlockBody (JsBool false) (JsNum 15))) in
  let run := SampleMore.parentalUnlock (JsStr "1234") true reply Sample.fresh in
  fst run = Ok tt
  /\ requests (log (snd run)) = (requests (log Sample.fresh) ++ [("POST", UNLOCK_URI)])%list.
Proof.
  intros reply run.
  destruct (proj2 (parentalUnlock_outcomes Sample.cookie Sample.decodeURIComponent
                     SampleMore.AccessDenied SampleMore.LimitExceeded
                     (JsStr "1234") true reply Sample.fresh)
              "000000000000000000000000"
              (snd (Sample.getSessionID default_host Sample.fresh))
              ltac:(vm_compute; reflexivity)) as (H1 & H2 & _).
  split; [exact H1 | exact H2].
Defined.

(** ** [getNotifications] *)

Lemma or_zero (v : JsVal) :
  truthy (Js.or v (JsNum 0)) = true \/ Js.or v (JsNum 0) = JsNum 0.
Proof. unfold Js.or. destruct (truthy v) eqn:E; [left; exact E | right; reflexivity]. Qed.

(** X7.  On a reply with counters, [getNotifications] hands over an
    object with the ten named counters: [trades] is counter 1 of the
    reply, [gameTurns] 2, [moderatorMessages] 3, [comments] 4, [items]
    5, [invites] 6, [gifts] 8, [chat] 9, [helpRequestReplies] 10 and
    [accountAlerts] 11, each handed over as it is when it is truthy and
    as the number 0 otherwise, so never [undefined]; the counters of
    index 7, of index 0 and of indices above 11 are not read. *)
Theorem getNotifications_counters
    (reply : HttpReply NotificationsBody) (counts : nat -> JsVal) (st : Client) :
  err reply = None -> body reply = Some counts ->
  let count := fun i => if truthy (counts i) then counts i else JsNum 0 in
  callbacks (log (snd (getNotifications reply st)))
  = (callbacks (log st)
     ++ [[ArgVal JsNull;
          ArgObject [ ("trades", count 1); ("gameTurns", count 2);
                      ("moderatorMessages", count 3); ("comments", count 4);
                      ("items", count 5); ("invites", count 6);
                      ("gifts", count 8); ("chat", count 9);
                      ("helpRequestReplies", count 10);
                      ("accountAlerts", count 11) ]]])%list
  /\ (forall i, truthy (count i) = true \/ count i = JsNum 0)
  /\ (forall counts',
        (forall i, 1 <= i <= 11 -> i <> 7 -> counts' i = counts i) ->
        getNotifications (mkReply (delay reply) None (statusCode reply) (location reply)
                                  (Some counts')) st
        = getNotifications reply st).
Proof.
  intros He Hb count. split; [|split].
  - unfold getNotifications, httpRequestGet. rewrite bind_run, httpRequest_run, He, Hb.
    log_projections. reflexivity.
  - intros i. apply (or_zero (counts i)).
  - intros counts' Hsame. unfold getNotifications, httpRequestGet.
    rewrite !bind_run, !httpRequest_run, He, Hb. cbn [err body delay].
    cbn [map notification_fields fst snd].
    rewrite !Hsame by lia. reflexivity.
Qed.

(** A reply that counts three comments and nothing else. *)
Lemma getNotifications_counters_witness :
  callbacks (log (snd (getNotifications
                         (Sample.reply (Some (fun i => if Nat.eqb i 4 then JsNum 3
                                                       else JsUndefined)))
                         Sample.fresh)))
  = (callbacks (log Sample.fresh)
     ++ [[ArgVal JsNull;
          ArgObject [ ("trades", JsNum 0); ("gameTurns", JsNum 0);
                      ("moderatorMessages", JsNum 0); ("comments", JsNum 3);
                      ("items", JsNum 0); ("invites", JsNum 0);
                      ("gifts", JsNum 0); ("chat", JsNum 0);
                      ("helpRequestReplies", JsNum 0);
                      ("accountAlerts", JsNum 0) ]]])%list.
Proof.
  exact (proj1 (getNotifications_counters
                  (Sample.reply (Some (fun i => if Nat.eqb i 4 then JsNum 3
                                                else JsUndefined)))
                  (fun i => if Nat.eqb i 4 then JsNum 3 else JsUndefined)
                  Sample.fresh eq_refl eq_refl)).
Defined.

(** ** [getFriendsList] *)

Lemma obj_get_set_same k v obj : obj_get k (obj_set k v obj) = Some v.
Proof.
  induction obj as [|[k' v'] obj IH]; cbn [obj_set obj_get].
  - rewrite String.eqb_refl. reflexivity.
  - destruct (String.eqb k' k) eqn:E; cbn [obj_get].
    + rewrite String.eqb_refl. reflexivity.
    + rewrite E. exact IH.
Qed.

Lemma obj_get_set_other k k0 v obj :
  String.eqb k k0 = false -> obj_get k0 (obj_set k v obj) = obj_get k0 obj.
Proof.
  intros Hne. induction obj as [|[k' v'] obj IH]; cbn [obj_set obj_get].
  - rewrite Hne. reflexivity.
  - destruct (String.eqb k' k) eqn:E; cbn [obj_get].
    + apply String.eqb_eq in E. subst k'. rewrite Hne. reflexivity.
    + rewrite IH. reflexivity.
Qed.

Lemma obj_set_keys k v obj :
  map fst (obj_set k v obj) = map fst obj /\ In k (map fst obj)
  \/ map fst (obj_set k v obj) = (map fst obj ++ [k])%list /\ ~ In k (map fst obj).
Proof.
  induction obj as [|[k' v'] obj IH]; cbn [obj_set map fst].
  - right. split; [reflexivity | intros []].
  - destruct (String.eqb k' k) eqn:E.
    + apply String.eqb_eq in E. subst k'. left. split; [reflexivity | left; reflexivity].
    + apply String.eqb_neq in E. cbn [map fst].
      destruct IH as [[H1 H2]|[H1 H2]].
      * left. rewrite H1. split; [reflexivity | right; exact H2].
      * right. rewrite H1. split; [reflexivity|]. intros [H|H]; [contradiction | exact (H2 H)].
Qed.

Lemma obj_set_NoDup k v obj : NoDup (map fst obj) -> NoDup (map fst (obj_set k v obj)).
Proof.
  intros H. destruct (obj_set_keys k v obj) as [[-> _]|[-> Hn]]; [exact H|].
  apply NoDup_app; [exact H | constructor; [intros [] | constructor] |].
  intros x Hx [<-|[]]. exact (Hn Hx).
Qed.

Lemma last_relationship_cons (k : string) (friend : JsVal * JsVal)
    (l : list (JsVal * JsVal)) (obj : list (string * JsVal)) :
  match last_relationship k (friend :: l) with
  | Some v => Some v
  | None => obj_get k obj
  end
  = match last_relationship k l with
    | Some v => Some v
    | None => obj_get k (obj_set (toString (fst friend)) (snd friend) obj)
    end.
Proof.
  cbn [last_relationship]. destruct (last_relationship k l); [reflexivity|].
  destruct (String.eqb (toString (fst friend)) k) eqn:E.
  - apply String.eqb_eq in E. subst k. symmetry. apply obj_get_set_same.
  - symmetry. apply obj_get_set_other. exact E.
Qed.

Lemma last_relationship_skip (k : string) (friend : JsVal * JsVal)
    (l : list (JsVal * JsVal)) :
  String.eqb (toString (fst friend)) k = false ->
  last_relationship k (friend :: l) = last_relationship k l.
Proof.
  intros E. cbn [last_relationship]. rewrite E.
  destruct (last_relationship k l); reflexivity.
Qed.

(** The object after a list of assignments, from an object whose
    properties have distinct names and which has no own property
    [__proto__] as long as it has its prototype. *)
Lemma fold_add_friend (l : list (JsVal * JsVal)) (obj0 : FriendsObj) :
  NoDup (map fst (own_props obj0)) ->
  (null_proto obj0 = false -> obj_get "__proto__" (own_props obj0) = None) ->
  let obj := fold_left add_friend l obj0 in
  NoDup (map fst (own_props obj))
  /\ (forall k, String.eqb k "__proto__" = false ->
                obj_get k (own_props obj)
                = match last_relationship k l with
                  | Some v => Some v
                  | None => obj_get k (own_props obj0)
                  end)
  /\ obj_get "__proto__" (own_props obj)
     = if null_proto obj0
       then match last_relationship "__proto__" l with
            | Some v => Some v
            | None => obj_get "__proto__" (own_props obj0)
            end
       else match after_null_proto l with
            | Some l' => last_relationship "__proto__" l'
            | None => None
            end.
Proof.
  revert obj0. induction l as [|[id rel] l IH]; intros obj0 Hnd Hown; cbn [fold_left].
  - cbv zeta. split; [exact Hnd|]. split; [reflexivity|].
    cbn [last_relationship after_null_proto].
    destruct (null_proto obj0) eqn:En; [reflexivity | exact (Hown eq_refl)].
  - cbv zeta.
    assert (Hstep : add_friend obj0 (id, rel)
                    = if String.eqb (toString id) "__proto__" && negb (null_proto obj0)
                         && negb (has_own (toString id) obj0)
                      then match rel with
                           | JsNull => mkFriendsObj (own_props obj0) true
                           | _ => obj0
                           end
                      else mkFriendsObj (obj_set (toString id) rel (own_props obj0))
                                        (null_proto obj0)) by reflexivity.
    rewrite Hstep. clear Hstep.
    destruct (String.eqb (toString id) "__proto__" && negb (null_proto obj0)
              && negb (has_own (toString id) obj0)) eqn:Ec.
    + (* the inherited setter *)
      apply andb_true_iff in Ec as [Ec _]. apply andb_true_iff in Ec as [Ei En].
      apply negb_true_iff in En. pose proof Ei as Ei'. apply String.eqb_eq in Ei'.
      assert (Hother : forall k, String.eqb k "__proto__" = false ->
                                 String.eqb (toString id) k = false).
      { intros k Hk. rewrite Ei', String.eqb_sym. exact Hk. }
      destruct (strict_eq rel JsNull) eqn:Er.
      * assert (rel = JsNull) by (destruct rel; try discriminate; reflexivity). subst rel.
        destruct (IH (mkFriendsObj (own_props obj0) true) Hnd ltac:(discriminate))
          as (H1 & H2 & H3).
        split; [exact H1|]. split.
        -- intros k Hk. rewrite (H2 k Hk), (last_relationship_skip k (id, JsNull) l);
             [reflexivity | exact (Hother k Hk)].
        -- rewrite H3, En. cbn [null_proto own_props after_null_proto fst snd strict_eq].
           rewrite Ei. cbn [andb]. rewrite (Hown En).
           destruct (last_relationship "__proto__" l); reflexivity.
      * assert (Hsame : match rel with
                        | JsNull => mkFriendsObj (own_props obj0) true
                        | _ => obj0
                        end = obj0) by (destruct rel; try reflexivity; discriminate).
        rewrite Hsame. destruct (IH obj0 Hnd Hown) as (H1 & H2 & H3).
        split; [exact H1|]. split.
        -- intros k Hk. rewrite (H2 k Hk), (last_relationship_skip k (id, rel) l);
             [reflexivity | exact (Hother k Hk)].
        -- rewrite H3, En. cbn [after_null_proto fst snd]. rewrite Er, andb_false_r.
           reflexivity.
    + (* an own property *)
      assert (Hproto : null_proto obj0 = false ->
                       String.eqb (toString id) "__proto__" = false).
      { intros En. destruct (String.eqb (toString id) "__proto__") eqn:Ei; [|reflexivity].
        apply String.eqb_eq in Ei. rewrite Ei in Ec. unfold has_own in Ec.
        rewrite En, (Hown En) in Ec. discriminate. }
      destruct (IH (mkFriendsObj (obj_set (toString id) rel (own_props obj0))
                                 (null_proto obj0)))
        as (H1 & H2 & H3).
      { apply obj_set_NoDup. exact Hnd. }
      { intros En. cbn [null_proto own_props] in *.
        rewrite (obj_get_set_other _ _ _ _ (Hproto En)). exact (Hown En). }
      cbn [null_proto own_props] in H2, H3.
      split; [exact H1|]. split.
      * intros k Hk. rewrite (H2 k Hk). symmetry.
        apply (last_relationship_cons k (id, rel) l).
      * rewrite H3. destruct (null_proto obj0) eqn:En.
        -- symmetry. apply (last_relationship_cons "__proto__" (id, rel) l).
        -- cbn [after_null_proto fst snd]. rewrite (Hproto eq_refl). reflexivity.
Qed.

(** X8.  On a successful reply with a list of friends, [getFriendsList]
    hands over an object with one property per identifier: the property
    of an identifier other than [__proto__] holds the relationship of
    the last friend of the list with that identifier, and an identifier
    that is not in the list has no property.  [__proto__] is no property
    unless a friend named [__proto__] has the relationship [null]: the
    first such friend sets the prototype of the object to [null] and
    adds no property, and from then on [__proto__] is a property like
    any other, holding the relationship of the last later friend of that
    name. *)
Theorem getFriendsList_last_relationship
    (eresultError : JsVal -> CbArg) (text_is_one : string -> bool)
    (reply : HttpReply FriendsBody) (l : list (JsVal * JsVal)) (st : Client) :
  err reply = None ->
  differs_from_one text_is_one (friends_success (body reply)) = false ->
  friends (body reply) = Some l ->
  exists obj,
    callbacks (log (snd (getFriendsList eresultError text_is_one reply st)))
    = (callbacks (log st) ++ [[ArgVal JsNull; ArgObject obj]])%list
    /\ NoDup (map fst obj)
    /\ (forall k, k <> "__proto__" -> obj_get k obj = last_relationship k l)
    /\ obj_get "__proto__" obj
       = match after_null_proto l with
         | Some l' => last_relationship "__proto__" l'
         | None => None
         end.
Proof.
  intros He Hs Hf.
  exists (own_props (fold_left add_friend l (mkFriendsObj [] false))).
  destruct (fold_add_friend l (mkFriendsObj [] false) (NoDup_nil _) (fun _ => eq_refl))
    as (Hnd & Hget & Hproto).
  split; [|split; [exact Hnd | split]].
  - unfold getFriendsList, httpRequestGet. rewrite bind_run, httpRequest_run, He, Hs, Hf.
    log_projections. reflexivity.
  - intros k Hk. apply String.eqb_neq in Hk. rewrite (Hget k Hk).
    destruct (last_relationship k l); reflexivity.
  - exact Hproto.
Qed.

(** A list that names one friend twice, first as a friend (3), then as
    blocked (1), and that names [__proto__] three times: with a number,
    which is dropped, with [null], which sets the prototype, and with a
    number again, which becomes a property. *)
Lemma getFriendsList_last_relationship_witness :
  exists obj,
    callbacks (log (snd (SampleMore.getFriendsList
                           (Sample.reply
                              (mkFriendsBody (JsNum 1)
                                 (Some [ (JsStr "76561198000000001", JsNum 3);
                                         (JsStr "__proto__", JsNum 2);
                                         (JsStr "__proto__", JsNull);
                                         (JsStr "76561198000000002", JsNum 3);
                                         (JsStr "__proto__", JsNum 5);
                                         (JsStr "76561198000000001", JsNum 1) ])))
                           Sample.fresh)))
    = (callbacks (log Sample.fresh) ++ [[ArgVal JsNull; ArgObject obj]])%list
    /\ obj_get "76561198000000001" obj = Some (JsNum 1)
    /\ obj_get "__proto__" obj = Some (JsNum 5).
Proof.
  destruct (getFriendsList_last_relationship SampleMore.eresultError SampleMore.text_is_one
              (Sample.reply
                 (mkFriendsBody (JsNum 1)
                    (Some [ (JsStr "76561198000000001", JsNum 3);
                            (JsStr "__proto__", JsNum 2);
                            (JsStr "__proto__", JsNull);
                            (JsStr "76561198000000002", JsNum 3);
                            (JsStr "__proto__", JsNum 5);
                            (JsStr "76561198000000001", JsNum 1) ])))
              _ Sample.fresh eq_refl eq_refl eq_refl) as (obj & H & _ & Hget & Hproto).
  exists obj. split; [exact H|]. split.
  - rewrite Hget by discriminate. reflexivity.
  - rewrite Hproto. reflexivity.
Defined.

(** ** [getTradeURL] *)

Lemma drop_prefix_spec (p s r : string) : Str.drop_prefix p s = Some r -> s = p ++ r.
Proof.
  revert s. induction p as [|a p IH]; intros s; cbn [Str.drop_prefix append].
  - intros H. injection H as ->. reflexivity.
  - destruct s as [|b s]; [discriminate|].
    destruct (Ascii.eqb a b) eqn:E; [|discriminate].
    apply Ascii.eqb_eq in E. subst b. intros H. rewrite (IH _ H). reflexivity.
Qed.

Lemma take_drop_while (p : ascii -> bool) (s : string) :
  s = Str.take_while p s ++ Str.drop_while p s.
Proof.
  induction s as [|c s IH]; cbn [Str.take_while Str.drop_while]; [reflexivity|].
  destruct (p c); cbn [append]; [rewrite <- IH|]; reflexivity.
Qed.

Lemma take_while_all_chars (p : ascii -> bool) (s : string) :
  all_chars p (Str.take_while p s) = true.
Proof.
  induction s as [|c s IH]; cbn [Str.take_while all_chars]; [reflexivity|].
  destruct (p c) eqn:E; cbn [all_chars]; [rewrite E, IH|]; reflexivity.
Qed.

Lemma drop_while_head (p : ascii -> bool) (s : string) :
  match Str.drop_while p s with
  | String c _ => p c = false
  | EmptyString => True
  end.
Proof.
  induction s as [|c s IH]; cbn [Str.drop_while]; [exact I|].
  destruct (p c) eqn:E; [exact IH | exact E].
Qed.

Lemma skip_s_spec (s : string) : exists x, s = x ++ skip_s s.
Proof.
  destruct s as [|c s]; [exists ""; reflexivity|]. cbn [skip_s].
  destruct (Ascii.eqb c "s"%char); [exists (String c "") | exists ""]; reflexivity.
Qed.

Lemma skip_dot_spec (s r : string) : skip_dot s = Some r -> exists x, s = x ++ r.
Proof.
  destruct s as [|c s]; [discriminate|]. cbn [skip_dot].
  destruct (Str.is_lt c); [discriminate|]. intros H. injection H as <-.
  exists (String c ""). reflexivity.
Qed.

Lemma skip_www_spec (s r : string) : skip_www s = Some r -> exists x, s = x ++ r.
Proof.
  unfold skip_www. destruct (Str.drop_prefix "www" s) as [t|] eqn:E.
  - intros H. destruct (skip_dot_spec _ _ H) as [x ->].
    apply drop_prefix_spec in E. exists ("www" ++ x). rewrite E, append_assoc. reflexivity.
  - intros H. injection H as <-. exists "". reflexivity.
Qed.

Lemma skip_slash_spec (s : string) : exists x, s = x ++ skip_slash s.
Proof.
  destruct s as [|c s]; [exists ""; reflexivity|]. cbn [skip_slash].
  destruct (Str.is_slash c); [exists (String c "") | exists ""]; reflexivity.
Qed.

Lemma skip_amp_token_spec (s r : string) :
  skip_amp_token s = Some r -> exists x, s = x ++ "token=" ++ r.
Proof.
  unfold skip_amp_token. destruct (Str.drop_prefix "&token=" s) as [t|] eqn:E.
  - intros H. injection H as <-. apply drop_prefix_spec in E.
    exists "&". rewrite E. reflexivity.
  - intros H. apply drop_prefix_spec in H. exists "&amp;". rewrite H. reflexivity.
Qed.

(** What a match anchored at the head of [s] tells. *)
Lemma trade_at_spec (s rest tok : string) :
  trade_at s = Some (rest, tok) ->
  exists mid,
    s = ("http" ++ mid ++ "token=" ++ tok) ++ rest
    /\ tok <> "" /\ all_chars is_token_char tok = true
    /\ match rest with String c _ => is_token_char c = false | EmptyString => True end.
Proof.
  unfold trade_at, bind_opt.
  destruct (Str.drop_prefix "http" s) as [s1|] eqn:E1; [|discriminate].
  destruct (skip_s_spec s1) as [x1 X1].
  destruct (Str.drop_prefix "://" (skip_s s1)) as [s2|] eqn:E2; [|discriminate].
  destruct (skip_www s2) as [s3|] eqn:E3; [|discriminate].
  destruct (Str.drop_prefix "steamcommunity" s3) as [s4|] eqn:E4; [|discriminate].
  destruct (skip_dot s4) as [s5|] eqn:E5; [|discriminate].
  destruct (Str.drop_prefix "com/tradeoffer/new" s5) as [s6|] eqn:E6; [|discriminate].
  destruct (skip_slash_spec s6) as [x6 X6].
  destruct (Str.drop_prefix "?partner=" (skip_slash s6)) as [s7|] eqn:E7; [|discriminate].
  destruct (Str.take_while Str.is_digit s7) as [|d0 d] eqn:E8; [discriminate|].
  destruct (skip_amp_token (Str.drop_while Str.is_digit s7)) as [s8|] eqn:E9; [|discriminate].
  destruct (Str.take_while is_token_char s8) as [|t0 t] eqn:E10; [discriminate|].
  intros H. injection H as <- <-.
  apply drop_prefix_spec in E1, E2, E4, E6, E7.
  destruct (skip_www_spec _ _ E3) as [x3 X3].
  destruct (skip_dot_spec _ _ E5) as [x5 X5].
  destruct (skip_amp_token_spec _ _ E9) as [x9 X9].
  pose proof (take_drop_while Str.is_digit s7) as X8. rewrite E8, X9 in X8.
  pose proof (take_drop_while is_token_char s8) as X10. rewrite E10 in X10.
  exists (x1 ++ "://" ++ x3 ++ "steamcommunity" ++ x5 ++ "com/tradeoffer/new" ++ x6
          ++ "?partner=" ++ String d0 d ++ x9).
  split; [|split; [discriminate | split]].
  - rewrite E1, X1, E2, X3, E4, X5, E6, X6, E7, X8. rewrite X10 at 1.
    repeat rewrite append_assoc. reflexivity.
  - rewrite <- E10. apply take_while_all_chars.
  - apply drop_while_head.
Qed.

Lemma length_append (a b : string) :
  String.length (a ++ b) = String.length a + String.length b.
Proof. induction a as [|c a IH]; cbn [append String.length]; [reflexivity | rewrite IH; reflexivity]. Qed.

Lemma take_append (a b : string) : take (String.length a) (a ++ b) = a.
Proof.
  induction a as [|c a IH]; cbn [append String.length take].
  - destruct b; reflexivity.
  - rewrite IH. reflexivity.
Qed.

(** What [match_trade_url] hands over: a piece of the text that starts
    with [http] and ends with [token=] and the token, which is not empty,
    holds only letters, digits, [-] and [_], and is not followed by such
    a character. *)
Lemma match_trade_url_spec (s url tok : string) :
  match_trade_url s = Some (url, tok) ->
  exists pre mid post,
    s = pre ++ url ++ post
    /\ url = "http" ++ mid ++ "token=" ++ tok
    /\ tok <> "" /\ all_chars is_token_char tok = true
    /\ match post with String c _ => is_token_char c = false | EmptyString => True end.
Proof.
  induction s as [|c s IH]; [discriminate|]. cbn [match_trade_url].
  destruct (trade_at (String c s)) as [[rest t]|] eqn:E.
  - intros H. injection H as <- <-.
    destruct (trade_at_spec _ _ _ E) as (mid & Hs & Hne & Hall & Hrest).
    exists "", mid, rest.
    assert (Hurl : take (String.length (String c s) - String.length rest) (String c s)
                   = "http" ++ mid ++ "token=" ++ t).
    { rewrite Hs at 2. rewrite Hs at 1. rewrite length_append.
      replace (String.length ("http" ++ mid ++ "token=" ++ t) + String.length rest
               - String.length rest)
        with (String.length ("http" ++ mid ++ "token=" ++ t)) by lia.
      apply take_append. }
    change (take _ (String c s))
      with (take (String.length (String c s) - String.length rest) (String c s)).
    rewrite Hurl. repeat split; try assumption.
  - intros H. destruct (IH H) as (pre & mid & post & Hs & Hrest).
    exists (String c pre), mid, post. split; [rewrite Hs; reflexivity | exact Hrest].
Qed.

(** [_myProfile] calls the callback it is given at most once: with the
    reply of the completing request, or with an error of the resolution;
    or it throws on a redirect without [Location] and does not call it. *)
Lemma myProfile_with_cases e f my final (h : CallbackArgs -> M unit) st :
  (exists a s,
      _myProfile_with e f my final h st = h a s
      /\ callbacks (log s) = callbacks (log st)
      /\ steamID s = steamID st
      /\ (a = args_of final \/ exists x, a = args_err x))
  \/ (fst (_myProfile_with e f my final h st) = Throw TypeError
      /\ callbacks (log (snd (_myProfile_with e f my final h st))) = callbacks (log st)).
Proof.
  unfold _myProfile_with. rewrite bind_run. cbn [get].
  assert (Hcomplete : forall url s0,
            callbacks (log s0) = callbacks (log st) -> steamID s0 = steamID st ->
            exists a s,
              (completeRequest e f url ;; elapse (delay final) ;; h (args_of final)) s0 = h a s
              /\ callbacks (log s) = callbacks (log st)
              /\ steamID s = steamID st
              /\ (a = args_of final \/ exists x, a = args_err x)).
  { intros url s0 H0 H0'. destruct (completeRequest_run e f url s0) as (m & path & Hrun).
    rewrite bind_run, Hrun, bind_run. cbn [elapse modify].
    eexists. eexists. split; [reflexivity|]. split; [|split; [|left; reflexivity]].
    - rewrite log_run_timers. cbn [log set_now set_log]. rewrite callbacks_app.
      cbn [callbacks]. rewrite app_nil_r. exact H0.
    - unfold run_timers. destruct (existsb _ _); exact H0'. }
  destruct (cached_profileURL st) as [url|].
  { left. apply Hcomplete; reflexivity. }
  rewrite bind_run, httpRequest_run. fold (on_my_reply my st).
  assert (H1 : callbacks (log (on_my_reply my st)) = callbacks (log st)).
  { unfold on_my_reply. rewrite log_run_timers. cbn [log set_now set_log].
    rewrite callbacks_app. cbn [callbacks]. apply app_nil_r. }
  assert (H1' : steamID (on_my_reply my st) = steamID st).
  { unfold on_my_reply, run_timers. destruct (existsb _ _); reflexivity. }
  destruct (err my) as [x|].
  { left. eexists. eexists. split; [reflexivity|]. split; [exact H1|].
    split; [exact H1' | right; eexists; reflexivity]. }
  destruct (negb (statusCode my =? 302)%Z).
  { left. eexists. eexists. split; [reflexivity|]. split; [exact H1|].
    split; [exact H1' | right; eexists; reflexivity]. }
  destruct (location my) as [loc|].
  2: { right. split; [reflexivity | exact H1]. }
  destruct (Str.match_profile loc) as [url|].
  2: { left. eexists. eexists. split; [reflexivity|]. split; [exact H1|].
       split; [exact H1' | right; eexists; reflexivity]. }
  left. rewrite bind_run. cbn [modify]. rewrite bind_run. cbn [setTimeout_deleteProfileURL modify].
  apply Hcomplete; [exact H1 | exact H1'].
Qed.

Lemma getTradeURL_handler_spec (a : CallbackArgs) (s : Client) :
  exists new,
    callbacks (log (snd (getTradeURL_handler a s))) = (callbacks (log s) ++ new)%list
    /\ List.length new <= 1
    /\ forall url tok,
         In [ArgVal JsNull; ArgVal (JsStr url); ArgVal (JsStr tok)] new ->
         cb_err a = None
         /\ exists text, cb_body a = JsStr text /\ match_trade_url text = Some (url, tok).
Proof.
  unfold getTradeURL_handler.
  destruct (cb_err a) as [x|].
  { exists [[x]]. log_projections. split; [reflexivity|]. split; [auto|].
    intros url tok [H|[]]. discriminate. }
  destruct (cb_body a) as [| | | |text];
    try (exists []; cbn [throw snd]; rewrite app_nil_r; split; [reflexivity|];
         split; [auto|]; intros url tok []).
  destruct (match_trade_url text) as [[u t]|] eqn:E.
  - exists [[ArgVal JsNull; ArgVal (JsStr u); ArgVal (JsStr t)]].
    log_projections. split; [reflexivity|]. split; [auto|].
    intros url tok [H|[]]. injection H as <- <-. split; [reflexivity|].
    exists text. split; [reflexivity | exact E].
  - exists [[ArgError (Error "Malformed response")]].
    log_projections. split; [reflexivity|]. split; [auto|].
    intros url tok [H|[]]. discriminate.
Qed.

(** X9.  [getTradeURL] invokes the callback at most once.  When it hands
    over a trade URL and a token, the completing request had no
    transport error, the URL is a piece of the body that starts with
    [http] and ends with [token=] followed by the token, and the token
    is not empty and holds only letters, digits, [-] and [_]. *)
Theorem getTradeURL_token (my : HttpReply unit) (final : HttpReply JsVal) (st : Client) :
  exists new,
    callbacks (log (snd (getTradeURL my final st))) = (callbacks (log st) ++ new)%list
    /\ List.length new <= 1
    /\ forall url tok,
         In [ArgVal JsNull; ArgVal (JsStr url); ArgVal (JsStr tok)] new ->
         err final = None
         /\ exists text pre mid post,
              body final = JsStr text
              /\ text = pre ++ url ++ post
              /\ url = "http" ++ mid ++ "token=" ++ tok
              /\ tok <> "" /\ all_chars is_token_char tok = true.
Proof.
  unfold getTradeURL.
  destruct (myProfile_with_cases (EndpointPath "tradeoffers/privacy") None my final
              getTradeURL_handler st) as [(a & s & -> & Hc & _ & Ha)|[_ Hc]].
  - destruct (getTradeURL_handler_spec a s) as (new & Hnew & Hlen & Hin).
    exists new. rewrite Hnew, Hc. split; [reflexivity|]. split; [exact Hlen|].
    intros url tok H. destruct (Hin url tok H) as (He & text & Hb & Hm).
    destruct Ha as [->|[x ->]]; [|discriminate].
    cbn [args_of cb_err cb_body] in He, Hb. split.
    + destruct (err final); [discriminate | reflexivity].
    + destruct (match_trade_url_spec _ _ _ Hm) as (pre & mid & post & H1 & H2 & H3 & H4 & _).
      exists text, pre, mid, post. repeat split; assumption.
  - exists []. rewrite Hc, app_nil_r. split; [reflexivity|]. split; [auto|].
    intros url tok [].
Qed.

(** The privacy page of a resolved profile, on a fresh client. *)
Lemma getTradeURL_token_witness :
  let my := mkReply 0 None 302 (Some "https://steamcommunity.com/id/gabe/") tt in
  exists new,
    callbacks (log (snd (getTradeURL my privacy_page Sample.fresh)))
    = (callbacks (log Sample.fresh) ++ new)%list
    /\ In [ArgVal JsNull;
           ArgVal (JsStr "https://steamcommunity.com/tradeoffer/new/?partner=39734272&amp;token=aB3-x_9Z");
           ArgVal (JsStr "aB3-x_9Z")] new
    /\ err privacy_page = None.
Proof.
  intros my.
  destruct (getTradeURL_token my privacy_page Sample.fresh) as (new & Hnew & _ & Hin).
  exists new. split; [exact Hnew|].
  assert (H : In [ArgVal JsNull;
                  ArgVal (JsStr "https://steamcommunity.com/tradeoffer/new/?partner=39734272&amp;token=aB3-x_9Z");
                  ArgVal (JsStr "aB3-x_9Z")] new).
  { clear Hin. vm_compute in Hnew. rewrite <- Hnew. left. reflexivity. }
  split; [exact H|]. exact (proj1 (Hin _ _ H)).
Defined.

(** ** [changeTradeURL] *)












(** ** [oAuthLogin] *)

Lemma setCookies_each_other Request_cookie SteamID_new cookie n k st :
  Str.match_name_eq cookie = Some n -> is_login_name n = false ->
  Request_cookie cookie = Some k ->
  setCookies_each Request_cookie SteamID_new cookie st
  = _setCookie (Some k) (JsBool (secure_name n)) st.
Proof.
  intros Hn Hl Hk. unfold setCookies_each. rewrite Hn, Hl, Hk. reflexivity.
Qed.

Lemma setCookies_each_login Request_cookie SteamID_new cookie n d sid k st :
  Str.match_name_eq cookie = Some n -> is_login_name n = true ->
  Str.match_eq_digits cookie = Some d -> SteamID_new (JsStr d) = Ok sid ->
  Request_cookie cookie = Some k ->
  setCookies_each Request_cookie SteamID_new cookie st
  = _setCookie (Some k) (JsBool (secure_name n)) (set_steamID (Some sid) st).
Proof.
  intros Hn Hl Hd Hs Hk. unfold setCookies_each. rewrite Hn, Hl, Hd, Hs, Hk. reflexivity.
Qed.

Lemma digit_is_plain (c : ascii) :
  Str.is_digit c = true -> name_char c = true /\ value_char c = true.
Proof.
  intros H. unfold name_char, value_char, Str.is_eq, Str.is_lt.
  destruct (Ascii.eqb c "="%char) eqn:E.
  { apply Ascii.eqb_eq in E. subst c. discriminate. }
  unfold Str.is_digit in H. apply andb_true_iff in H as [H1 H2].
  apply Nat.leb_le in H1. split; [|reflexivity]. cbn [negb andb].
  apply negb_true_iff, orb_false_iff. split; apply Nat.eqb_neq; lia.
Qed.

Lemma digits_name_chars (d : string) :
  all_chars Str.is_digit d = true -> all_chars name_char d = true.
Proof. apply all_chars_impl. intros c H. apply (digit_is_plain c H). Qed.

Lemma digits_value_chars (d : string) :
  all_chars Str.is_digit d = true -> all_chars value_char d = true.
Proof. apply all_chars_impl. intros c H. apply (digit_is_plain c H). Qed.

(** The name read off a text whose first [=] comes after [p]: it starts
    with [p]. *)
Lemma upto_last_eq_starts (p rest : string) :
  all_chars name_char p = true ->
  exists q, Str.upto_last_eq (p ++ "=" ++ rest) = Some (p ++ q).
Proof.
  intros Hp. induction p as [|c p IH]; cbn [append Str.upto_last_eq].
  - change (Str.is_lt "="%char) with false. cbv iota.
    destruct (Str.upto_last_eq rest) as [x|]; eexists; reflexivity.
  - cbn [all_chars] in Hp. apply andb_true_iff in Hp as [Hc Hp].
    destruct (IH Hp) as [q Hq]. cbn [append] in Hq. rewrite Hq.
    unfold name_char in Hc. apply andb_true_iff in Hc as [_ Hc].
    apply negb_true_iff in Hc. rewrite Hc. exists q. reflexivity.
Qed.

Lemma match_name_eq_starts (p rest : string) :
  p <> "" -> all_chars name_char p = true ->
  exists q, Str.match_name_eq (p ++ "=" ++ rest) = Some (p ++ q).
Proof.
  intros Hne Hp. destruct (upto_last_eq_starts p rest Hp) as [q Hq].
  exists q. destruct p as [|c p]; [contradiction|].
  unfold Str.match_name_eq. cbn [append Str.name_eq_go]. cbn [append] in Hq.
  cbn [all_chars] in Hp. apply andb_true_iff in Hp as [Hc _].
  unfold name_char in Hc. apply andb_true_iff in Hc as [_ Hc].
  apply negb_true_iff in Hc. rewrite Hc, Hq. reflexivity.
Qed.

Lemma replicated_callback w0 args : preserves (replicated_since w0) (callback args).
Proof. apply replicated_other_event. reflexivity. Qed.

(** X11.  [oAuthLogin] on a Steam Guard token that names the SteamID
    [sid] (digits), answered with both tokens, when the session
    identifier can be obtained and [Request.cookie] builds the four
    cookies: the identity of the client becomes [sid], read back from
    the [steamLogin] cookie it has just built; and the cookies
    [steamLogin], [steamLoginSecure] and [steamMachineAuth<sid>] are
    written in this order, the first as non-secure, the other two as
    secure. *)
Theorem oAuthLogin_identity_and_cookies
    Request_cookie encodeURIComponent decodeURIComponent SteamID_new
    (sg : string) (token : JsVal) (reply : HttpReply WGBody) (st s2 : Client)
    (sid sess : string) (tok toks : JsVal) (k1 k2 k3 k4 : Cookie) :
  SteamID_new (JsStr (at_str (Str.split "||" sg) 0)) = Ok sid ->
  sid <> "" -> all_chars Str.is_digit sid = true ->
  SteamID_new (JsStr sid) = Ok sid ->
  (forall t, exists r, encodeURIComponent (sid ++ "||" ++ t) = sid ++ "%7C%7C" ++ r
                       /\ all_chars value_char r = true) ->
  err reply = None -> response (body reply) = Some (tok, toks) ->
  truthy tok = true -> truthy toks = true ->
  getSessionID Request_cookie decodeURIComponent default_host
    (snd (httpRequestPost WGTOKEN_URI [("access_token", token)] [] reply st))
  = (Ok sess, s2) ->
  Request_cookie ("steamLogin=" ++ encodeURIComponent (sid ++ "||" ++ toString tok))
  = Some k1 ->
  Request_cookie ("steamLoginSecure=" ++ encodeURIComponent (sid ++ "||" ++ toString toks))
  = Some k2 ->
  Request_cookie ("steamMachineAuth" ++ sid ++ "=" ++ at_str (Str.split "||" sg) 1)
  = Some k3 ->
  Request_cookie ("sessionid=" ++ sess) = Some k4 ->
  let run := oAuthLogin Request_cookie encodeURIComponent decodeURIComponent SteamID_new
                        (JsStr sg) token reply st in
  steamID (snd run) = Some sid
  /\ exists more,
       jar_writes (log (snd run))
       = (jar_writes (log s2)
          ++ replicas (cookie_with_secure k1 false)
          ++ replicas (cookie_with_secure k2 true)
          ++ replicas (cookie_with_secure k3 true)
          ++ more)%list.
Proof.
  intros Hsid Hne Hdig Hcanon Henc He Hr Ht Hts Hg Hk1 Hk2 Hk3 Hk4 run. subst run.
  unfold oAuthLogin. rewrite Hsid, bind_lift_ok, bind_run.
  destruct (httpRequestPost WGTOKEN_URI [("access_token", token)] [] reply st)
    as [r0 s1] eqn:Hreq.
  assert (Hr0 : r0 = Ok reply).
  { unfold httpRequestPost in Hreq. rewrite httpRequest_run in Hreq.
    injection Hreq as <- _. reflexivity. }
  subst r0. cbn [snd] in Hg.
  unfold oAuthLogin_on_reply. rewrite He, Hr, Ht, Hts. cbn [negb orb].
  rewrite bind_run, Hg.
  destruct (Henc (toString tok)) as (r1 & E1 & V1).
  destruct (Henc (toString toks)) as (r2 & E2 & V2).
  assert (Hv : forall r, all_chars value_char r = true ->
                         all_chars value_char (sid ++ "%7C%7C" ++ r) = true).
  { intros r Hr'. rewrite !all_chars_app, (digits_value_chars sid Hdig), Hr'. reflexivity. }
  assert (Hd : forall r, Str.take_while Str.is_digit (sid ++ "%7C%7C" ++ r) = sid).
  { intros r. apply take_while_digits; [exact Hdig | reflexivity]. }
  (* the four entries *)
  assert (C1 : forall s,
            setCookies_each Request_cookie SteamID_new
              ("steamLogin=" ++ encodeURIComponent (sid ++ "||" ++ toString tok)) s
            = _setCookie (Some k1) (JsBool false) (set_steamID (Some sid) s)).
  { intros s.
    apply (setCookies_each_login _ _ _ "steamLogin" sid sid);
      [ rewrite E1; apply (match_name_eq_plain "steamLogin");
          [discriminate | reflexivity | apply Hv; exact V1]
      | reflexivity
      | rewrite E1;
        change ("steamLogin=" ++ sid ++ "%7C%7C" ++ r1)
          with ("steamLogin" ++ "=" ++ (sid ++ "%7C%7C" ++ r1));
        rewrite (match_eq_digits_plain "steamLogin" _ eq_refl (Hv r1 V1)), Hd;
        destruct sid; [contradiction | reflexivity]
      | exact Hcanon | exact Hk1 ]. }
  assert (C2 : forall s,
            setCookies_each Request_cookie SteamID_new
              ("steamLoginSecure=" ++ encodeURIComponent (sid ++ "||" ++ toString toks)) s
            = _setCookie (Some k2) (JsBool true) (set_steamID (Some sid) s)).
  { intros s.
    apply (setCookies_each_login _ _ _ "steamLoginSecure" sid sid);
      [ rewrite E2; apply (match_name_eq_plain "steamLoginSecure");
          [discriminate | reflexivity | apply Hv; exact V2]
      | reflexivity
      | rewrite E2;
        change ("steamLoginSecure=" ++ sid ++ "%7C%7C" ++ r2)
          with ("steamLoginSecure" ++ "=" ++ (sid ++ "%7C%7C" ++ r2));
        rewrite (match_eq_digits_plain "steamLoginSecure" _ eq_refl (Hv r2 V2)), Hd;
        destruct sid; [contradiction | reflexivity]
      | exact Hcanon | exact Hk2 ]. }
  assert (C3 : forall s,
            setCookies_each Request_cookie SteamID_new
              ("steamMachineAuth" ++ sid ++ "=" ++ at_str (Str.split "||" sg) 1) s
            = _setCookie (Some k3) (JsBool true) s).
  { intros s.
    destruct (match_name_eq_starts ("steamMachineAuth" ++ sid)
                (at_str (Str.split "||" sg) 1)) as [q Hq].
    - discriminate.
    - rewrite all_chars_app, (digits_name_chars sid Hdig). reflexivity.
    - rewrite append_assoc in Hq.
      apply (setCookies_each_other _ _ _ _ k3 s Hq); [reflexivity | exact Hk3]. }
  assert (C4 : forall s, exists v,
            setCookies_each Request_cookie SteamID_new ("sessionid=" ++ sess) s
            = _setCookie (Some k4) (JsBool v) s).
  { intros s. destruct (match_name_eq_starts "sessionid" sess) as [q Hq];
      [discriminate | reflexivity |].
    exists (secure_name ("sessionid" ++ q)).
    apply (setCookies_each_other _ _ _ _ k4 s Hq); [reflexivity | exact Hk4]. }
  unfold setCookies. cbn [forEach].
  rewrite bind_run, bind_run, C1.
  destruct (_setCookie_run k1 (JsBool false) (set_steamID (Some sid) s2))
    as (a1 & -> & L1 & _ & _ & I1 & _).
  rewrite bind_run, C2.
  destruct (_setCookie_run k2 (JsBool true) (set_steamID (Some sid) a1))
    as (a2 & -> & L2 & _ & _ & I2 & _).
  rewrite bind_run, C3.
  destruct (_setCookie_run k3 (JsBool true) a2) as (a3 & -> & L3 & _ & _ & I3 & _).
  rewrite bind_run. destruct (C4 a3) as (v4 & ->).
  destruct (_setCookie_run k4 (JsBool v4) a3) as (a4 & -> & L4 & _ & _ & I4 & _).
  cbn [ret].
  assert (Hid : steamID a4 = Some sid).
  { rewrite I4, I3, I2. reflexivity. }
  assert (Hw : jar_writes (log a4)
               = (jar_writes (log s2)
                  ++ replicas (cookie_with_secure k1 false)
                  ++ replicas (cookie_with_secure k2 true)
                  ++ replicas (cookie_with_secure k3 true)
                  ++ replicas (cookie_with_secure k4 v4))%list).
  { rewrite L4, jar_writes_app, jar_writes_replicas, L3, jar_writes_app, jar_writes_replicas,
      L2, jar_writes_app, jar_writes_replicas. cbn [log set_steamID].
    rewrite L1, jar_writes_app, jar_writes_replicas. cbn [log set_steamID truthy].
    rewrite <- !app_assoc. reflexivity. }
  set (rest := bind (getSessionID Request_cookie decodeURIComponent default_host) _).
  assert (P1 : preserves (fun s => steamID s = Some sid) rest).
  { subst rest. apply preserves_bind.
    - apply stable_getSessionID;
        [intros; apply untouched_setCookie; intros; assumption | intros ? s H; exact H].
    - intros x. apply untouched_emit_log. intros; assumption. }
  assert (P2 : preserves (replicated_since (jar_writes (log a4))) rest).
  { subst rest. apply preserves_bind.
    - apply stable_getSessionID; [apply replicated_setCookie | intros ? s H; exact H].
    - intros x. apply replicated_callback. }
  split; [apply P1; exact Hid|].
  destruct (P2 a4 (replicated_start a4)) as [cs Hcs].
  exists (replicas (cookie_with_secure k4 v4) ++ flat_map replicas cs)%list.
  rewrite Hcs, Hw. rewrite <- !app_assoc. reflexivity.
Qed.

Lemma sample_encode_app (a b : string) :
  Sample.encodeURIComponent (a ++ b)
  = Sample.encodeURIComponent a ++ Sample.encodeURIComponent b.
Proof.
  induction a as [|c a IH]; [reflexivity|].
  cbn [append Sample.encodeURIComponent]. rewrite IH, append_assoc. reflexivity.
Qed.

Lemma sample_encode_one (c : ascii) :
  all_chars value_char (Sample.encodeURIComponent (String c "")) = true.
Proof. destruct c as [[] [] [] [] [] [] [] []]; vm_compute; reflexivity. Qed.

Lemma sample_encode_value_chars (t : string) :
  all_chars value_char (Sample.encodeURIComponent t) = true.
Proof.
  induction t as [|c t IH]; [reflexivity|].
  change (String c t) with (String c "" ++ t).
  rewrite sample_encode_app, all_chars_app, sample_encode_one, IH. reflexivity.
Qed.

Lemma sample_encode_digit (c : ascii) :
  Str.is_digit c = true -> Sample.encodeURIComponent (String c "") = String c "".
Proof.
  destruct c as [[] [] [] [] [] [] [] []]; vm_compute; intros H;
    first [reflexivity | discriminate H].
Qed.

Lemma sample_encode_digits (s : string) :
  all_chars Str.is_digit s = true -> Sample.encodeURIComponent s = s.
Proof.
  induction s as [|c s IH]; [reflexivity|].
  cbn [all_chars]. intros H. apply andb_prop in H. destruct H as [Hc Hs].
  change (String c s) with (String c "" ++ s).
  rewrite sample_encode_app, (sample_encode_digit c Hc), (IH Hs). reflexivity.
Qed.

Lemma sample_encode_pair (sid t : string) :
  all_chars Str.is_digit sid = true ->
  exists r, Sample.encodeURIComponent (sid ++ "||" ++ t) = sid ++ "%7C%7C" ++ r
            /\ all_chars value_char r = true.
Proof.
  intros H. exists (Sample.encodeURIComponent t).
  split; [|apply sample_encode_value_chars].
  rewrite sample_encode_app, (sample_encode_digits sid H).
  rewrite (sample_encode_app "||" t). reflexivity.
Qed.

Lemma oAuthLogin_identity_and_cookies_witness :
  let reply := Sample.reply (mkWGBody (Some (JsStr "t1", JsStr "t2"))) in
  let run := SampleMore.oAuthLogin (JsStr "76561198000000000||abcdef") (JsStr "tok")
                                   reply Sample.fresh in
  steamID (snd run) = Some "76561198000000000"
  /\ exists more,
       jar_writes (log (snd run))
       = (jar_writes (log (snd (Sample.getSessionID default_host Sample.fresh)))
          ++ replicas (mkCookie "steamLogin" "76561198000000000%7C%7Ct1" false None)
          ++ replicas (mkCookie "steamLoginSecure" "76561198000000000%7C%7Ct2" true None)
          ++ replicas (mkCookie "steamMachineAuth76561198000000000" "abcdef" true None)
          ++ more)%list.
Proof.
  intros reply run.
  exact (oAuthLogin_identity_and_cookies
           Sample.cookie Sample.encodeURIComponent Sample.decodeURIComponent
           Sample.SteamID_new "76561198000000000||abcdef" (JsStr "tok") reply Sample.fresh
           (snd (Sample.getSessionID default_host
                   (snd (httpRequestPost WGTOKEN_URI [("access_token", JsStr "tok")] []
                           reply Sample.fresh))))
           "76561198000000000" "000000000000000000000000" (JsStr "t1") (JsStr "t2")
           (mkCookie "steamLogin" "76561198000000000%7C%7Ct1" false None)
           (mkCookie "steamLoginSecure" "76561198000000000%7C%7Ct2" false None)
           (mkCookie "steamMachineAuth76561198000000000" "abcdef" false None)
           (mkCookie "sessionid" "000000000000000000000000" false None)
           ltac:(vm_compute; reflexivity)
           ltac:(discriminate)
           ltac:(vm_compute; reflexivity)
           ltac:(vm_compute; reflexivity)
           (fun t => sample_encode_pair "76561198000000000" t eq_refl)
           ltac:(vm_compute; reflexivity)
           ltac:(vm_compute; reflexivity)
           ltac:(vm_compute; reflexivity)
           ltac:(vm_compute; reflexivity)
           ltac:(vm_compute; reflexivity)
           ltac:(vm_compute; reflexivity)
           ltac:(vm_compute; reflexivity)
           ltac:(vm_compute; reflexivity)
           ltac:(vm_compute; reflexivity)).
Defined.

(** ** The callback of [login] *)

Lemma silent_of_preserves {A} (m : M A) :
  (forall c0, preserves (callbacks_are c0) m) -> silent m.
Proof. intros H s. apply (H (callbacks (log s)) s). reflexivity. Qed.

Lemma callbacks_are_same_log (f : Client -> Client) c0 :
  (forall st, log (f st) = log st) ->
  forall st, callbacks_are c0 st -> callbacks_are c0 (f st).
Proof. intros Hf st H. unfold callbacks_are. rewrite Hf. exact H. Qed.

Lemma callbacks_are_request c0 m u f h :
  preserves (callbacks_are c0) (emit_log (EvRequest m u f h)).
Proof.
  intros st H. unfold callbacks_are. simpl. rewrite callbacks_app. simpl.
  rewrite app_nil_r. exact H.
Qed.

Lemma callbacks_are_elapse c0 d : preserves (callbacks_are c0) (elapse d).
Proof.
  intros st H. unfold callbacks_are, elapse, modify. cbn [snd].
  rewrite log_run_timers. exact H.
Qed.

Lemma once_bind {A B} (P : list CbArg -> Prop) (m : M A) (k : A -> M B) :
  silent m -> (forall x, calls_back_once P (k x)) -> calls_back_once P (bind m k).
Proof.
  intros Hm Hk s. rewrite bind_run. specialize (Hm s).
  destruct (m s) as [[a|e] s']; cbn [snd] in Hm.
  - specialize (Hk a s'). rewrite Hm in Hk. exact Hk.
  - exact Hm.
Qed.

Lemma once_callback (P : list CbArg -> Prop) (args : list CbArg) :
  P args -> calls_back_once P (callback args).
Proof.
  intros H s. cbn. exists args. split; [|exact H].
  rewrite callbacks_app. reflexivity.
Qed.

Section CallsBack.

Variable Request_cookie : string -> option Cookie.
Variable encodeURIComponent : string -> string.
Variable decodeURIComponent : string -> Res string.
Variable SteamID_new : JsVal -> Res string.
Variable RSA_encrypt : JsVal -> JsVal -> JsVal -> Res JsVal.
Variable JSON_parse_oauth : JsVal -> Res (JsVal * JsVal).

Lemma silent_setCookie c v : silent (_setCookie c v).
Proof. apply silent_of_preserves. intros c0. apply callbacks_are_setCookie. Qed.

Lemma silent_setCookies l : silent (setCookies Request_cookie SteamID_new l).
Proof.
  apply silent_of_preserves. intros c0. apply stable_setCookies.
  - apply callbacks_are_setCookie.
  - intros s. apply callbacks_are_same_log. reflexivity.
Qed.

Lemma silent_deleteMobileCookies : silent (deleteMobileCookies Request_cookie).
Proof.
  apply silent_of_preserves. intros c0. apply stable_deleteMobileCookies.
  apply callbacks_are_setCookie.
Qed.

Lemma silent_httpRequest {B} m u f h (r : HttpReply B) : silent (httpRequest m u f h r).
Proof.
  apply silent_of_preserves. intros c0. apply stable_httpRequest.
  - apply callbacks_are_elapse.
  - apply callbacks_are_request.
Qed.

Lemma silent_login_begin d : silent (login_begin Request_cookie encodeURIComponent d).
Proof.
  apply silent_of_preserves. intros c0. apply stable_login_begin.
  - apply callbacks_are_setCookie.
  - apply callbacks_are_same_log. reflexivity.
Qed.

Lemma silent_find_steamLogin l : silent (find_steamLogin decodeURIComponent SteamID_new l).
Proof.
  apply silent_of_preserves. intros c0. apply stable_find_steamLogin.
  intros s. apply callbacks_are_same_log. reflexivity.
Qed.

Lemma silent_pure {A} (m : M A) : (forall s, snd (m s) = s) -> silent m.
Proof. intros H s. rewrite H. reflexivity. Qed.

Lemma silent_lift {A} (r : Res A) : silent (lift r).
Proof. apply silent_pure. intros s. destruct r; reflexivity. Qed.

Lemma silent_modify f : (forall st, log (f st) = log st) -> silent (modify f).
Proof. intros H s. cbn. rewrite H. reflexivity. Qed.

Lemma silent_bind {A B} (m : M A) (k : A -> M B) :
  silent m -> (forall x, silent (k x)) -> silent (bind m k).
Proof.
  intros Hm Hk s. rewrite bind_run. specialize (Hm s).
  destruct (m s) as [[a|e] s']; cbn [snd] in Hm.
  - rewrite Hk. exact Hm.
  - exact Hm.
Qed.

Lemma once_login_success d b :
  calls_back_once login_args
    (login_success Request_cookie decodeURIComponent SteamID_new JSON_parse_oauth d b).
Proof.
  intros s. unfold login_success. rewrite bind_run, generateSessionID_run.
  destruct (next_sessionID_spec s) as (Hlen & Hhex & _).
  set (id := next_sessionID s) in *. clearbody id.
  match goal with
  | |- context [fst (?m ?s1)] =>
      change (callbacks (log s)) with (callbacks (log s1));
      generalize s1; change (calls_back_once login_args m)
  end.
  apply once_bind; [apply silent_setCookie | intros ?].
  apply once_bind; [apply silent_pure; reflexivity | intros str].
  apply once_bind.
  { destruct (negb (truthy (disableMobile d))).
    - apply silent_bind; [apply silent_lift | intros oAuth].
      apply silent_bind; [apply silent_lift | intros sid].
      apply silent_bind; [apply silent_modify; reflexivity | intros ?].
      apply silent_bind; [apply silent_modify; reflexivity | intros ?].
      apply silent_pure; reflexivity.
    - apply silent_bind; [apply silent_find_steamLogin | intros ?].
      apply silent_bind; [apply silent_modify; reflexivity | intros ?].
      apply silent_pure; reflexivity. }
  intros token.
  apply once_bind; [apply silent_pure; reflexivity | intros st].
  apply once_bind; [apply silent_lift | intros steamguard].
  apply once_bind; [apply silent_setCookies | intros ?].
  apply once_callback. right. exists id, (map Str.trim (Str.split ";" str)), steamguard, token.
  split; [reflexivity | split; assumption].
Qed.

Lemma once_login_respond d b :
  calls_back_once login_args
    (login_respond Request_cookie decodeURIComponent SteamID_new JSON_parse_oauth d b).
Proof.
  unfold login_respond. apply once_bind; [apply silent_lift | intros outcome].
  destruct outcome; [ .. | apply once_login_success ];
    try (apply once_bind; [apply silent_modify; reflexivity | intros ?]);
    apply once_callback; left; eexists; reflexivity.
Qed.

Lemma once_login_on_dologin d r2 :
  calls_back_once login_args
    (login_on_dologin Request_cookie decodeURIComponent SteamID_new JSON_parse_oauth d r2).
Proof.
  unfold login_on_dologin. apply once_bind; [apply silent_deleteMobileCookies | intros ?].
  destruct (err r2).
  - apply once_callback; left; eexists; reflexivity.
  - apply once_login_respond.
Qed.

Lemma once_login_on_rsakey d h r2 r1 :
  calls_back_once login_args
    (login_on_rsakey Request_cookie decodeURIComponent SteamID_new RSA_encrypt
                     JSON_parse_oauth d h r2 r1).
Proof.
  unfold login_on_rsakey. destruct (err r1).
  - apply once_bind; [apply silent_deleteMobileCookies | intros ?].
    apply once_callback; left; eexists; reflexivity.
  - destruct (_ || _).
    + apply once_bind; [apply silent_deleteMobileCookies | intros ?].
      apply once_callback; left; eexists; reflexivity.
    + apply once_bind; [apply silent_lift | intros encrypted].
      apply once_bind; [apply silent_pure; reflexivity | intros st1].
      apply once_bind; [apply silent_httpRequest | intros r].
      apply once_login_on_dologin.
Qed.

End CallsBack.

(** X12.  [login] invokes its callback at most once: exactly once when
    it runs to its end, with an error alone or with [null], a session
    identifier of 24 hexadecimal digits, the cookies, the Steam Guard
    token and the OAuth token; and not at all when an exception stops
    it. *)
Theorem login_calls_back_once
    Request_cookie encodeURIComponent decodeURIComponent SteamID_new RSA_encrypt
    JSON_parse_oauth (details : Details) (rsa : HttpReply RsaBody)
    (dologin : HttpReply LoginBody) (st : Client) :
  let run := login Request_cookie encodeURIComponent decodeURIComponent SteamID_new
                   RSA_encrypt JSON_parse_oauth details rsa dologin st in
  match fst run with
  | Ok _ => exists a, callbacks (log (snd run)) = (callbacks (log st) ++ [a])%list
                      /\ login_args a
  | Throw _ => callbacks (log (snd run)) = callbacks (log st)
  end.
Proof.
  intros run. subst run. revert st.
  change (calls_back_once login_args
            (login Request_cookie encodeURIComponent decodeURIComponent SteamID_new
                   RSA_encrypt JSON_parse_oauth details rsa dologin)).
  unfold login.
  apply once_bind; [apply silent_login_begin | intros headers].
  apply once_bind; [apply silent_httpRequest | intros r1].
  apply once_login_on_rsakey.
Qed.

(** ** The cookies of the mobile client *)

Lemma same_slot_iff (e x : Jar.Entry) :
  Jar.same_slot (Jar.domain e) (key (Jar.cookie e)) x = true <-> slot_of x = slot_of e.
Proof.
  unfold Jar.same_slot, slot_of. rewrite andb_true_iff, !String.eqb_eq.
  split; [intros [-> ->]; reflexivity | intros H; injection H; auto].
Qed.

Lemma put_slots (e : Jar.Entry) (j : Jar.t) :
  map slot_of (Jar.put e j) = map slot_of j
  \/ (~ In (slot_of e) (map slot_of j) /\ Jar.put e j = (j ++ [e])%list).
Proof.
  induction j as [|x j IH]; cbn [Jar.put map].
  - right. split; [intros [] | reflexivity].
  - destruct (Jar.same_slot (Jar.domain e) (key (Jar.cookie e)) x) eqn:Hs.
    + left. apply same_slot_iff in Hs. cbn [map]. rewrite Hs. reflexivity.
    + destruct IH as [IH|[Hn IH]].
      * left. cbn [map]. rewrite IH. reflexivity.
      * right. split.
        -- intros [H|H]; [|exact (Hn H)].
           apply same_slot_iff in H. rewrite H in Hs. discriminate.
        -- rewrite IH. reflexivity.
Qed.

Lemma put_one_per_slot (e : Jar.Entry) (j : Jar.t) :
  NoDup (map slot_of j) -> NoDup (map slot_of (Jar.put e j)).
Proof.
  intros H. destruct (put_slots e j) as [->|[Hn ->]]; [exact H|].
  rewrite map_app. cbn [map].
  apply NoDup_app; [exact H | apply NoDup_cons; [intros [] | apply NoDup_nil] |].
  intros s Hs [<-|[]]. exact (Hn Hs).
Qed.

Lemma one_per_slot_unique (j : Jar.t) (x y : Jar.Entry) :
  NoDup (map slot_of j) -> In x j -> In y j -> slot_of x = slot_of y -> x = y.
Proof.
  induction j as [|z j IH]; cbn [map]; intros Hnd Hx Hy Hs; [destruct Hx|].
  inversion Hnd as [|? ? Hz Hnd']; subst.
  destruct Hx as [->|Hx], Hy as [->|Hy].
  - reflexivity.
  - exfalso. apply Hz. rewrite Hs. apply in_map. exact Hy.
  - exfalso. apply Hz. rewrite <- Hs. apply in_map. exact Hx.
  - apply IH; assumption.
Qed.

Lemma put_keeps_others (f : Jar.Entry -> bool) (e : Jar.Entry) (j : Jar.t) :
  f e = false ->
  (forall x, slot_of x = slot_of e -> f x = false) ->
  filter f (Jar.put e j) = filter f j.
Proof.
  intros He Hx. induction j as [|x j IH]; cbn [Jar.put filter].
  - rewrite He. reflexivity.
  - destruct (Jar.same_slot (Jar.domain e) (key (Jar.cookie e)) x) eqn:Hs; cbn [filter].
    + apply same_slot_iff in Hs. rewrite He, (Hx x Hs). reflexivity.
    + rewrite IH. reflexivity.
Qed.

Lemma one_per_slot_setCookie (c : option Cookie) (v : JsVal) :
  preserves one_per_slot (_setCookie c v).
Proof.
  intros st H. destruct c as [c|]; [|exact H].
  unfold one_per_slot. cbn. unfold Jar.setCookie.
  repeat apply put_one_per_slot. exact H.
Qed.

Lemma jar_run_timers (st : Client) : _jar (run_timers st) = _jar st.
Proof. unfold run_timers. destruct (existsb _ _); reflexivity. Qed.

Lemma one_per_slot_elapse (d : N) : preserves one_per_slot (elapse d).
Proof.
  intros st H. unfold one_per_slot, elapse, modify. cbn [snd].
  rewrite jar_run_timers. exact H.
Qed.

Lemma one_per_slot_same_jar (f : Client -> Client) :
  (forall st, _jar (f st) = _jar st) ->
  forall st, one_per_slot st -> one_per_slot (f st).
Proof. intros Hf st H. unfold one_per_slot. rewrite Hf. exact H. Qed.

Lemma one_per_slot_emit_log (e : Event) : preserves one_per_slot (emit_log e).
Proof. intros st H. exact H. Qed.

Lemma deleteMobileCookies_run Request_cookie (c1 c2 : Cookie) (st : Client) :
  Request_cookie "mobileClientVersion=" = Some c1 ->
  Request_cookie "mobileClient=" = Some c2 ->
  let put3 := fun (c : Cookie) (j : Jar.t) =>
    Jar.put (Jar.mkEntry "help.steampowered.com" c)
      (Jar.put (Jar.mkEntry "store.steampowered.com" c)
         (Jar.put (Jar.mkEntry "steamcommunity.com" c) j)) in
  let e1 := mkCookie (key c1) (value c1) false (Some 0%N) in
  let e2 := mkCookie (key c2) (value c2) false (Some 0%N) in
  exists st',
    deleteMobileCookies Request_cookie st = (Ok tt, st')
    /\ now st' = now st
    /\ _jar st' = put3 e2 (put3 e1 (_jar st)).
Proof.
  intros H1 H2 put3 e1 e2. unfold deleteMobileCookies. rewrite H1, H2.
  eexists. split; [reflexivity|]. split; reflexivity.
Qed.

Lemma expired_at_zero (c : Cookie) (now0 : N) (url : string) (d : string) :
  expires c = Some 0%N -> Jar.visible now0 url (Jar.mkEntry d c) = false.
Proof.
  intros H. unfold Jar.visible, Jar.expired. cbn [Jar.cookie]. rewrite H.
  cbn [N.leb]. destruct now0; cbn; rewrite andb_false_r; reflexivity.
Qed.

(** X13.  The jar holds at most one cookie for each domain and name:
    this holds of a new client, and [login], [setCookies] and
    [getSessionID] keep it.  On such a jar, when [Request.cookie]
    names the two cookies as their texts do, [deleteMobileCookies] of
    [login] leaves no cookie named [mobileClientVersion] or
    [mobileClient] among those listed for a URL of the three domains,
    and lists every other cookie as before. *)
Theorem deleteMobileCookies_clears_mobile_cookies
    Request_cookie encodeURIComponent decodeURIComponent SteamID_new
    RSA_encrypt JSON_parse_oauth :
  (forall mua t0 ent,
      one_per_slot (snd (SteamCommunity Request_cookie mua (blank t0 ent))))
  /\ (forall st, one_per_slot st ->
        (forall details rsa dologin,
            one_per_slot (snd (login Request_cookie encodeURIComponent decodeURIComponent
                                     SteamID_new RSA_encrypt JSON_parse_oauth
                                     details rsa dologin st)))
        /\ (forall cookies,
               one_per_slot (snd (setCookies Request_cookie SteamID_new cookies st)))
        /\ (forall host,
               one_per_slot (snd (getSessionID Request_cookie decodeURIComponent host st)))
        /\ (forall c1 c2 url,
               Request_cookie "mobileClientVersion=" = Some c1 ->
               key c1 = "mobileClientVersion" ->
               Request_cookie "mobileClient=" = Some c2 ->
               key c2 = "mobileClient" ->
               In (Jar.url_host url) DOMAINS ->
               let run := deleteMobileCookies Request_cookie st in
               fst run = Ok tt
               /\ one_per_slot (snd run)
               /\ (forall c, In c (visible_cookies url (snd run)) ->
                             is_mobile_name (key c) = false)
               /\ other_cookies url (snd run) = other_cookies url st)).
Proof.
  split.
  - intros mua t0 ent. unfold SteamCommunity. rewrite bind_run. cbn [modify].
    match goal with |- one_per_slot (snd (?m ?s)) =>
      assert (Hp : preserves one_per_slot m) end.
    { pres; apply one_per_slot_setCookie. }
    apply Hp. apply NoDup_nil.
  - intros st H. split; [|split; [|split]].
    + intros. apply stable_login;
        first [ apply one_per_slot_setCookie | apply one_per_slot_elapse
              | intros; apply one_per_slot_emit_log
              | intros ? s Hs; exact Hs
              | intros s Hs; exact Hs
              | exact H ].
    + intros. apply stable_setCookies;
        first [ apply one_per_slot_setCookie | intros ? s Hs; exact Hs | exact H ].
    + intros. apply stable_getSessionID;
        first [ apply one_per_slot_setCookie | intros ? s Hs; exact Hs | exact H ].
    + intros c1 c2 url H1 K1 H2 K2 Hd run. subst run.
      destruct (deleteMobileCookies_run Request_cookie c1 c2 st H1 H2)
        as (st' & -> & Hnow & Hjar).
      cbn [fst snd]. rewrite K1, K2 in Hjar.
      set (e1 := mkCookie "mobileClientVersion" (value c1) false (Some 0%N)) in *.
      set (e2 := mkCookie "mobileClient" (value c2) false (Some 0%N)) in *.
      assert (Hone : one_per_slot st').
      { unfold one_per_slot. rewrite Hjar. repeat apply put_one_per_slot. exact H. }
      split; [reflexivity|]. split; [exact Hone|]. split.
      * intros c Hc. unfold visible_cookies in Hc.
        apply in_map_iff in Hc. destruct Hc as (x & <- & Hx).
        apply filter_In in Hx. destruct Hx as [Hin Hvis].
        destruct (is_mobile_name (key (Jar.cookie x))) eqn:Hm; [|reflexivity].
        exfalso.
        assert (Hdom : Jar.domain x = Jar.url_host url).
        { unfold Jar.visible in Hvis. apply andb_true_iff in Hvis as [Hvis _].
          apply andb_true_iff in Hvis as [Hvis _]. apply String.eqb_eq. exact Hvis. }
        assert (Hex : exists e, In (Jar.mkEntry (Jar.url_host url) e) (_jar st')
                                /\ key e = key (Jar.cookie x) /\ expires e = Some 0%N).
        { unfold is_mobile_name in Hm. apply orb_true_iff in Hm.
          destruct Hm as [Hm|Hm]; apply String.eqb_eq in Hm; rewrite Hm, Hjar.
          - exists e1. split; [|split; reflexivity].
            cbn in Hd. destruct Hd as [<-|[<-|[<-|[]]]];
              repeat first [ apply put_in_same | apply put_in_other; [|reflexivity] ].
          - exists e2. split; [|split; reflexivity].
            cbn in Hd. destruct Hd as [<-|[<-|[<-|[]]]];
              repeat first [ apply put_in_same | apply put_in_other; [|reflexivity] ]. }
        destruct Hex as (e & Hine & Hke & Hee).
        assert (Heq : x = Jar.mkEntry (Jar.url_host url) e).
        { apply (one_per_slot_unique (_jar st')); [exact Hone | exact Hin | exact Hine |].
          unfold slot_of. cbn [Jar.domain Jar.cookie]. rewrite Hdom, Hke. reflexivity. }
        rewrite Heq, (expired_at_zero e _ _ _ Hee) in Hvis. discriminate.
      * unfold other_cookies. rewrite Hnow, Hjar. f_equal.
        repeat (rewrite put_keeps_others;
                [ | cbn; rewrite andb_false_r; reflexivity
                  | intros x Hx; unfold slot_of in Hx; cbn [Jar.domain Jar.cookie key] in Hx;
                    injection Hx as _ Hk; rewrite Hk; cbn; rewrite andb_false_r;
                    reflexivity ]).
        reflexivity.
Qed.

(** After the first part of a mobile login on a fresh client the two
    cookies of the mobile client are listed; after
    [deleteMobileCookies] they are not. *)
Lemma deleteMobileCookies_clears_witness :
  let st := snd (login_begin Sample.cookie Sample.encodeURIComponent Sample.creds
                             Sample.fresh) in
  let run := deleteMobileCookies Sample.cookie st in
  map key (visible_cookies "https://steamcommunity.com" st)
  = ["Steam_Language"; "timezoneOffset"; "mobileClientVersion"; "mobileClient"]
  /\ fst run = Ok tt
  /\ (forall c, In c (visible_cookies "https://steamcommunity.com" (snd run)) ->
                is_mobile_name (key c) = false)
  /\ map key (other_cookies "https://steamcommunity.com" (snd run))
     = ["Steam_Language"; "timezoneOffset"].
Proof.
  intros st run.
  assert (H : one_per_slot st).
  { unfold one_per_slot. vm_compute.
    repeat (apply NoDup_cons; [cbn; intuition discriminate|]). apply NoDup_nil. }
  destruct (proj2 (proj2 (proj2 (proj2 (deleteMobileCookies_clears_mobile_cookies
              Sample.cookie Sample.encodeURIComponent Sample.decodeURIComponent
              Sample.SteamID_new Sample.RSA_encrypt Sample.JSON_parse_oauth) st H)))
              (mkCookie "mobileClientVersion" "" false None)
              (mkCookie "mobileClient" "" false None)
              "https://steamcommunity.com"
              ltac:(vm_compute; reflexivity) ltac:(reflexivity)
              ltac:(vm_compute; reflexivity) ltac:(reflexivity)
              ltac:(vm_compute; left; reflexivity))
    as (H1 & _ & H2 & H3).
  split; [vm_compute; reflexivity|]. split; [exact H1|]. split; [exact H2|].
  refine (eq_trans (f_equal (map key) H3) _). vm_compute. reflexivity.
Defined.

(** ** [_myProfile]: the pages it asks for *)

Lemma profile_at_path (s g : string) : Str.profile_at s = Some g -> profile_path g.
Proof.
  unfold Str.profile_at.
  destruct (Str.drop_prefix "steamcommunity.com" s) as [r|]; [|discriminate].
  destruct (Str.drop_prefix "/id/" r) as [t|].
  - pose proof (take_while_all_chars (fun x => negb (Str.is_slash x)) t) as Ha.
    destruct (Str.take_while _ t) as [|a seg]; [discriminate|].
    intros H. injection H as <-. exists (String a seg).
    split; [left; reflexivity|]. split; [discriminate | exact Ha].
  - destruct (Str.drop_prefix "/profiles/" r) as [t|]; [|discriminate].
    pose proof (take_while_all_chars (fun x => negb (Str.is_slash x)) t) as Ha.
    destruct (Str.take_while _ t) as [|a seg]; [discriminate|].
    intros H. injection H as <-. exists (String a seg).
    split; [right; reflexivity|]. split; [discriminate | exact Ha].
Qed.

Lemma match_profile_path (s g : string) : Str.match_profile s = Some g -> profile_path g.
Proof.
  induction s as [|c s IH]; [discriminate|].
  cbn [Str.match_profile].
  destruct (Str.profile_at (String c s)) as [g'|] eqn:E.
  - intros H. injection H as <-. exact (profile_at_path _ _ E).
  - exact IH.
Qed.

Lemma profile_cache_setCookie c v : preserves cache_is_profile_path (_setCookie c v).
Proof. apply untouched_setCookie; intros; assumption. Qed.

Lemma profile_cache_emit_log e : preserves cache_is_profile_path (emit_log e).
Proof. apply untouched_emit_log. intros; assumption. Qed.

Lemma profile_cache_elapse d : preserves cache_is_profile_path (elapse d).
Proof.
  apply preserves_modify. intros st H u Hc.
  rewrite cached_run_timers in Hc.
  destruct (existsb _ _); [discriminate|]. exact (H u Hc).
Qed.

Lemma profile_cache_httpRequest {B} m u f h (r : HttpReply B) :
  preserves cache_is_profile_path (httpRequest m u f h r).
Proof.
  apply stable_httpRequest; [apply profile_cache_elapse | intros; apply profile_cache_emit_log].
Qed.

Lemma profile_cache_myProfile e f my : preserves cache_is_profile_path (_myProfile e f my).
Proof.
  unfold _myProfile. apply preserves_bind; [apply preserves_get | intros s].
  destruct (cached_profileURL s); [apply profile_cache_emit_log|].
  apply preserves_bind; [apply profile_cache_httpRequest | intros r].
  destruct (err r); [apply profile_cache_emit_log|].
  destruct (negb _); [apply profile_cache_emit_log|].
  destruct (location r) as [loc|]; [|apply preserves_throw].
  destruct (Str.match_profile loc) as [url|] eqn:Hm; [|apply profile_cache_emit_log].
  intros st _. rewrite !bind_run. cbn [modify setTimeout_deleteProfileURL].
  apply profile_cache_emit_log.
  intros u Hu. pose proof (match_profile_path _ _ Hm) as Hp.
  pose proof (match_profile_nonempty _ _ Hm) as Hne.
  destruct url as [|a p]; [contradiction|].
  change (Some (String a p) = Some u) in Hu. injection Hu as <-. exact Hp.
Qed.

Lemma requests_completeRequest e f url st :
  exists m path,
    requests (log (snd (completeRequest e f url st)))
    = (requests (log st)
       ++ [(m, ("https://steamcommunity.com" ++ url ++ "/" ++ path)%string)])%list.
Proof.
  destruct (completeRequest_run e f url st) as (m & path & ->).
  exists m, path. cbn [snd log set_log]. rewrite requests_app. reflexivity.
Qed.

Lemma requests_callback args st :
  requests (log (snd (callback args st))) = requests (log st).
Proof. cbn. rewrite requests_app. cbn. apply app_nil_r. Qed.

(** X14.  A cached profile URL is always a path [/id/<name>] or
    [/profiles/<name>] with a non-empty name free of [/]: this holds of
    a new client, and [login], the passing of time and [_myProfile] keep
    it.  Hence [_myProfile] issues at most two requests, and each of
    them asks for [/my] or for a page under such a path. *)
Theorem myProfile_requests_profile_pages
    Request_cookie encodeURIComponent decodeURIComponent SteamID_new
    RSA_encrypt JSON_parse_oauth :
  (forall mua t0 ent,
      cache_is_profile_path (snd (SteamCommunity Request_cookie mua (blank t0 ent))))
  /\ (forall st, cache_is_profile_path st ->
        (forall details rsa dologin,
            cache_is_profile_path
              (snd (login Request_cookie encodeURIComponent decodeURIComponent
                          SteamID_new RSA_encrypt JSON_parse_oauth
                          details rsa dologin st)))
        /\ (forall d, cache_is_profile_path (snd (elapse d st)))
        /\ (forall e f my,
               let run := _myProfile e f my st in
               cache_is_profile_path (snd run)
               /\ exists l,
                    requests (log (snd run)) = (requests (log st) ++ l)%list
                    /\ length l <= 2 /\ Forall profile_request l)).
Proof.
  split.
  - intros mua t0 ent. unfold SteamCommunity. rewrite bind_run. cbn [modify].
    match goal with |- cache_is_profile_path (snd (?m ?s)) =>
      assert (Hp : preserves cache_is_profile_path m) end.
    { pres; apply profile_cache_setCookie. }
    apply Hp. intros u H. discriminate.
  - intros st H. split; [|split].
    + intros. apply stable_login;
        first [ apply profile_cache_setCookie | apply profile_cache_elapse
              | intros; apply profile_cache_emit_log
              | intros ? s Hs; exact Hs
              | intros s _ u Hu; discriminate
              | exact H ].
    + intros d. apply profile_cache_elapse. exact H.
    + intros e f my run. subst run.
      split; [apply profile_cache_myProfile; exact H|].
      destruct (cached_profileURL st) as [u|] eqn:Hc.
      * rewrite (myProfile_hit e f my st u Hc).
        destruct (requests_completeRequest e f u st) as (m & path & ->).
        eexists. split; [reflexivity|]. split; [cbn; lia|].
        constructor; [|constructor]. right. exists u, path.
        split; [exact (H u Hc) | reflexivity].
      * assert (H1 : requests (log (on_my_reply my st))
                     = (requests (log st) ++ [("GET", MY_URI)])%list).
        { unfold on_my_reply. rewrite log_run_timers. cbn [log set_now set_log].
          rewrite requests_app. reflexivity. }
        assert (Hmy : profile_request ("GET", MY_URI)) by (left; reflexivity).
        assert (Hres : forall loc url,
                   err my = None -> statusCode my = 302%Z -> location my = Some loc ->
                   Str.match_profile loc = Some url ->
                   exists l,
                     requests (log (snd (_myProfile e f my st)))
                     = (requests (log st) ++ l)%list
                     /\ length l <= 2 /\ Forall profile_request l).
        { intros loc url He Hs Hl Hm.
          rewrite (myProfile_resolve e f my st loc url Hc He Hs Hl Hm).
          match goal with |- context [completeRequest e f url ?s] =>
            destruct (requests_completeRequest e f url s) as (m & path & ->) end.
          cbn [log set_timers set_profileURL]. rewrite H1, <- app_assoc.
          eexists. split; [reflexivity|]. split; [cbn; lia|].
          constructor; [exact Hmy|]. constructor; [|constructor].
          right. exists url, path.
          split; [exact (match_profile_path _ _ Hm) | reflexivity]. }
        revert Hres.
        unfold _myProfile. rewrite bind_run. cbn [get]. rewrite Hc.
        rewrite bind_run, httpRequest_run. fold (on_my_reply my st).
        destruct (err my) as [x|] eqn:He.
        { intros _. rewrite requests_callback, H1. eexists. split; [reflexivity|].
          split; [cbn; lia | repeat constructor; exact Hmy]. }
        destruct (statusCode my =? 302)%Z eqn:Hs; cbn [negb].
        2: { intros _. rewrite requests_callback, H1. eexists. split; [reflexivity|].
             split; [cbn; lia | repeat constructor; exact Hmy]. }
        destruct (location my) as [loc|] eqn:Hl.
        2: { intros _. cbn [throw snd]. rewrite H1. eexists. split; [reflexivity|].
             split; [cbn; lia | repeat constructor; exact Hmy]. }
        destruct (Str.match_profile loc) as [url|] eqn:Hm.
        2: { intros _. rewrite requests_callback, H1. eexists. split; [reflexivity|].
             split; [cbn; lia | repeat constructor; exact Hmy]. }
        intros Hres.
        apply (Hres loc url);
          [reflexivity | apply Z.eqb_eq; exact Hs | reflexivity | exact Hm].
Qed.

(** On a fresh client the path is resolved from the redirect, and the
    page is asked for under it. *)
Lemma myProfile_requests_profile_pages_witness :
  let my := mkReply 0 None 302 (Some "https://steamcommunity.com/id/gabe/") tt in
  let run := _myProfile (EndpointPath "edit") None my Sample.fresh in
  requests (log (snd run))
  = (requests (log Sample.fresh)
     ++ [("GET", MY_URI); ("GET", "https://steamcommunity.com/id/gabe/edit")])%list
  /\ exists l,
       requests (log (snd run)) = (requests (log Sample.fresh) ++ l)%list
       /\ length l <= 2 /\ Forall profile_request l.
Proof.
  intros my run. split; [vm_compute; reflexivity|].
  refine (proj2 (proj2 (proj2 (proj2
    (myProfile_requests_profile_pages Sample.cookie Sample.encodeURIComponent
       Sample.decodeURIComponent Sample.SteamID_new Sample.RSA_encrypt
       Sample.JSON_parse_oauth) Sample.fresh _)) (EndpointPath "edit") None my)).
  intros u Hu. vm_compute in Hu. discriminate Hu.
Defined.
